(** * LOGO shutters: the cover platform ([cover.py]) in Rocq

    A shallow embedding of [custom_components/logo_shutters/cover.py] and of
    the duration ranges of [config_flow.py], followed by the properties of
    the motion estimator, the stop-sequence parser and executor, and the
    command / sensor state machine of [LogoCover].

    Conventions of the embedding.
    - Python floats are idealised as exact rationals ([Q]); the positions the
      entity commits are Python ints ([Z]).  [round] is Python's
      round-half-to-even.  [float] of an int beyond the range of a double
      raises [OverflowError], as in Python.
    - [monotonic()] is an input: every function that reads the clock takes
      the reading as an argument.
    - Python objects that come out of [yaml.safe_load] or go into a service
      call are values of [PyObj] (the JSON fragment of YAML; dictionaries are
      keyed by strings).
    - A coroutine of the entity runs from its call to its return as one
      transition of the state machine (the entity lives on one event loop);
      the movement task is scheduled by the explicit command [Tick].
    - Log messages are not modelled. *)

From Stdlib Require Import ZArith QArith Qround Qminmax Lqa Lia.
From Stdlib Require Import String Ascii Bool.
From stdpp Require Import gmap strings list fin_maps.

#[local] Set Warnings "-register-all".
#[local] Open Scope Z_scope.
#[local] Open Scope string_scope.

(** ** Python values *)

Inductive PyObj : Type :=
| PyNone
| PyBool (b : bool)
| PyInt (z : Z)
| PyFloat (q : Q)
| PyStr (s : string)
| PyList (l : list PyObj)
| PyDict (m : gmap string PyObj).

(** Exceptions that the modelled code can raise or let through. *)
Inductive exn : Type :=
| ZeroDivisionError
| TypeError
| ValueError
| AttributeError
| AssertionError
| OverflowError
| ServiceError.

Inductive outcome (A : Type) : Type :=
| Ok (a : A)
| Raise (e : exn).
Arguments Ok {A} a.
Arguments Raise {A} e.

(** Python truthiness, as used by [not x] and [x or y]. *)
Definition truthy (v : PyObj) : bool :=
  match v with
  | PyNone => false
  | PyBool b => b
  | PyInt z => negb (z =? 0)%Z
  | PyFloat q => negb (Qeq_bool q 0)
  | PyStr s => negb (String.eqb s "")
  | PyList l => match l with [] => false | _ => true end
  | PyDict m => match map_to_list m with [] => false | _ => true end
  end.

(** ** Numbers *)

(** Python's [round(x)] on a float: to the nearest integer, ties to even. *)
Definition py_round (x : Q) : Z :=
  let f := Qfloor x in
  match Qcompare (x - inject_Z f)%Q (1 # 2)%Q with
  | Lt => f
  | Gt => f + 1
  | Eq => if Z.even f then f else f + 1
  end.

(** [def _clamp_position(value: float) -> int] *)
Definition _clamp_position (value : Q) : Z :=
  Z.max 0 (Z.min 100 (py_round value)).

(** Python's [a / b] on floats. *)
Definition py_div (a b : Q) : outcome Q :=
  if Qeq_bool b 0 then Raise ZeroDivisionError else Ok (a / b)%Q.

(** ** Strings *)

(** The characters [str.strip()] removes, in the ASCII range. *)
Definition is_space (c : ascii) : bool :=
  let n := nat_of_ascii c in
  ((9 <=? n)%nat && (n <=? 13)%nat) || ((28 <=? n)%nat && (n <=? 32)%nat).

(** [not raw.strip()]: nothing but white space. *)
Fixpoint is_blank (s : string) : bool :=
  match s with
  | EmptyString => true
  | String c s' => is_space c && is_blank s'
  end.

(** ["." in s] on a string. *)
Fixpoint has_dot (s : string) : bool :=
  match s with
  | EmptyString => false
  | String c s' => Ascii.eqb c "." || has_dot s'
  end.

(** [s.split(".", 1)] on a string: the text before the first dot and the text
    after it; a string without a dot is returned whole. *)
Fixpoint split_dot (s : string) : string * option string :=
  match s with
  | EmptyString => (EmptyString, None)
  | String c s' =>
      if Ascii.eqb c "." then (EmptyString, Some s')
      else let '(a, b) := split_dot s' in (String c a, b)
  end.

(** ** The stop-sequence parser *)

(** [@dataclass class StopStep] *)
Record StopStep : Type := {
  domain : string;
  service : string;
  entity_id : PyObj;
  service_data : gmap string PyObj;
  delay : Q
}.

(** The least magnitude of an int at which [float(int)] raises
    [OverflowError]: the ints that round (half to even, 53 bits) to [2^1024]
    or beyond. *)
Definition float_overflow_bound : Z := 2 ^ 1024 - 2 ^ 970.
#[global] Arguments float_overflow_bound : simpl never.

Section Parser.

(** [yaml.safe_load]: [None] when the loader raises. *)
Variable safe_load : string -> option PyObj.
(** [float(s)] on a string: [None] when the text is not a number. *)
Variable float_of_str : string -> option Q.

(** [float(v)] *)
Definition py_float (v : PyObj) : outcome Q :=
  match v with
  | PyBool b => Ok (if b then 1 else 0)%Q
  | PyInt z => if (Z.abs z <? float_overflow_bound)%Z then Ok (inject_Z z)
               else Raise OverflowError
  | PyFloat q => Ok q
  | PyStr s => match float_of_str s with
               | Some q => Ok q
               | None => Raise ValueError
               end
  | PyNone | PyList _ | PyDict _ => Raise TypeError
  end.

(** [step.get(key)] *)
Definition dict_get (step : gmap string PyObj) (key : string) : PyObj :=
  default PyNone (step !! key).

(** [step.get("delay", 0)] followed by [float(delay_val)] under
    [except (TypeError, ValueError): delay = 0]; any other exception of the
    conversion leaves the handler. *)
Definition step_delay (step : gmap string PyObj) : outcome Q :=
  let delay_val := default (PyInt 0) (step !! "delay") in
  match py_float delay_val with
  | Ok d => Ok d
  | Raise TypeError | Raise ValueError => Ok 0%Q
  | Raise e => Raise e
  end.

(** [step.get("service_data") or {}], replaced by [{}] when not a dict. *)
Definition step_service_data (step : gmap string PyObj) : gmap string PyObj :=
  let v := dict_get step "service_data" in
  match (if truthy v then v else PyDict ∅) with
  | PyDict m => m
  | _ => ∅
  end.

(** ["." not in service] *)
Definition not_contains_dot (service : PyObj) : outcome bool :=
  match service with
  | PyStr s => Ok (negb (has_dot s))
  | PyList l =>
      Ok (negb (existsb (fun x => match x with
                                  | PyStr e => String.eqb e "."
                                  | _ => false
                                  end) l))
  | PyDict m => Ok (negb (bool_decide (is_Some (m !! "."))))
  | PyNone | PyBool _ | PyInt _ | PyFloat _ => Raise TypeError
  end.

Inductive step_result : Type :=
| Skipped
| Parsed (s : StopStep)
| Failed (e : exn).

(** The body of the [for idx, step in enumerate(loaded)] loop. *)
Definition parse_step (step : PyObj) : step_result :=
  match step with
  | PyDict step =>
      let service := dict_get step "service" in
      if negb (truthy service) then Skipped
      else match not_contains_dot service with
           | Raise e => Failed e
           | Ok true => Skipped
           | Ok false =>
               match service with
               | PyStr s =>
                   let '(domain, rest) := split_dot s in
                   match step_delay step with
                   | Raise e => Failed e
                   | Ok d =>
                       Parsed {| domain := domain;
                                 service := default EmptyString rest;
                                 entity_id := dict_get step "entity_id";
                                 service_data := step_service_data step;
                                 delay := d |}
                   end
               | _ => Failed AttributeError
               end
           end
  | _ => Skipped
  end.

Fixpoint parse_steps (loaded : list PyObj) (steps : list StopStep)
  : outcome (list StopStep) :=
  match loaded with
  | [] => Ok steps
  | step :: rest =>
      match parse_step step with
      | Skipped => parse_steps rest steps
      | Parsed s => parse_steps rest (steps ++ [s])
      | Failed e => Raise e
      end
  end.

(** [def _parse_stop_sequence(raw: str) -> list[StopStep]] *)
Definition _parse_stop_sequence (raw : string) : outcome (list StopStep) :=
  if String.eqb raw "" || is_blank raw then Ok []
  else match safe_load raw with
       | None => Ok []
       | Some (PyList loaded) => parse_steps loaded []
       | Some _ => Ok []
       end.

End Parser.

(** ** The entity *)

(** The attributes [LogoCover.__init__] reads from the config entry and never
    writes again. *)
Record Settings : Type := {
  _name : string;
  _open_switch : string;
  _close_switch : string;
  _moving_up_sensor : option string;
  _moving_down_sensor : option string;
  _open_time : Q;
  _close_time : Q;
  _initial_position : Z;
  _shade_position : Z;
  _stop_sequence_up : list StopStep;
  _stop_sequence_down : list StopStep
}.

(** [class LogoCover]: the mutable attributes.  [_movement_task] holds the
    handle of the [asyncio.Task]. *)
Record LogoCover : Type := {
  settings : Settings;
  _position : Z;
  _is_opening : bool;
  _is_closing : bool;
  _sensor_up_active : bool;
  _sensor_down_active : bool;
  _movement_task : option nat;
  _movement_start : option Q;
  _movement_start_position : Q;
  _movement_target : option Q;
  _movement_expected_duration : option Q;
  _last_direction_opening : option bool
}.

Definition set_position (v : Z) (s : LogoCover) : LogoCover :=
  {| settings := settings s; _position := v;
     _is_opening := _is_opening s; _is_closing := _is_closing s;
     _sensor_up_active := _sensor_up_active s;
     _sensor_down_active := _sensor_down_active s;
     _movement_task := _movement_task s;
     _movement_start := _movement_start s;
     _movement_start_position := _movement_start_position s;
     _movement_target := _movement_target s;
     _movement_expected_duration := _movement_expected_duration s;
     _last_direction_opening := _last_direction_opening s |}.

Definition set_motion_flags (opening closing : bool) (s : LogoCover)
  : LogoCover :=
  {| settings := settings s; _position := _position s;
     _is_opening := opening; _is_closing := closing;
     _sensor_up_active := _sensor_up_active s;
     _sensor_down_active := _sensor_down_active s;
     _movement_task := _movement_task s;
     _movement_start := _movement_start s;
     _movement_start_position := _movement_start_position s;
     _movement_target := _movement_target s;
     _movement_expected_duration := _movement_expected_duration s;
     _last_direction_opening := _last_direction_opening s |}.

Definition set_sensor_up_active (v : bool) (s : LogoCover) : LogoCover :=
  {| settings := settings s; _position := _position s;
     _is_opening := _is_opening s; _is_closing := _is_closing s;
     _sensor_up_active := v;
     _sensor_down_active := _sensor_down_active s;
     _movement_task := _movement_task s;
     _movement_start := _movement_start s;
     _movement_start_position := _movement_start_position s;
     _movement_target := _movement_target s;
     _movement_expected_duration := _movement_expected_duration s;
     _last_direction_opening := _last_direction_opening s |}.

Definition set_sensor_down_active (v : bool) (s : LogoCover) : LogoCover :=
  {| settings := settings s; _position := _position s;
     _is_opening := _is_opening s; _is_closing := _is_closing s;
     _sensor_up_active := _sensor_up_active s;
     _sensor_down_active := v;
     _movement_task := _movement_task s;
     _movement_start := _movement_start s;
     _movement_start_position := _movement_start_position s;
     _movement_target := _movement_target s;
     _movement_expected_duration := _movement_expected_duration s;
     _last_direction_opening := _last_direction_opening s |}.

Definition set_movement_task (v : option nat) (s : LogoCover) : LogoCover :=
  {| settings := settings s; _position := _position s;
     _is_opening := _is_opening s; _is_closing := _is_closing s;
     _sensor_up_active := _sensor_up_active s;
     _sensor_down_active := _sensor_down_active s;
     _movement_task := v;
     _movement_start := _movement_start s;
     _movement_start_position := _movement_start_position s;
     _movement_target := _movement_target s;
     _movement_expected_duration := _movement_expected_duration s;
     _last_direction_opening := _last_direction_opening s |}.

Definition set_movement_start (v : option Q) (s : LogoCover) : LogoCover :=
  {| settings := settings s; _position := _position s;
     _is_opening := _is_opening s; _is_closing := _is_closing s;
     _sensor_up_active := _sensor_up_active s;
     _sensor_down_active := _sensor_down_active s;
     _movement_task := _movement_task s;
     _movement_start := v;
     _movement_start_position := _movement_start_position s;
     _movement_target := _movement_target s;
     _movement_expected_duration := _movement_expected_duration s;
     _last_direction_opening := _last_direction_opening s |}.

Definition set_movement_start_position (v : Q) (s : LogoCover) : LogoCover :=
  {| settings := settings s; _position := _position s;
     _is_opening := _is_opening s; _is_closing := _is_closing s;
     _sensor_up_active := _sensor_up_active s;
     _sensor_down_active := _sensor_down_active s;
     _movement_task := _movement_task s;
     _movement_start := _movement_start s;
     _movement_start_position := v;
     _movement_target := _movement_target s;
     _movement_expected_duration := _movement_expected_duration s;
     _last_direction_opening := _last_direction_opening s |}.

Definition set_movement_target (v : option Q) (s : LogoCover) : LogoCover :=
  {| settings := settings s; _position := _position s;
     _is_opening := _is_opening s; _is_closing := _is_closing s;
     _sensor_up_active := _sensor_up_active s;
     _sensor_down_active := _sensor_down_active s;
     _movement_task := _movement_task s;
     _movement_start := _movement_start s;
     _movement_start_position := _movement_start_position s;
     _movement_target := v;
     _movement_expected_duration := _movement_expected_duration s;
     _last_direction_opening := _last_direction_opening s |}.

Definition set_movement_expected_duration (v : option Q) (s : LogoCover)
  : LogoCover :=
  {| settings := settings s; _position := _position s;
     _is_opening := _is_opening s; _is_closing := _is_closing s;
     _sensor_up_active := _sensor_up_active s;
     _sensor_down_active := _sensor_down_active s;
     _movement_task := _movement_task s;
     _movement_start := _movement_start s;
     _movement_start_position := _movement_start_position s;
     _movement_target := _movement_target s;
     _movement_expected_duration := v;
     _last_direction_opening := _last_direction_opening s |}.

Definition set_last_direction_opening (v : option bool) (s : LogoCover)
  : LogoCover :=
  {| settings := settings s; _position := _position s;
     _is_opening := _is_opening s; _is_closing := _is_closing s;
     _sensor_up_active := _sensor_up_active s;
     _sensor_down_active := _sensor_down_active s;
     _movement_task := _movement_task s;
     _movement_start := _movement_start s;
     _movement_start_position := _movement_start_position s;
     _movement_target := _movement_target s;
     _movement_expected_duration := _movement_expected_duration s;
     _last_direction_opening := v |}.

(** ** The estimator and the direction resolution (read-only methods) *)

(** [def _interpolated_position(self) -> float]; [now] is the reading of
    [monotonic()]. *)
Definition _interpolated_position (self : LogoCover) (now : Q) : outcome Q :=
  match _movement_start self, _movement_target self,
        _movement_expected_duration self with
  | Some start, Some target, Some duration =>
      let elapsed := (now - start)%Q in
      match py_div elapsed duration with
      | Raise e => Raise e
      | Ok ratio =>
          let progress := Qmin 1 ratio in
          let delta := (target - _movement_start_position self)%Q in
          Ok (_movement_start_position self + delta * progress)%Q
      end
  | _, _, _ => Ok (inject_Z (_position self))
  end.

(** [def _active_or_last_direction(self) -> bool | None] *)
Definition _active_or_last_direction (self : LogoCover) : option bool :=
  if _sensor_up_active self || _is_opening self then Some true
  else if _sensor_down_active self || _is_closing self then Some false
  else _last_direction_opening self.

(** ** The duration fields of the configuration schema ([config_flow.py]) *)

(** [vol.Range(min=lo)] after [vol.Coerce(float)]: the value, or a rejection. *)
Definition vol_Range_min (lo : Q) (v : Q) : option Q :=
  if Qle_bool lo v then Some v else None.

(** The validator of [CONF_OPEN_TIME] and of [CONF_CLOSE_TIME]. *)
Definition schema_time (v : Q) : option Q := vol_Range_min (1 # 10) v.

(** ** The world around the entity *)

(** What the entity does to its host, in order. *)
Inductive Event : Type :=
| ServiceCall (dom srv : string) (data : gmap string PyObj)
| Sleep (seconds : Q)
| WriteHaState (position : Z) (is_opening is_closing : bool).

(** A task of the event loop is either created and not yet run, or suspended
    in [await asyncio.sleep(0.5)]. *)
Inductive phase : Type := Created | Sleeping.

(** [loop_tasks] are the tasks the loop can still run: a cancelled, finished
    or crashed task is not in it. *)
Record World : Type := {
  self : LogoCover;
  loop_tasks : list (nat * phase);
  next_task : nat;
  bus : list Event
}.

Definition with_self (s : LogoCover) (w : World) : World :=
  {| self := s; loop_tasks := loop_tasks w;
     next_task := next_task w; bus := bus w |}.

Definition with_tasks (ts : list (nat * phase)) (w : World) : World :=
  {| self := self w; loop_tasks := ts;
     next_task := next_task w; bus := bus w |}.

Definition with_bus (b : list Event) (w : World) : World :=
  {| self := self w; loop_tasks := loop_tasks w;
     next_task := next_task w; bus := b |}.

Definition task_phase (tid : nat) (w : World) : option phase :=
  snd <$> List.find (fun t => Nat.eqb (fst t) tid) (loop_tasks w).

Definition drop_task (tid : nat) (ts : list (nat * phase))
  : list (nat * phase) :=
  List.filter (fun t => negb (Nat.eqb (fst t) tid)) ts.

(** ** A state and exception monad over the world *)

Definition M (A : Type) : Type := World -> outcome A * World.

Definition ret {A} (a : A) : M A := fun w => (Ok a, w).

Definition raise {A} (e : exn) : M A := fun w => (Raise e, w).

Definition bind {A B} (m : M A) (k : A -> M B) : M B :=
  fun w => match m w with
           | (Ok a, w') => k a w'
           | (Raise e, w') => (Raise e, w')
           end.

Notation "'let*' x ':=' m 'in' k" := (bind m (fun x => k))
  (at level 10, x name, m at level 100, k at level 200, only parsing).
Notation "m ';;' k" := (bind m (fun _ => k))
  (at level 100, k at level 200, right associativity, only parsing).

Definition lift {A} (o : outcome A) : M A := fun w => (o, w).

Definition get_self : M LogoCover := fun w => (Ok (self w), w).

Definition modify (f : LogoCover -> LogoCover) : M unit :=
  fun w => (Ok tt, with_self (f (self w)) w).

Definition emit (e : Event) : M unit :=
  fun w => (Ok tt, with_bus (bus w ++ [e]) w).

(** [task.cancel()]: the task receives [CancelledError] at its suspension
    point and returns from the [except] clause; it never runs again. *)
Definition task_cancel (tid : nat) : M unit :=
  fun w => (Ok tt, with_tasks (drop_task tid (loop_tasks w)) w).

(** [asyncio.create_task(self._run_movement_task())] *)
Definition create_task : M nat :=
  fun w => (Ok (next_task w),
            {| self := self w;
               loop_tasks := loop_tasks w ++ [(next_task w, Created)];
               next_task := S (next_task w);
               bus := bus w |}).

(** [asyncio.sleep(d)] inside a coroutine of the entity. *)
Definition asyncio_sleep (d : Q) : M unit := emit (Sleep d).

(** [self.async_write_ha_state()] *)
Definition async_write_ha_state : M unit :=
  let* s := get_self in
  emit (WriteHaState (_position s) (_is_opening s) (_is_closing s)).

Definition ATTR_ENTITY_ID : string := "entity_id".
Definition SERVICE_TURN_ON : string := "turn_on".
Definition SERVICE_TURN_OFF : string := "turn_off".

Section Controller.

(** Whether the service call that was just put on the bus completes; the
    argument is the bus up to and including that call. *)
Variable service_ok : list Event -> bool.

(** [await self.hass.services.async_call(domain, service, data,
    blocking=True)] *)
Definition async_call (dom srv : string) (data : gmap string PyObj) : M unit :=
  emit (ServiceCall dom srv data);;
  fun w => if service_ok (bus w) then (Ok tt, w) else (Raise ServiceError, w).

(** [def _set_motion(self, opening, closing)] *)
Definition _set_motion (opening closing : bool) : M unit :=
  modify (set_motion_flags opening closing).

(** [async def _fire_direction_switch(self, opening)] *)
Definition _fire_direction_switch (opening : bool) : M unit :=
  let* s := get_self in
  let entity := if opening then _open_switch (settings s)
                else _close_switch (settings s) in
  async_call "switch" SERVICE_TURN_ON {[ ATTR_ENTITY_ID := PyStr entity ]}.

(** [async def _cancel_movement(self, update_position)] *)
Definition _cancel_movement (update_position : bool) (now : Q) : M unit :=
  let* s := get_self in
  match _movement_task s with
  | Some t => task_cancel t;; modify (set_movement_task None)
  | None => ret tt
  end;;
  let* s := get_self in
  (if update_position && bool_decide (is_Some (_movement_start s)) then
     let* p := lift (_interpolated_position s now) in
     modify (set_position (_clamp_position p))
   else ret tt);;
  modify (set_movement_start None);;
  modify (set_movement_target None);;
  modify (set_movement_expected_duration None);;
  _set_motion false false.

(** [async def _start_movement(self, target, duration, opening)] *)
Definition _start_movement (target : Z) (duration : Q) (opening : bool)
    (now : Q) : M unit :=
  modify (set_movement_start (Some now));;
  let* s := get_self in
  modify (set_movement_start_position (inject_Z (_position s)));;
  modify (set_movement_target (Some (inject_Z target)));;
  modify (set_movement_expected_duration (Some duration));;
  modify (set_last_direction_opening (Some opening));;
  _set_motion opening (negb opening);;
  let* s := get_self in
  match _movement_task s with
  | Some t => task_cancel t
  | None => ret tt
  end;;
  let* t := create_task in
  modify (set_movement_task (Some t));;
  async_write_ha_state.

(** One step of a stop sequence: the body of [for step in sequence]. *)
Definition run_stop_step (step : StopStep) : M unit :=
  let data := service_data step in
  let data :=
    if truthy (entity_id step)
       && negb (bool_decide (is_Some (data !! ATTR_ENTITY_ID)))
    then <[ ATTR_ENTITY_ID := entity_id step ]> data
    else data in
  async_call (domain step) (service step) data;;
  if Qlt_le_dec 0 (delay step) then asyncio_sleep (delay step) else ret tt.

Fixpoint run_stop_steps (sequence : list StopStep) : M unit :=
  match sequence with
  | [] => ret tt
  | step :: rest => run_stop_step step;; run_stop_steps rest
  end.

(** The sequence [_execute_stop_sequence] selects for a direction. *)
Definition stop_sequence_for (s : LogoCover) (opening : option bool)
  : list StopStep :=
  match opening with
  | Some true => _stop_sequence_up (settings s)
  | Some false => _stop_sequence_down (settings s)
  | None => []
  end.

(** [async def _execute_stop_sequence(self, opening)] *)
Definition _execute_stop_sequence (opening : option bool) : M unit :=
  let* s := get_self in
  let sequence := stop_sequence_for s opening in
  match sequence with
  | [] =>
      async_call "switch" SERVICE_TURN_OFF
        {[ ATTR_ENTITY_ID := PyList [PyStr (_open_switch (settings s));
                                     PyStr (_close_switch (settings s))] ]}
  | _ => run_stop_steps sequence
  end.

(** [async def async_stop_cover(self)] *)
Definition async_stop_cover (now : Q) : M unit :=
  let* s := get_self in
  let direction := _active_or_last_direction s in
  _cancel_movement true now;;
  _execute_stop_sequence direction;;
  _set_motion false false;;
  async_write_ha_state.

(** [async def async_set_cover_position(self, **kwargs)]; [target] is
    [kwargs.get(ATTR_POSITION)], [t_cancel] and [t_start] are the clock
    readings of [_cancel_movement] and of [_start_movement]. *)
Definition async_set_cover_position (target : option Q) (t_cancel t_start : Q)
  : M unit :=
  match target with
  | None => ret tt
  | Some target =>
      let target := _clamp_position target in
      let* s := get_self in
      if (target =? _position s)%Z then async_stop_cover t_cancel
      else
        _cancel_movement true t_cancel;;
        let* s := get_self in
        let direction_open := (_position s <? target)%Z in
        let duration := if direction_open then _open_time (settings s)
                        else _close_time (settings s) in
        _fire_direction_switch direction_open;;
        _start_movement target duration direction_open t_start
  end.

(** [async_open_cover], [async_close_cover], [async_set_shade] *)
Definition async_open_cover (t_cancel t_start : Q) : M unit :=
  async_set_cover_position (Some 100%Q) t_cancel t_start.

Definition async_close_cover (t_cancel t_start : Q) : M unit :=
  async_set_cover_position (Some 0%Q) t_cancel t_start.

Definition async_set_shade (t_cancel t_start : Q) : M unit :=
  let* s := get_self in
  async_set_cover_position (Some (inject_Z (_shade_position (settings s))))
    t_cancel t_start.

(** [async def async_will_remove_from_hass(self)] *)
Definition async_will_remove_from_hass : M unit :=
  _cancel_movement false 0%Q.

(** [async def async_added_to_hass(self)]: [pos] is the restored
    [current_position], [None] without a last state or without the attribute. *)
Definition async_added_to_hass (pos : option Q) : M unit :=
  match pos with
  | Some pos => modify (set_position (_clamp_position pos))
  | None => ret tt
  end.

(** [async def _handle_motion_sensor(self, event)]: [entity] is
    [event.data.get("entity_id")], [new_state] the state string of
    [event.data.get("new_state")]. *)
Definition _handle_motion_sensor (entity : option string)
    (new_state : option string) (t_cancel t_start : Q) : M unit :=
  let* s := get_self in
  if negb (bool_decide (entity = _moving_up_sensor (settings s))
           || bool_decide (entity = _moving_down_sensor (settings s)))
  then ret tt
  else
    let is_on := match new_state with
                 | Some state => String.eqb state "on"
                 | None => false
                 end in
    let opening := bool_decide (entity = _moving_up_sensor (settings s)) in
    (if opening then modify (set_sensor_up_active is_on)
     else modify (set_sensor_down_active is_on));;
    (if is_on then
       _cancel_movement true t_cancel;;
       let target := if opening then 100 else 0 in
       let* s := get_self in
       let duration := if opening then _open_time (settings s)
                       else _close_time (settings s) in
       _start_movement target duration opening t_start
     else
       let* s := get_self in
       if negb (_sensor_up_active s) && negb (_sensor_down_active s)
       then _cancel_movement true t_cancel
       else ret tt);;
    async_write_ha_state.

(** *** The movement task

    [async def _run_movement_task(self)] in three pieces: the two assertions
    the coroutine runs when it is first scheduled, one turn of the
    [while True] loop after the sleep has elapsed, and the code after the
    loop. *)

Definition _run_movement_task_asserts : M unit :=
  let* s := get_self in
  match _movement_target s, _movement_expected_duration s with
  | Some _, Some _ => ret tt
  | _, _ => raise AssertionError
  end.

(** One turn of the loop; [true] when the loop breaks.  [t_interp] is the
    clock reading of [_interpolated_position], [t_elapsed] the one of
    [elapsed = monotonic() - self._movement_start]. *)
Definition _run_movement_task_turn (t_interp t_elapsed : Q) : M bool :=
  let* s := get_self in
  let* new_position := lift (_interpolated_position s t_interp) in
  modify (set_position (_clamp_position new_position));;
  async_write_ha_state;;
  let* s := get_self in
  match _movement_start s with
  | None => ret true
  | Some start =>
      let elapsed := (t_elapsed - start)%Q in
      match _movement_expected_duration s with
      | None => raise TypeError
      | Some duration => ret (Qle_bool duration elapsed)
      end
  end.

Definition _run_movement_task_exit : M unit :=
  let* s := get_self in
  match _movement_target s with
  | None => raise TypeError
  | Some target =>
      modify (set_position (_clamp_position target));;
      (if _sensor_up_active s || _sensor_down_active s
       then _set_motion (_sensor_up_active s) (_sensor_down_active s)
       else _set_motion false false);;
      modify (set_movement_task None);;
      async_write_ha_state
  end.

(** The event loop runs task [tid] up to its next suspension.  A task that
    returns or dies of an exception leaves the loop. *)
Definition run_task (tid : nat) (t_interp t_elapsed : Q) : M unit :=
  fun w =>
    match task_phase tid w with
    | None => (Ok tt, w)
    | Some Created =>
        match _run_movement_task_asserts w with
        | (Ok _, w') =>
            (Ok tt,
             with_tasks (drop_task tid (loop_tasks w') ++ [(tid, Sleeping)])
               w')
        | (Raise e, w') =>
            (Raise e, with_tasks (drop_task tid (loop_tasks w')) w')
        end
    | Some Sleeping =>
        match _run_movement_task_turn t_interp t_elapsed w with
        | (Ok false, w') => (Ok tt, w')
        | (Ok true, w') =>
            let '(r, w'') := _run_movement_task_exit w' in
            (r, with_tasks (drop_task tid (loop_tasks w'')) w'')
        | (Raise e, w') =>
            (Raise e, with_tasks (drop_task tid (loop_tasks w')) w')
        end
    end.

(** *** The transitions of the entity *)

Inductive command : Type :=
| AddedToHass (pos : option Q)
| WillRemoveFromHass
| OpenCover (t_cancel t_start : Q)
| CloseCover (t_cancel t_start : Q)
| SetCoverPosition (target : option Q) (t_cancel t_start : Q)
| StopCover (now : Q)
| SetShade (t_cancel t_start : Q)
| MotionSensor (entity new_state : option string) (t_cancel t_start : Q)
| Tick (tid : nat) (t_interp t_elapsed : Q).

Definition run (c : command) : M unit :=
  match c with
  | AddedToHass pos => async_added_to_hass pos
  | WillRemoveFromHass => async_will_remove_from_hass
  | OpenCover t1 t2 => async_open_cover t1 t2
  | CloseCover t1 t2 => async_close_cover t1 t2
  | SetCoverPosition target t1 t2 => async_set_cover_position target t1 t2
  | StopCover now => async_stop_cover now
  | SetShade t1 t2 => async_set_shade t1 t2
  | MotionSensor entity new_state t1 t2 =>
      _handle_motion_sensor entity new_state t1 t2
  | Tick tid t1 t2 => run_task tid t1 t2
  end.

(** The world after a command, whether it returned or raised. *)
Definition after (c : command) (w : World) : World := snd (run c w).

End Controller.

(** ** Construction *)

(** The merged [entry.data] and [entry.options], already of the types the
    configuration schema coerces them to; an [option] is an optional key. *)
Record EntryData : Type := {
  CONF_NAME : string;
  CONF_OPEN_SWITCH : string;
  CONF_CLOSE_SWITCH : string;
  CONF_MOVING_UP_SENSOR : option string;
  CONF_MOVING_DOWN_SENSOR : option string;
  CONF_OPEN_TIME : Q;
  CONF_CLOSE_TIME : Q;
  CONF_INITIAL_POSITION : option Q;
  CONF_SHADE_POSITION : option Q;
  CONF_STOP_SEQUENCE : option string;
  CONF_STOP_SEQUENCE_UP : option string;
  CONF_STOP_SEQUENCE_DOWN : option string
}.

(** [data.get(key) or None] on a string. *)
Definition or_None (v : option string) : option string :=
  match v with
  | Some s => if String.eqb s "" then None else Some s
  | None => None
  end.

(** [a or b] on lists. *)
Definition list_or {A} (a b : list A) : list A :=
  match a with
  | [] => b
  | _ => a
  end.

Section Construction.

Variable safe_load : string -> option PyObj.
Variable float_of_str : string -> option Q.

(** [def __init__(self, hass, entry)] *)
Definition __init__ (data : EntryData) : outcome LogoCover :=
  let parse v := _parse_stop_sequence safe_load float_of_str (default "" v) in
  let initial := _clamp_position (default 0%Q (CONF_INITIAL_POSITION data)) in
  let shade := _clamp_position (default 40%Q (CONF_SHADE_POSITION data)) in
  match parse (CONF_STOP_SEQUENCE data) with
  | Raise e => Raise e
  | Ok common_stop_seq =>
    match parse (CONF_STOP_SEQUENCE_UP data) with
    | Raise e => Raise e
    | Ok seq_up =>
      match parse (CONF_STOP_SEQUENCE_DOWN data) with
      | Raise e => Raise e
      | Ok seq_down =>
          Ok {| settings :=
                  {| _name := CONF_NAME data;
                     _open_switch := CONF_OPEN_SWITCH data;
                     _close_switch := CONF_CLOSE_SWITCH data;
                     _moving_up_sensor := or_None (CONF_MOVING_UP_SENSOR data);
                     _moving_down_sensor := or_None (CONF_MOVING_DOWN_SENSOR data);
                     _open_time := CONF_OPEN_TIME data;
                     _close_time := CONF_CLOSE_TIME data;
                     _initial_position := initial;
                     _shade_position := shade;
                     _stop_sequence_up := list_or seq_up common_stop_seq;
                     _stop_sequence_down := list_or seq_down common_stop_seq |};
                _position := initial;
                _is_opening := false;
                _is_closing := false;
                _sensor_up_active := false;
                _sensor_down_active := false;
                _movement_task := None;
                _movement_start := None;
                _movement_start_position := inject_Z initial;
                _movement_target := None;
                _movement_expected_duration := None;
                _last_direction_opening := None |}
      end
    end
  end.

End Construction.

(** The world in which a freshly built entity starts. *)
Definition new_world (s : LogoCover) : World :=
  {| self := s; loop_tasks := []; next_task := 0%nat; bus := [] |}.

(** The worlds an entity built from [data] can be in. *)
Inductive reachable (safe_load : string -> option PyObj)
    (float_of_str : string -> option Q) (service_ok : list Event -> bool)
    (data : EntryData) : World -> Prop :=
| reach_new s :
    __init__ safe_load float_of_str data = Ok s ->
    reachable safe_load float_of_str service_ok data (new_world s)
| reach_after c w :
    reachable safe_load float_of_str service_ok data w ->
    reachable safe_load float_of_str service_ok data (after service_ok c w).

(** ** Definitions used by the statements *)



(** The direction resolution as the specification writes it: an active
    sensor first, then an active motion flag, then the last direction. *)
Definition stop_direction_spec (self : LogoCover) : option bool :=
  if _sensor_up_active self then Some true
  else if _sensor_down_active self then Some false
  else if _is_opening self then Some true
  else if _is_closing self then Some false
  else _last_direction_opening self.

(** A command leaves a property of the world standing, whether it returns or
    raises. *)
Definition pres {A} (P : World -> Prop) (m : M A) : Prop :=
  forall w, P w -> P (snd (m w)).

(** Properties of the entity alone. *)
Definition on_self (I : LogoCover -> Prop) : World -> Prop :=
  fun w => I (self w).

Definition position_in_range (s : LogoCover) : Prop :=
  0 <= _position s <= 100.

(** At most one task is alive, and it is the one [_movement_task] holds. *)
Definition task_inv (w : World) : Prop :=
  match loop_tasks w with
  | [] => True
  | [(tid, _)] => _movement_task (self w) = Some tid
  | _ => False
  end.

(** A movement is recorded: [_movement_start is not None]. *)
Definition movement_active (s : LogoCover) : Prop :=
  is_Some (_movement_start s).

(** What holds of the world [w'] after a movement was started at clock
    reading [t_start] from world [w], where the superseded movement stood at
    the real-valued position [pA]. *)
Definition superseded_by_new (pA t_start : Q) (w w' : World) : Prop :=
  _position (self w') = _clamp_position pA
  /\ _movement_start_position (self w') = inject_Z (_clamp_position pA)
  /\ _movement_start (self w') = Some t_start
  /\ _movement_task (self w') = Some (next_task w)
  /\ loop_tasks w' = [(next_task w, Created)].

(** The events a computation put on the bus. *)
Definition sleeps_positive (e : Event) : Prop :=
  match e with
  | Sleep d => (0 < d)%Q
  | _ => True
  end.

(** The coercion of the [delay] field, by cases on the loaded value. *)
Definition delay_of_field (float_of_str : string -> option Q)
    (field : option PyObj) : Q :=
  match field with
  | None => 0%Q
  | Some (PyInt z) => inject_Z z
  | Some (PyFloat q) => q
  | Some (PyBool b) => if b then 1%Q else 0%Q
  | Some (PyStr s) => default 0%Q (float_of_str s)
  | Some PyNone | Some (PyList _) | Some (PyDict _) => 0%Q
  end.

(** The step an element of the loaded list contributes, if any. *)
Definition parsed_of (float_of_str : string -> option Q) (x : PyObj)
  : option StopStep :=
  match parse_step float_of_str x with
  | Parsed s => Some s
  | _ => None
  end.

(** The fallback call of [_execute_stop_sequence]. *)
Definition turn_off_both (s : LogoCover) : Event :=
  ServiceCall "switch" "turn_off"
    {[ "entity_id" := PyList [PyStr (_open_switch (settings s));
                              PyStr (_close_switch (settings s))] ]}.

(** Every event on the bus is in [B] or is not a wait of zero or less. *)
Definition waits_positive_beyond (B : list Event) (w : World) : Prop :=
  forall e, In e (bus w) -> In e B \/ sleeps_positive e.

(** Properties of the set of live tasks alone. *)
Definition on_tasks (T : list (nat * phase) -> Prop) : World -> Prop :=
  fun w => T (loop_tasks w).

(** The entity holds no movement and no task handle, reports no motion, and
    the loop has handed out [n] task identifiers. *)
Definition at_rest (n : nat) (w : World) : Prop :=
  _is_opening (self w) = false
  /\ _is_closing (self w) = false
  /\ _movement_task (self w) = None
  /\ _movement_start (self w) = None
  /\ next_task w = n.

(** The action identifier of a loaded element is text, or is missing or
    falsy: the elements on which the membership test of the parser is
    defined. *)
Definition service_is_text (x : PyObj) : Prop :=
  match x with
  | PyDict m =>
      match dict_get m "service" with
      | PyStr _ => True
      | v => truthy v = false
      end
  | _ => True
  end.

(** The [delay] of a loaded element is not an int beyond the range of a
    float: the elements on which [float(delay_val)] returns or raises one
    of the two exceptions the parser handles. *)
Definition delay_in_float_range (x : PyObj) : Prop :=
  match x with
  | PyDict m =>
      match m !! "delay" with
      | Some (PyInt z) => (Z.abs z < float_overflow_bound)%Z
      | _ => True
      end
  | _ => True
  end.

(** The entity keeps the settings [st], and a recorded duration is one of
    the two configured times. *)
Definition durations_from (st : Settings) (s : LogoCover) : Prop :=
  settings s = st
  /\ match _movement_expected_duration s with
     | Some d => d = _open_time st \/ d = _close_time st
     | None => True
     end.

(** ** Example data *)

(** A shutter with both motion sensors, 20 s each way, no stop sequences. *)
Definition demo_data : EntryData :=
  {| CONF_NAME := "living room";
     CONF_OPEN_SWITCH := "switch.shutter_up";
     CONF_CLOSE_SWITCH := "switch.shutter_down";
     CONF_MOVING_UP_SENSOR := Some "binary_sensor.moving_up";
     CONF_MOVING_DOWN_SENSOR := Some "binary_sensor.moving_down";
     CONF_OPEN_TIME := 20;
     CONF_CLOSE_TIME := 20;
     CONF_INITIAL_POSITION := None;
     CONF_SHADE_POSITION := None;
     CONF_STOP_SEQUENCE := None;
     CONF_STOP_SEQUENCE_UP := None;
     CONF_STOP_SEQUENCE_DOWN := None |}.


Definition raw_negative_delay : string :=
  "[{service: switch.turn_off, entity_id: switch.shutter_up, delay: -5}]".

Definition raw_numeric_service : string :=
  "[{service: switch.turn_off}, {service: 5}, {service: light.turn_on}]".

(** What [yaml.safe_load] returns on the two texts above. *)
Definition demo_safe_load (raw : string) : option PyObj :=
  if String.eqb raw raw_negative_delay then
    Some (PyList [PyDict {[ "service" := PyStr "switch.turn_off";
                            "entity_id" := PyStr "switch.shutter_up";
                            "delay" := PyInt (-5) ]}])
  else if String.eqb raw raw_numeric_service then
    Some (PyList [PyDict {[ "service" := PyStr "switch.turn_off" ]};
                  PyDict {[ "service" := PyInt 5 ]};
                  PyDict {[ "service" := PyStr "light.turn_on" ]}])
  else None.

(** No example converts a string to a float. *)
Definition demo_float_of_str (s : string) : option Q := None.

(** Every service call completes. *)
Definition calls_complete (b : list Event) : bool := true.

(** The entity [__init__] builds from an entry; raises are mapped to [None]. *)
Definition built (data : EntryData) : option LogoCover :=
  match __init__ demo_safe_load demo_float_of_str data with
  | Ok s => Some s
  | Raise _ => None
  end.

(** The world after a list of commands, from a fresh entity. *)
Definition play (data : EntryData) (cs : list command) : option World :=
  (fun s => fold_left (fun w c => after calls_complete c w) cs (new_world s))
    <$> built data.


(** The entity [__init__] builds from [demo_data]. *)
Definition demo_cover : LogoCover :=
  {| settings :=
       {| _name := "living room";
          _open_switch := "switch.shutter_up";
          _close_switch := "switch.shutter_down";
          _moving_up_sensor := Some "binary_sensor.moving_up";
          _moving_down_sensor := Some "binary_sensor.moving_down";
          _open_time := 20;
          _close_time := 20;
          _initial_position := 0;
          _shade_position := 40;
          _stop_sequence_up := [];
          _stop_sequence_down := [] |};
     _position := 0;
     _is_opening := false;
     _is_closing := false;
     _sensor_up_active := false;
     _sensor_down_active := false;
     _movement_task := None;
     _movement_start := None;
     _movement_start_position := 0;
     _movement_target := None;
     _movement_expected_duration := None;
     _last_direction_opening := None |}.

(** [set_position(100)] on the fresh entity, clock at 10: movement A. *)
Definition world_opening : World :=
  after calls_complete (SetCoverPosition (Some 100%Q) 10 10)
    (new_world demo_cover).

(** A position command 0.25 s into movement A: movement B. *)
Definition world_superseded : World :=
  after calls_complete (SetCoverPosition (Some 50%Q) (41 # 4) (41 # 4))
    world_opening.

(** The down sensor reports motion, then the user asks for 100. *)
Definition world_down_sensor_then_open : World :=
  after calls_complete (SetCoverPosition (Some 100%Q) 1 1)
    (after calls_complete
       (MotionSensor (Some "binary_sensor.moving_down") (Some "on") 0 0)
       (new_world demo_cover)).



(** The step [raw_negative_delay] parses to. *)
Definition negative_delay_step : StopStep :=
  {| domain := "switch";
     service := "turn_off";
     entity_id := PyStr "switch.shutter_up";
     service_data := ∅;
     delay := inject_Z (-5) |}.
(** ** Definitions used by the further properties *)

(** [vol.Range(min=lo, max=hi)] after [vol.Coerce(float)]. *)
Definition vol_Range (lo hi : Q) (v : Q) : option Q :=
  if Qle_bool lo v && Qle_bool v hi then Some v else None.

(** The validator of [CONF_INITIAL_POSITION] and of [CONF_SHADE_POSITION]. *)
Definition schema_position (v : Q) : option Q := vol_Range 0 100 v.

(** The elements of a loaded list the parser skips, among those whose
    action identifier is text, missing or falsy. *)
Definition skipped (x : PyObj) : bool :=
  match x with
  | PyDict m =>
      match dict_get m "service" with
      | PyStr s => negb (has_dot s)
      | _ => true
      end
  | _ => true
  end.

(** A sequence of five elements: a step with a delay of 2, a text, a
    mapping whose action has no dot, a mapping without an action, and a step
    whose delay is not a number. *)
Definition raw_mixed : string :=
  "[{service: cover.stop_cover, delay: 2}, wait, {service: stop}, {entity_id: switch.shutter_up}, {service: switch.turn_off, delay: soon}]".

Definition mixed_loaded : list PyObj :=
  [PyDict {[ "service" := PyStr "cover.stop_cover"; "delay" := PyInt 2 ]};
   PyStr "wait";
   PyDict {[ "service" := PyStr "stop" ]};
   PyDict {[ "entity_id" := PyStr "switch.shutter_up" ]};
   PyDict {[ "service" := PyStr "switch.turn_off";
             "delay" := PyStr "soon" ]}].

(** What [yaml.safe_load] returns on [raw_mixed] and on the texts above. *)
Definition mixed_safe_load (raw : string) : option PyObj :=
  if String.eqb raw raw_mixed then Some (PyList mixed_loaded)
  else demo_safe_load raw.

(** The two steps [raw_mixed] parses to. *)
Definition pause_step : StopStep :=
  {| domain := "cover";
     service := "stop_cover";
     entity_id := PyNone;
     service_data := ∅;
     delay := inject_Z 2 |}.

Definition plain_turn_off_step : StopStep :=
  {| domain := "switch";
     service := "turn_off";
     entity_id := PyNone;
     service_data := ∅;
     delay := 0 |}.

(** An entry with a shared stop sequence, no sequence for opening and a
    sequence of its own for closing. *)
Definition shared_and_down_data : EntryData :=
  {| CONF_NAME := "living room";
     CONF_OPEN_SWITCH := "switch.shutter_up";
     CONF_CLOSE_SWITCH := "switch.shutter_down";
     CONF_MOVING_UP_SENSOR := Some "binary_sensor.moving_up";
     CONF_MOVING_DOWN_SENSOR := Some "binary_sensor.moving_down";
     CONF_OPEN_TIME := 20;
     CONF_CLOSE_TIME := 20;
     CONF_INITIAL_POSITION := None;
     CONF_SHADE_POSITION := None;
     CONF_STOP_SEQUENCE := Some raw_negative_delay;
     CONF_STOP_SEQUENCE_UP := None;
     CONF_STOP_SEQUENCE_DOWN := Some raw_mixed |}.

(** The entity [__init__] builds from [shared_and_down_data]. *)
Definition shared_and_down_cover : LogoCover :=
  {| settings :=
       {| _name := "living room";
          _open_switch := "switch.shutter_up";
          _close_switch := "switch.shutter_down";
          _moving_up_sensor := Some "binary_sensor.moving_up";
          _moving_down_sensor := Some "binary_sensor.moving_down";
          _open_time := 20;
          _close_time := 20;
          _initial_position := 0;
          _shade_position := 40;
          _stop_sequence_up := [negative_delay_step];
          _stop_sequence_down := [pause_step; plain_turn_off_step] |};
     _position := 0;
     _is_opening := false;
     _is_closing := false;
     _sensor_up_active := false;
     _sensor_down_active := false;
     _movement_task := None;
     _movement_start := None;
     _movement_start_position := 0;
     _movement_target := None;
     _movement_expected_duration := None;
     _last_direction_opening := None |}.

(** That entity sent to 100, clock at 10. *)
Definition world_shared_opening : World :=
  after calls_complete (SetCoverPosition (Some 100%Q) 10 10)
    (new_world shared_and_down_cover).

(** The service calls on a stretch of the bus, as (domain, service). *)
Definition calls_of (evs : list Event) : list (string * string) :=
  omap (fun e => match e with
                 | ServiceCall d s _ => Some (d, s)
                 | _ => None
                 end) evs.

(** The waits on a stretch of the bus. *)
Definition sleeps_of (evs : list Event) : list Q :=
  omap (fun e => match e with
                 | Sleep d => Some d
                 | _ => None
                 end) evs.

(** The delays of a sequence that make the executor wait. *)
Definition positive_delays (sequence : list StopStep) : list Q :=
  List.filter (fun d => if Qlt_le_dec 0 d then true else false)
    (map delay sequence).

(** No service call completes. *)
Definition calls_fail (b : list Event) : bool := false.

(** The position [_cancel_movement(update_position=True)] commits at a clock
    reading at which the estimator returns [pA]. *)
Definition frozen_position (s : LogoCover) (pA : Q) : Z :=
  if bool_decide (is_Some (_movement_start s)) then _clamp_position pA
  else _position s.

(** The entity [s] is the entity [s0] brought to a standstill at position
    [p]: nothing is recorded of a movement, no motion is reported, and the
    settings, the sensor states and the remembered direction are those of
    [s0]. *)
Definition stationary_at (p : Z) (s0 s : LogoCover) : Prop :=
  _position s = p
  /\ _is_opening s = false
  /\ _is_closing s = false
  /\ _movement_task s = None
  /\ _movement_start s = None
  /\ _movement_target s = None
  /\ _movement_expected_duration s = None
  /\ settings s = settings s0
  /\ _sensor_up_active s = _sensor_up_active s0
  /\ _sensor_down_active s = _sensor_down_active s0
  /\ _last_direction_opening s = _last_direction_opening s0.

(** The entity [s] is the entity [s0] set moving by [_start_movement] with
    task [tid]. *)
Definition moving_toward (target : Z) (duration : Q) (opening : bool)
    (now : Q) (tid : nat) (s0 s : LogoCover) : Prop :=
  _position s = _position s0
  /\ _movement_start_position s = inject_Z (_position s0)
  /\ _movement_start s = Some now
  /\ _movement_target s = Some (inject_Z target)
  /\ _movement_expected_duration s = Some duration
  /\ _last_direction_opening s = Some opening
  /\ _is_opening s = opening
  /\ _is_closing s = negb opening
  /\ _movement_task s = Some tid
  /\ settings s = settings s0
  /\ _sensor_up_active s = _sensor_up_active s0
  /\ _sensor_down_active s = _sensor_down_active s0.

(** The call of [_fire_direction_switch]. *)
Definition turn_on_switch (s : LogoCover) (opening : bool) : Event :=
  ServiceCall "switch" "turn_on"
    {[ "entity_id" := PyStr (if opening then _open_switch (settings s)
                             else _close_switch (settings s)) ]}.

(** What [async_write_ha_state] publishes of an entity. *)
Definition published (s : LogoCover) : Event :=
  WriteHaState (_position s) (_is_opening s) (_is_closing s).

(** The up sensor reports motion on the fresh entity, clock at 0. *)
Definition world_up_tracking : World :=
  after calls_complete
    (MotionSensor (Some "binary_sensor.moving_up") (Some "on") 0 0)
    (new_world demo_cover).


(** Movement A with its task suspended in its first sleep. *)
Definition world_opening_sleeping : World :=
  after calls_complete (Tick 0 10 10) world_opening.

(** A publication carries a position of 0..100. *)
Definition publishes_in_range (e : Event) : Prop :=
  match e with
  | WriteHaState p _ _ => 0 <= p <= 100
  | _ => True
  end.

(** The committed position is in range and so is every position published
    so far. *)
Definition well_published (w : World) : Prop :=
  position_in_range (self w) /\ Forall publishes_in_range (bus w).

(** A movement is recorded in full. *)
Definition movement_recorded (s : LogoCover) : Prop :=
  is_Some (_movement_start s)
  /\ is_Some (_movement_target s)
  /\ is_Some (_movement_expected_duration s).

(** At most one task is alive, it is the one the entity holds, and while it
    is alive the movement it tracks is recorded. *)
Definition live_task_has_movement (w : World) : Prop :=
  task_inv w /\ (loop_tasks w <> [] -> movement_recorded (self w)).

(** The world [w] has the live tasks, the task handle and the recorded
    movement of [w0]. *)
Definition same_movement (w0 w : World) : Prop :=
  loop_tasks w = loop_tasks w0
  /\ _movement_task (self w) = _movement_task (self w0)
  /\ _movement_start (self w) = _movement_start (self w0)
  /\ _movement_target (self w) = _movement_target (self w0)
  /\ _movement_expected_duration (self w)
     = _movement_expected_duration (self w0).

(** A command returned, or it raised the failure of a service call, which
    is then the last thing on the bus. *)
Definition only_service_failure (service_ok : list Event -> bool)
    (r : outcome unit) (w' : World) : Prop :=
  r = Ok tt \/ (r = Raise ServiceError /\ service_ok (bus w') = false).
(** * Properties *)

(** ** The motion estimator *)

Section Estimator.
#[local] Open Scope Q_scope.

Lemma ratio_nonneg (d e : Q) : 0 < d -> 0 <= e -> 0 <= e / d.
Proof.
  intros Hd He. apply Qle_shift_div_l; [exact Hd | lra].
Qed.


Lemma ratio_ge_1 (d e : Q) : 0 < d -> d <= e -> 1 <= e / d.
Proof.
  intros Hd He. apply Qle_shift_div_l; [exact Hd | lra].
Qed.

Lemma progress_range (r : Q) : 0 <= r -> 0 <= Qmin 1 r <= 1.
Proof.
  intros Hr. destruct (Q.min_spec 1 r) as [[_ E] | [_ E]]; rewrite E.
  - lra.
  - split; [exact Hr |].
    pose proof (Q.le_min_l 1 r) as L. rewrite E in L. exact L.
Qed.


Lemma scale_between (s t p : Q) :
  0 <= p <= 1 -> Qmin s t <= s + (t - s) * p <= Qmax s t.
Proof.
  intros [Hp0 Hp1].
  destruct (Qlt_le_dec s t) as [Hlt | Hle].
  - rewrite (Q.min_l s t), (Q.max_r s t) by lra. split; nra.
  - rewrite (Q.min_r s t), (Q.max_l s t) by lra. split; nra.
Qed.


(** With a duration other than zero the estimator returns the value of its
    last line. *)
Lemma interpolated_value (self : LogoCover) (b t d now : Q) :
  _movement_start self = Some b ->
  _movement_target self = Some t ->
  _movement_expected_duration self = Some d ->
  ~ d == 0 ->
  _interpolated_position self now =
    Ok (_movement_start_position self
        + (t - _movement_start_position self) * Qmin 1 ((now - b) / d)).
Proof.
  intros Hb Ht Hd Hnz. unfold _interpolated_position, py_div.
  rewrite Hb, Ht, Hd.
  destruct (Qeq_bool d 0) eqn:E; [| reflexivity].
  apply Qeq_bool_iff in E. contradiction.
Qed.

(** Without a recorded movement the estimator returns the committed
    position. *)
Lemma interpolated_idle (self : LogoCover) (now : Q) :
  _movement_start self = None ->
  _interpolated_position self now = Ok (inject_Z (_position self)).
Proof. intros H. unfold _interpolated_position. rewrite H. reflexivity. Qed.





End Estimator.

(** The example entity is the one [__init__] builds. *)
Lemma demo_cover_built : built demo_data = Some demo_cover.
Proof. vm_compute. reflexivity. Qed.






(** ** Invariants of monadic code *)

Lemma pres_ret {A} (P : World -> Prop) (a : A) : pres P (ret a).
Proof. intros w H. exact H. Qed.

Lemma pres_raise {A} (P : World -> Prop) (e : exn) : pres P (@raise A e).
Proof. intros w H. exact H. Qed.

Lemma pres_lift {A} (P : World -> Prop) (o : outcome A) : pres P (lift o).
Proof. intros w H. exact H. Qed.

Lemma pres_get_self (P : World -> Prop) : pres P get_self.
Proof. intros w H. exact H. Qed.

Lemma pres_bind {A B} (P : World -> Prop) (m : M A) (k : A -> M B) :
  pres P m -> (forall a, pres P (k a)) -> pres P (bind m k).
Proof.
  intros Hm Hk w H. unfold bind. specialize (Hm w H).
  destruct (m w) as [[a | e] w']; simpl in *.
  - apply Hk, Hm.
  - exact Hm.
Qed.

Lemma pres_modify_self (I : LogoCover -> Prop) (f : LogoCover -> LogoCover) :
  (forall s, I s -> I (f s)) -> pres (on_self I) (modify f).
Proof. intros Hf w H. apply Hf, H. Qed.

Lemma pres_emit_self (I : LogoCover -> Prop) (e : Event) :
  pres (on_self I) (emit e).
Proof. intros w H. exact H. Qed.

Lemma pres_task_cancel_self (I : LogoCover -> Prop) (tid : nat) :
  pres (on_self I) (task_cancel tid).
Proof. intros w H. exact H. Qed.

Lemma pres_create_task_self (I : LogoCover -> Prop) :
  pres (on_self I) create_task.
Proof. intros w H. exact H. Qed.

Lemma pres_async_call_self (I : LogoCover -> Prop) service_ok dom srv data :
  pres (on_self I) (async_call service_ok dom srv data).
Proof.
  unfold async_call. apply pres_bind; [apply pres_emit_self | intros _].
  intros w H. destruct (service_ok (bus w)); exact H.
Qed.

(** One step through a computation: a primitive, a bind, or a case
    distinction. *)
Ltac pres_step :=
  first
    [ simple apply pres_ret | simple apply pres_raise | simple apply pres_lift
    | simple apply pres_get_self
    | simple apply pres_emit_self | simple apply pres_task_cancel_self
    | simple apply pres_create_task_self | simple apply pres_async_call_self
    | simple apply pres_bind; [| intros ?]
    | match goal with
      | |- pres _ (match ?x with _ => _ end) => destruct x
      end ].

Lemma pres_modify_tasks (T : list (nat * phase) -> Prop)
    (f : LogoCover -> LogoCover) :
  pres (on_tasks T) (modify f).
Proof. intros w H. exact H. Qed.

Lemma pres_emit_tasks (T : list (nat * phase) -> Prop) (e : Event) :
  pres (on_tasks T) (emit e).
Proof. intros w H. exact H. Qed.

Lemma pres_async_call_tasks (T : list (nat * phase) -> Prop)
    service_ok dom srv data :
  pres (on_tasks T) (async_call service_ok dom srv data).
Proof.
  unfold async_call. apply pres_bind; [apply pres_emit_tasks | intros _].
  intros w H. destruct (service_ok (bus w)); exact H.
Qed.

Ltac frame_step :=
  first
    [ simple apply pres_modify_tasks | simple apply pres_emit_tasks
    | simple apply pres_async_call_tasks | pres_step ].

(** ** The stop-sequence parser *)

Section ParserProperties.

Variable safe_load : string -> option PyObj.
Variable float_of_str : string -> option Q.

(** The guarded [float(delay_val)], when it returns, by cases on the
    field. *)
Lemma step_delay_by_cases (step : gmap string PyObj) (d : Q) :
  step_delay float_of_str step = Ok d ->
  d = delay_of_field float_of_str (step !! "delay").
Proof.
  unfold step_delay, delay_of_field, py_float.
  destruct (step !! "delay") as [[ | b | z | q | s | l | m] |]; simpl;
    try (intros [= <-]; reflexivity).
  - destruct (Z.abs z <? float_overflow_bound)%Z;
      [intros [= <-]; reflexivity | discriminate].
  - destruct (float_of_str s); intros [= <-]; reflexivity.
Qed.

(** The conversion of the delay leaves the handler only with
    [OverflowError], on an int beyond the range of a float. *)
Lemma step_delay_raises (step : gmap string PyObj) (e : exn) :
  step_delay float_of_str step = Raise e ->
  e = OverflowError
  /\ exists z, step !! "delay" = Some (PyInt z)
               /\ (float_overflow_bound <= Z.abs z)%Z.
Proof.
  unfold step_delay, py_float.
  destruct (step !! "delay") as [[ | b | z | q | s | l | m] |]; simpl;
    try discriminate.
  - destruct (Z.abs z <? float_overflow_bound)%Z eqn:E; [discriminate |].
    intros [= <-]. split; [reflexivity |].
    exists z. split; [reflexivity |]. apply Z.ltb_ge, E.
  - destruct (float_of_str s); discriminate.
Qed.

(** A delay of [2^1024] is beyond the range of a float: the conversion
    raises [OverflowError] out of the loop body. *)
Lemma huge_delay_aborts_step :
  parse_step float_of_str
    (PyDict {[ "service" := PyStr "switch.turn_off";
               "delay" := PyInt (2 ^ 1024) ]})
  = Failed OverflowError.
Proof. vm_compute. reflexivity. Qed.

(** A parsed step carries the coerced delay of the mapping it comes from. *)
Lemma parse_step_delay (x : PyObj) (st : StopStep) :
  parse_step float_of_str x = Parsed st ->
  exists m, x = PyDict m
            /\ delay st = delay_of_field float_of_str (m !! "delay").
Proof.
  destruct x as [ | b | z | q | s | l | m]; simpl; try discriminate.
  intros H. exists m. split; [reflexivity |].
  destruct (negb (truthy (dict_get m "service"))); [discriminate |].
  destruct (not_contains_dot (dict_get m "service")) as [[|] | e];
    try discriminate.
  destruct (dict_get m "service"); try discriminate.
  destruct (split_dot s) as [a r].
  destruct (step_delay float_of_str m) as [d | e] eqn:Ed; [| discriminate].
  injection H as <-. simpl. apply step_delay_by_cases, Ed.
Qed.

(** The loop appends, in order, the steps of the elements it does not skip. *)
Lemma parse_steps_ok (loaded : list PyObj) (acc steps : list StopStep) :
  parse_steps float_of_str loaded acc = Ok steps ->
  steps = (acc ++ omap (parsed_of float_of_str) loaded)%list.
Proof.
  revert acc. induction loaded as [| x rest IH]; intros acc; simpl.
  - intros [= <-]. rewrite app_nil_r. reflexivity.
  - unfold parsed_of at 1.
    destruct (parse_step float_of_str x) as [ | s | e]; intros H.
    + apply IH, H.
    + rewrite (IH _ H), <- app_assoc. reflexivity.
    + discriminate.
Qed.

(** When no element makes the loop body raise, the parser returns. *)
Lemma parse_steps_total (loaded : list PyObj) (acc : list StopStep) :
  Forall (fun x => forall e, parse_step float_of_str x <> Failed e) loaded ->
  parse_steps float_of_str loaded acc
  = Ok (acc ++ omap (parsed_of float_of_str) loaded)%list.
Proof.
  intros HF. revert acc.
  induction HF as [| x rest Hx _ IH]; intros acc; simpl.
  - rewrite app_nil_r. reflexivity.
  - unfold parsed_of at 1.
    destruct (parse_step float_of_str x) as [ | s | e].
    + apply IH.
    + rewrite IH, <- app_assoc. reflexivity.
    + destruct (Hx e). reflexivity.
Qed.

(** With a delay that [float] converts, [step_delay] returns. *)
Lemma step_delay_in_range (m : gmap string PyObj) :
  delay_in_float_range (PyDict m) ->
  exists d, step_delay float_of_str m = Ok d.
Proof.
  unfold delay_in_float_range, step_delay, py_float.
  destruct (m !! "delay") as [[ | b | z | q | s | l | m'] |]; simpl;
    intros H; try (eexists; reflexivity).
  - apply Z.ltb_lt in H. rewrite H. eexists; reflexivity.
  - destruct (float_of_str s); eexists; reflexivity.
Qed.

(** An element whose action identifier is text (or missing, or falsy) and
    whose delay [float] converts is parsed or skipped; the loop body does
    not raise on it. *)
Lemma parse_step_text_total (x : PyObj) (e : exn) :
  service_is_text x -> delay_in_float_range x ->
  parse_step float_of_str x <> Failed e.
Proof.
  destruct x as [ | b | z | q | s | l | m]; try (simpl; discriminate).
  intros Hs Hd. destruct (step_delay_in_range m Hd) as [d Ed].
  revert Hs. simpl.
  destruct (dict_get m "service") as [ | b | z | q | s | l | m'] eqn:E;
    simpl; try (intros ->; simpl; discriminate); try discriminate.
  intros _. destruct (negb (String.eqb s "")); simpl; [| discriminate].
  destruct (has_dot s); simpl; [| discriminate].
  destruct (split_dot s). rewrite Ed. discriminate.
Qed.

(** On a list of such elements the parser returns the steps of the elements
    it does not skip, in their order. *)
Lemma parse_steps_text_total (loaded : list PyObj) :
  Forall service_is_text loaded ->
  Forall delay_in_float_range loaded ->
  parse_steps float_of_str loaded []
  = Ok (omap (parsed_of float_of_str) loaded).
Proof.
  intros H Hd. apply (parse_steps_total loaded []).
  apply Forall_forall. intros x Hx e.
  apply parse_step_text_total.
  - apply (proj1 (Forall_forall _ _) H x Hx).
  - apply (proj1 (Forall_forall _ _) Hd x Hx).
Qed.

Lemma parsed_steps_from_list (raw : string) (steps : list StopStep) :
  _parse_stop_sequence safe_load float_of_str raw = Ok steps ->
  steps = []
  \/ exists loaded, safe_load raw = Some (PyList loaded)
                    /\ steps = omap (parsed_of float_of_str) loaded.
Proof.
  unfold _parse_stop_sequence.
  destruct (String.eqb raw "" || is_blank raw); [intros [= <-]; left; reflexivity |].
  destruct (safe_load raw) as [[ | b | z | q | s | l | m] |];
    try (intros [= <-]; left; reflexivity).
  intros H. right. exists l. split; [reflexivity |].
  apply parse_steps_ok in H. exact H.
Qed.

End ParserProperties.

(** ** The stop-sequence executor *)

Section ExecutorProperties.

Variable service_ok : list Event -> bool.

Lemma waits_emit (B : list Event) (e : Event) :
  sleeps_positive e -> pres (waits_positive_beyond B) (emit e).
Proof.
  intros He w H x Hx. simpl in Hx. apply in_app_or in Hx.
  destruct Hx as [Hx | [<- | []]]; [apply H, Hx | right; exact He].
Qed.

Lemma waits_async_call (B : list Event) dom srv data :
  pres (waits_positive_beyond B) (async_call service_ok dom srv data).
Proof.
  unfold async_call. apply pres_bind; [apply waits_emit; exact I | intros _].
  intros w H. destruct (service_ok (bus w)); exact H.
Qed.

Lemma waits_run_stop_step (B : list Event) (step : StopStep) :
  pres (waits_positive_beyond B) (run_stop_step service_ok step).
Proof.
  unfold run_stop_step. apply pres_bind; [apply waits_async_call | intros _].
  destruct (Qlt_le_dec 0 (delay step)) as [Hpos | _].
  - apply waits_emit. exact Hpos.
  - apply pres_ret.
Qed.

Lemma waits_run_stop_steps (B : list Event) (sequence : list StopStep) :
  pres (waits_positive_beyond B) (run_stop_steps service_ok sequence).
Proof.
  induction sequence as [| step rest IH]; simpl.
  - apply pres_ret.
  - apply pres_bind; [apply waits_run_stop_step | intros _; exact IH].
Qed.

End ExecutorProperties.

(** C5 (amended).  Every StopStep the parser produces comes from a mapping
    of the loaded list and carries that mapping's [delay] field coerced to a
    float, 0 when the field is absent or cannot be coerced; the value is not
    made non-negative.  The executor waits after a step only for a delay
    greater than 0. *)
Theorem parsed_delay_is_coerced_field
    (safe_load : string -> option PyObj) (float_of_str : string -> option Q)
    (raw : string) (steps : list StopStep) :
  _parse_stop_sequence safe_load float_of_str raw = Ok steps ->
  Forall (fun st =>
            exists loaded m,
              safe_load raw = Some (PyList loaded)
              /\ In (PyDict m) loaded
              /\ parse_step float_of_str (PyDict m) = Parsed st
              /\ delay st = delay_of_field float_of_str (m !! "delay"))
         steps
  /\ forall service_ok w e,
       In e (bus (snd (run_stop_steps service_ok steps w))) ->
       In e (bus w) \/ sleeps_positive e.
Proof.
  intros H. split.
  - destruct (parsed_steps_from_list _ _ _ _ H) as [-> | (loaded & Hl & ->)];
      [constructor |].
    apply Forall_forall. intros st Hst.
    apply list_elem_of_omap in Hst.
    destruct Hst as (x & Hx & Hp).
    unfold parsed_of in Hp.
    destruct (parse_step float_of_str x) as [ | s | e] eqn:E; try discriminate.
    injection Hp as ->.
    destruct (parse_step_delay _ _ _ E) as (m & -> & Hd).
    exists loaded, m. repeat split; try assumption.
    apply list_elem_of_In. exact Hx.
  - intros service_ok w e.
    apply (waits_run_stop_steps service_ok (bus w) steps w).
    intros x Hx. left. exact Hx.
Qed.

Lemma negative_delay_parsed :
  _parse_stop_sequence demo_safe_load demo_float_of_str raw_negative_delay
  = Ok [negative_delay_step].
Proof. vm_compute. reflexivity. Qed.

Lemma parsed_delay_is_coerced_field_witness :
  Forall (fun st =>
            exists loaded m,
              demo_safe_load raw_negative_delay = Some (PyList loaded)
              /\ In (PyDict m) loaded
              /\ parse_step demo_float_of_str (PyDict m) = Parsed st
              /\ delay st = delay_of_field demo_float_of_str (m !! "delay"))
         [negative_delay_step]
  /\ forall service_ok w e,
       In e (bus (snd (run_stop_steps service_ok [negative_delay_step] w))) ->
       In e (bus w) \/ sleeps_positive e.
Proof.
  apply (parsed_delay_is_coerced_field demo_safe_load demo_float_of_str
           raw_negative_delay [negative_delay_step]).
  vm_compute. reflexivity.
Defined.

(** C5, as stated, fails: a step written with [delay: -5] is parsed to a
    StopStep whose delay is -5. *)
Lemma negative_delay_is_kept :
  exists steps,
    _parse_stop_sequence demo_safe_load demo_float_of_str raw_negative_delay
    = Ok steps
    /\ ~ Forall (fun st => (0 <= delay st)%Q) steps.
Proof.
  exists [negative_delay_step]. split; [apply negative_delay_parsed |].
  intros H. apply Forall_inv in H. vm_compute in H. apply H. reflexivity.
Qed.

(** C9 at a sequence of three steps whose second step has the action
    identifier 5: the membership test on the integer raises [TypeError] out
    of the parser, so no step is returned, although the two other elements
    are well formed and parse to two steps on their own. *)
Theorem numeric_service_aborts_parse :
  _parse_stop_sequence demo_safe_load demo_float_of_str raw_numeric_service
  = Raise TypeError
  /\ exists loaded x1 x2 x3 s1 s3,
       demo_safe_load raw_numeric_service = Some (PyList loaded)
       /\ loaded = [x1; x2; x3]
       /\ parse_step demo_float_of_str x1 = Parsed s1
       /\ parse_step demo_float_of_str x2 = Failed TypeError
       /\ parse_step demo_float_of_str x3 = Parsed s3
       /\ parse_steps demo_float_of_str [x1; x3] [] = Ok [s1; s3].
Proof.
  split; [vm_compute; reflexivity |].
  do 6 eexists.
  split; [vm_compute; reflexivity |].
  split; [reflexivity |].
  repeat split; vm_compute; reflexivity.
Qed.

(** ** The committed position stays in range *)

Lemma _clamp_position_range (value : Q) : 0 <= _clamp_position value <= 100.
Proof. unfold _clamp_position. lia. Qed.

Lemma range_commit (v : Q) :
  pres (on_self position_in_range) (modify (set_position (_clamp_position v))).
Proof. apply pres_modify_self. intros s _. apply _clamp_position_range. Qed.

Lemma range_modify (f : LogoCover -> LogoCover) :
  (forall s, _position (f s) = _position s) ->
  pres (on_self position_in_range) (modify f).
Proof.
  intros Hf. apply pres_modify_self. intros s H.
  unfold position_in_range. rewrite Hf. exact H.
Qed.

Ltac range_step :=
  first
    [ simple apply range_commit
    | simple apply range_modify; intros ?; reflexivity
    | pres_step ].

Section PositionRange.

Variable service_ok : list Event -> bool.

Lemma range_async_write_ha_state :
  pres (on_self position_in_range) async_write_ha_state.
Proof. unfold async_write_ha_state. repeat range_step. Qed.

Lemma range__set_motion (opening closing : bool) :
  pres (on_self position_in_range) (_set_motion opening closing).
Proof. unfold _set_motion. repeat range_step. Qed.

Lemma range__fire_direction_switch (opening : bool) :
  pres (on_self position_in_range) (_fire_direction_switch service_ok opening).
Proof. unfold _fire_direction_switch. repeat range_step. Qed.

Lemma range__cancel_movement (update_position : bool) (now : Q) :
  pres (on_self position_in_range) (_cancel_movement update_position now).
Proof.
  unfold _cancel_movement.
  repeat (simple apply range__set_motion || range_step).
Qed.

Lemma range__start_movement (target : Z) (duration : Q) (opening : bool)
    (now : Q) :
  pres (on_self position_in_range)
    (_start_movement target duration opening now).
Proof.
  unfold _start_movement.
  repeat (simple apply range__set_motion
          || simple apply range_async_write_ha_state
          || range_step).
Qed.

Lemma range_run_stop_steps (sequence : list StopStep) :
  pres (on_self position_in_range) (run_stop_steps service_ok sequence).
Proof.
  induction sequence as [| step rest IH]; simpl.
  - apply pres_ret.
  - apply pres_bind; [| intros _; exact IH].
    unfold run_stop_step, asyncio_sleep. repeat range_step.
Qed.

Lemma range__execute_stop_sequence (opening : option bool) :
  pres (on_self position_in_range) (_execute_stop_sequence service_ok opening).
Proof.
  unfold _execute_stop_sequence. apply pres_bind; [apply pres_get_self |].
  intros s. destruct (stop_sequence_for s opening) eqn:E.
  - apply pres_async_call_self.
  - apply range_run_stop_steps.
Qed.

Lemma range_async_stop_cover (now : Q) :
  pres (on_self position_in_range) (async_stop_cover service_ok now).
Proof.
  unfold async_stop_cover.
  repeat (simple apply range__set_motion
          || simple apply range_async_write_ha_state
          || simple apply range__cancel_movement
          || simple apply range__execute_stop_sequence || range_step).
Qed.

Lemma range_async_set_cover_position (target : option Q) (t1 t2 : Q) :
  pres (on_self position_in_range)
    (async_set_cover_position service_ok target t1 t2).
Proof.
  unfold async_set_cover_position.
  repeat (simple apply range_async_stop_cover
          || simple apply range__cancel_movement
          || simple apply range__fire_direction_switch
          || simple apply range__start_movement || range_step).
Qed.

Lemma range__handle_motion_sensor (entity new_state : option string)
    (t1 t2 : Q) :
  pres (on_self position_in_range)
    (_handle_motion_sensor entity new_state t1 t2).
Proof.
  unfold _handle_motion_sensor. cbv zeta.
  repeat (simple apply range_async_write_ha_state
          || simple apply range__cancel_movement
          || simple apply range__start_movement || range_step).
Qed.

Lemma range__run_movement_task_turn (t1 t2 : Q) :
  pres (on_self position_in_range) (_run_movement_task_turn t1 t2).
Proof.
  unfold _run_movement_task_turn.
  repeat (simple apply range_async_write_ha_state || range_step).
Qed.

Lemma range__run_movement_task_exit :
  pres (on_self position_in_range) _run_movement_task_exit.
Proof.
  unfold _run_movement_task_exit.
  repeat (simple apply range_async_write_ha_state
          || simple apply range__set_motion
          || range_step).
Qed.

Lemma range_run_task (tid : nat) (t1 t2 : Q) :
  pres (on_self position_in_range) (run_task tid t1 t2).
Proof.
  intros w H. unfold run_task.
  destruct (task_phase tid w) as [[|] |]; [| | exact H].
  - destruct (_run_movement_task_asserts w) as [[u | e] w'] eqn:E;
      unfold _run_movement_task_asserts, bind, get_self in E;
      destruct (_movement_target (self w)),
        (_movement_expected_duration (self w));
      injection E as _ <-; exact H.
  - pose proof (range__run_movement_task_turn t1 t2 w H) as Ht.
    destruct (_run_movement_task_turn t1 t2 w) as [[[|] | e] w']; simpl in *.
    + pose proof (range__run_movement_task_exit w' Ht) as Hx.
      destruct (_run_movement_task_exit w') as [r w'']. exact Hx.
    + exact Ht.
    + exact Ht.
Qed.

Lemma range_run (c : command) :
  pres (on_self position_in_range) (run service_ok c).
Proof.
  destruct c; simpl.
  - unfold async_added_to_hass. repeat range_step.
  - apply range__cancel_movement.
  - apply range_async_set_cover_position.
  - apply range_async_set_cover_position.
  - apply range_async_set_cover_position.
  - apply range_async_stop_cover.
  - unfold async_set_shade. apply pres_bind; [apply pres_get_self | intros s].
    apply range_async_set_cover_position.
  - apply range__handle_motion_sensor.
  - apply range_run_task.
Qed.

End PositionRange.

Lemma range___init__ safe_load float_of_str (data : EntryData) (s : LogoCover) :
  __init__ safe_load float_of_str data = Ok s -> position_in_range s.
Proof.
  unfold __init__.
  destruct (_parse_stop_sequence _ _ (default "" (CONF_STOP_SEQUENCE data)));
    [| discriminate].
  destruct (_parse_stop_sequence _ _ (default "" (CONF_STOP_SEQUENCE_UP data)));
    [| discriminate].
  destruct (_parse_stop_sequence _ _ (default "" (CONF_STOP_SEQUENCE_DOWN data)));
    [| discriminate].
  intros [= <-]. apply _clamp_position_range.
Qed.

(** C3.  In every world the entity can be in (after construction, state
    restore, any command, any sensor event, any run of the movement task,
    whether the operation returned or raised) the committed position is an
    integer between 0 and 100. *)
Theorem committed_position_in_range
    (safe_load : string -> option PyObj) (float_of_str : string -> option Q)
    (service_ok : list Event -> bool) (data : EntryData) (w : World) :
  reachable safe_load float_of_str service_ok data w ->
  0 <= _position (self w) <= 100.
Proof.
  induction 1 as [s Hs | c w _ IH].
  - apply (range___init__ _ _ _ _ Hs).
  - apply (range_run service_ok c w IH).
Qed.

Lemma world_superseded_reachable :
  reachable demo_safe_load demo_float_of_str calls_complete demo_data
    world_superseded.
Proof.
  unfold world_superseded, world_opening.
  apply reach_after, reach_after, reach_new. vm_compute. reflexivity.
Defined.

Lemma committed_position_in_range_witness :
  0 <= _position (self world_superseded) <= 100.
Proof.
  apply (committed_position_in_range demo_safe_load demo_float_of_str
           calls_complete demo_data world_superseded).
  apply world_superseded_reachable.
Defined.

(** ** Recorded durations are configured times *)

Lemma pres_get_self_bind {B} (P : World -> Prop) (k : LogoCover -> M B) :
  (forall w, P w -> P (snd (k (self w) w))) -> pres P (bind get_self k).
Proof. intros Hk w H. apply Hk, H. Qed.

Lemma durations_modify (st : Settings) (f : LogoCover -> LogoCover) :
  (forall s, settings (f s) = settings s
             /\ _movement_expected_duration (f s)
                = _movement_expected_duration s) ->
  pres (on_self (durations_from st)) (modify f).
Proof.
  intros Hf. apply pres_modify_self. intros s [Hs Hd].
  destruct (Hf s) as [Es Ed]. unfold durations_from. rewrite Es, Ed.
  split; assumption.
Qed.

Lemma durations_forget (st : Settings) :
  pres (on_self (durations_from st))
    (modify (set_movement_expected_duration None)).
Proof.
  apply pres_modify_self. intros s [Hs _]. split; [exact Hs | exact I].
Qed.

Lemma durations_record (st : Settings) (d : Q) :
  d = _open_time st \/ d = _close_time st ->
  pres (on_self (durations_from st))
    (modify (set_movement_expected_duration (Some d))).
Proof.
  intros Hd. apply pres_modify_self. intros s [Hs _].
  split; [exact Hs | exact Hd].
Qed.

Ltac durations_step :=
  first
    [ simple apply durations_forget
    | simple apply durations_modify; intros ?; split; reflexivity
    | pres_step ].

Section Durations.

Variable service_ok : list Event -> bool.
Variable st : Settings.

Lemma durations_async_write_ha_state :
  pres (on_self (durations_from st)) async_write_ha_state.
Proof. unfold async_write_ha_state. repeat durations_step. Qed.

Lemma durations__set_motion (opening closing : bool) :
  pres (on_self (durations_from st)) (_set_motion opening closing).
Proof. unfold _set_motion. repeat durations_step. Qed.

Lemma durations__fire_direction_switch (opening : bool) :
  pres (on_self (durations_from st))
    (_fire_direction_switch service_ok opening).
Proof. unfold _fire_direction_switch. repeat durations_step. Qed.

Lemma durations__cancel_movement (update_position : bool) (now : Q) :
  pres (on_self (durations_from st)) (_cancel_movement update_position now).
Proof.
  unfold _cancel_movement.
  repeat (simple apply durations__set_motion || durations_step).
Qed.

Lemma durations__start_movement (target : Z) (duration : Q) (opening : bool)
    (now : Q) :
  duration = _open_time st \/ duration = _close_time st ->
  pres (on_self (durations_from st))
    (_start_movement target duration opening now).
Proof.
  intros Hd. unfold _start_movement.
  repeat (simple apply durations__set_motion
          || simple apply durations_async_write_ha_state
          || (simple apply durations_record; exact Hd)
          || durations_step).
Qed.

Lemma durations_run_stop_steps (sequence : list StopStep) :
  pres (on_self (durations_from st)) (run_stop_steps service_ok sequence).
Proof.
  induction sequence as [| step rest IH]; simpl.
  - apply pres_ret.
  - apply pres_bind; [| intros _; exact IH].
    unfold run_stop_step, asyncio_sleep. repeat durations_step.
Qed.

Lemma durations__execute_stop_sequence (opening : option bool) :
  pres (on_self (durations_from st))
    (_execute_stop_sequence service_ok opening).
Proof.
  unfold _execute_stop_sequence. apply pres_bind; [apply pres_get_self |].
  intros s. destruct (stop_sequence_for s opening) eqn:E.
  - apply pres_async_call_self.
  - apply durations_run_stop_steps.
Qed.

Lemma durations_async_stop_cover (now : Q) :
  pres (on_self (durations_from st)) (async_stop_cover service_ok now).
Proof.
  unfold async_stop_cover.
  repeat (simple apply durations__set_motion
          || simple apply durations_async_write_ha_state
          || simple apply durations__cancel_movement
          || simple apply durations__execute_stop_sequence
          || durations_step).
Qed.

(** The duration a command picks from the settings of the entity. *)
Lemma picked_duration (s : LogoCover) (b : bool) :
  durations_from st s ->
  (if b then _open_time (settings s) else _close_time (settings s))
  = _open_time st
  \/ (if b then _open_time (settings s) else _close_time (settings s))
     = _close_time st.
Proof.
  intros [Hs _]. rewrite Hs. destruct b; [left | right]; reflexivity.
Qed.

Lemma durations_async_set_cover_position (target : option Q) (t1 t2 : Q) :
  pres (on_self (durations_from st))
    (async_set_cover_position service_ok target t1 t2).
Proof.
  unfold async_set_cover_position.
  destruct target as [target |]; [| apply pres_ret].
  apply pres_bind; [apply pres_get_self | intros s].
  destruct (_clamp_position target =? _position s)%Z;
    [apply durations_async_stop_cover |].
  apply pres_bind; [apply durations__cancel_movement | intros _].
  apply pres_get_self_bind. intros w H.
  refine (pres_bind _ _ _ (durations__fire_direction_switch _) _ w H).
  intros _. apply durations__start_movement.
  apply picked_duration. exact H.
Qed.

Lemma durations__handle_motion_sensor (entity new_state : option string)
    (t1 t2 : Q) :
  pres (on_self (durations_from st))
    (_handle_motion_sensor entity new_state t1 t2).
Proof.
  unfold _handle_motion_sensor. cbv zeta.
  apply pres_bind; [apply pres_get_self | intros s].
  destruct (negb _); [apply pres_ret |].
  apply pres_bind; [destruct (bool_decide _); durations_step | intros _].
  apply pres_bind; [| intros _; apply durations_async_write_ha_state].
  destruct (match new_state with Some _ => _ | None => _ end).
  - apply pres_bind; [apply durations__cancel_movement | intros _].
    apply pres_get_self_bind. intros w H.
    apply durations__start_movement; [| exact H].
    apply picked_duration. exact H.
  - repeat (simple apply durations__cancel_movement || durations_step).
Qed.

Lemma durations__run_movement_task_turn (t1 t2 : Q) :
  pres (on_self (durations_from st)) (_run_movement_task_turn t1 t2).
Proof.
  unfold _run_movement_task_turn.
  repeat (simple apply durations_async_write_ha_state || durations_step).
Qed.

Lemma durations__run_movement_task_exit :
  pres (on_self (durations_from st)) _run_movement_task_exit.
Proof.
  unfold _run_movement_task_exit.
  repeat (simple apply durations_async_write_ha_state
          || simple apply durations__set_motion || durations_step).
Qed.

Lemma durations_run_task (tid : nat) (t1 t2 : Q) :
  pres (on_self (durations_from st)) (run_task tid t1 t2).
Proof.
  intros w H. unfold run_task.
  destruct (task_phase tid w) as [[|] |]; [| | exact H].
  - destruct (_run_movement_task_asserts w) as [[u | e] w'] eqn:E;
      unfold _run_movement_task_asserts, bind, get_self in E;
      destruct (_movement_target (self w)),
        (_movement_expected_duration (self w));
      injection E as _ <-; exact H.
  - pose proof (durations__run_movement_task_turn t1 t2 w H) as Ht.
    destruct (_run_movement_task_turn t1 t2 w) as [[[|] | e] w']; simpl in *.
    + pose proof (durations__run_movement_task_exit w' Ht) as Hx.
      destruct (_run_movement_task_exit w') as [r w'']. exact Hx.
    + exact Ht.
    + exact Ht.
Qed.

Lemma durations_run (c : command) :
  pres (on_self (durations_from st)) (run service_ok c).
Proof.
  destruct c; simpl.
  - unfold async_added_to_hass. repeat durations_step.
  - apply durations__cancel_movement.
  - apply durations_async_set_cover_position.
  - apply durations_async_set_cover_position.
  - apply durations_async_set_cover_position.
  - apply durations_async_stop_cover.
  - unfold async_set_shade. apply pres_bind; [apply pres_get_self | intros s].
    apply durations_async_set_cover_position.
  - apply durations__handle_motion_sensor.
  - apply durations_run_task.
Qed.

End Durations.

Lemma durations___init__ safe_load float_of_str (data : EntryData)
    (s : LogoCover) :
  __init__ safe_load float_of_str data = Ok s ->
  durations_from (settings s) s
  /\ _open_time (settings s) = CONF_OPEN_TIME data
  /\ _close_time (settings s) = CONF_CLOSE_TIME data.
Proof.
  unfold __init__.
  destruct (_parse_stop_sequence _ _ (default "" (CONF_STOP_SEQUENCE data)));
    [| discriminate].
  destruct (_parse_stop_sequence _ _ (default "" (CONF_STOP_SEQUENCE_UP data)));
    [| discriminate].
  destruct (_parse_stop_sequence _ _ (default "" (CONF_STOP_SEQUENCE_DOWN data)));
    [| discriminate].
  intros [= <-]. simpl. repeat split.
Qed.

Lemma reachable_durations safe_load float_of_str service_ok data (w : World) :
  reachable safe_load float_of_str service_ok data w ->
  match _movement_expected_duration (self w) with
  | Some d => d = CONF_OPEN_TIME data \/ d = CONF_CLOSE_TIME data
  | None => True
  end.
Proof.
  intros Hr.
  assert (H : exists st,
             on_self (durations_from st) w
             /\ _open_time st = CONF_OPEN_TIME data
             /\ _close_time st = CONF_CLOSE_TIME data).
  { induction Hr as [s Hs | c w _ (st & H & Ho & Hc)].
    - exists (settings s). apply (durations___init__ _ _ _ _ Hs).
    - exists st. split; [apply (durations_run service_ok st c w H) | auto]. }
  destruct H as (st & [_ Hd] & Ho & Hc).
  rewrite <- Ho, <- Hc. exact Hd.
Qed.

(** With times that pass the configuration schema, the estimator returns in
    every world the entity can be in. *)
Lemma reachable_interpolation_returns safe_load float_of_str service_ok data
    (w : World) (o c now : Q) :
  schema_time (CONF_OPEN_TIME data) = Some o ->
  schema_time (CONF_CLOSE_TIME data) = Some c ->
  reachable safe_load float_of_str service_ok data w ->
  exists p, _interpolated_position (self w) now = Ok p.
Proof.
  intros Ho Hc Hr.
  pose proof (reachable_durations _ _ _ _ _ Hr) as Hd.
  assert (Hpos : forall v x, schema_time v = Some x -> ~ (v == 0)%Q).
  { intros v x Hv. unfold schema_time, vol_Range_min in Hv.
    destruct (Qle_bool (1 # 10) v) eqn:E; [| discriminate].
    apply Qle_bool_iff in E. lra. }
  unfold _interpolated_position, py_div.
  destruct (_movement_start (self w)); [| eexists; reflexivity].
  destruct (_movement_target (self w)); [| eexists; reflexivity].
  destruct (_movement_expected_duration (self w)) as [d |];
    [| eexists; reflexivity].
  assert (Hnz : ~ (d == 0)%Q).
  { destruct Hd as [-> | ->]; [apply (Hpos _ _ Ho) | apply (Hpos _ _ Hc)]. }
  destruct (Qeq_bool d 0) eqn:E; [| eexists; reflexivity].
  apply Qeq_bool_iff in E. contradiction.
Qed.

(** ** One movement task at a time *)

Lemma task_inv_no_handle (w : World) :
  task_inv w -> _movement_task (self w) = None -> loop_tasks w = [].
Proof.
  unfold task_inv. intros H E.
  destruct (loop_tasks w) as [| [tid ph] [| x rest]]; try reflexivity.
  - rewrite E in H. discriminate.
  - destruct H.
Qed.

Lemma task_inv_drop_handle (w : World) (t : nat) :
  task_inv w -> _movement_task (self w) = Some t ->
  drop_task t (loop_tasks w) = [].
Proof.
  unfold task_inv. intros H E.
  destruct (loop_tasks w) as [| [tid ph] [| x rest]]; try reflexivity.
  - rewrite E in H. injection H as ->. unfold drop_task. simpl.
    rewrite Nat.eqb_refl. reflexivity.
  - destruct H.
Qed.

Lemma task_inv_phase (w : World) (tid : nat) (ph : phase) :
  task_inv w -> task_phase tid w = Some ph -> loop_tasks w = [(tid, ph)].
Proof.
  unfold task_inv, task_phase. intros H E.
  destruct (loop_tasks w) as [| [t p] [| x rest]]; simpl in *.
  - discriminate.
  - destruct (Nat.eqb t tid) eqn:Et; simpl in E; [| discriminate].
    apply Nat.eqb_eq in Et. injection E as ->. subst t. reflexivity.
  - destruct H.
Qed.

Lemma task_inv_idle (w : World) : loop_tasks w = [] -> task_inv w.
Proof. unfold task_inv. intros ->. exact I. Qed.

Lemma tasks_modify (f : LogoCover -> LogoCover) :
  (forall s, _movement_task (f s) = _movement_task s) ->
  pres task_inv (modify f).
Proof.
  intros Hf w H. unfold task_inv in *. simpl. rewrite Hf. exact H.
Qed.

Lemma tasks_emit (e : Event) : pres task_inv (emit e).
Proof. intros w H. exact H. Qed.

Lemma tasks_async_call service_ok dom srv data :
  pres task_inv (async_call service_ok dom srv data).
Proof.
  unfold async_call. apply pres_bind; [apply tasks_emit | intros _].
  intros w H. destruct (service_ok (bus w)); exact H.
Qed.

Ltac tasks_step :=
  first
    [ simple apply tasks_emit | simple apply tasks_async_call
    | simple apply tasks_modify; intros ?; reflexivity
    | pres_step ].

(** The estimator does not read the task handle. *)
Lemma interpolated_without_handle (s : LogoCover) (v : option nat) (now : Q) :
  _interpolated_position (set_movement_task v s) now
  = _interpolated_position s now.
Proof. reflexivity. Qed.

(** After [_cancel_movement] no task is alive and no handle is held. *)
Lemma _cancel_movement_idle (update_position : bool) (now : Q) (w : World) :
  task_inv w ->
  loop_tasks (snd (_cancel_movement update_position now w)) = []
  /\ _movement_task (self (snd (_cancel_movement update_position now w))) = None
  /\ next_task (snd (_cancel_movement update_position now w)) = next_task w.
Proof.
  intros H. unfold _cancel_movement, bind, get_self, _set_motion, modify,
    task_cancel, lift, ret. simpl.
  destruct (_movement_task (self w)) as [t |] eqn:E; simpl;
    destruct (update_position
              && bool_decide (is_Some (_movement_start (self w)))); simpl;
    try destruct (_interpolated_position _ now); simpl;
    repeat split;
    first [ exact E | apply (task_inv_drop_handle w t H E)
          | apply (task_inv_no_handle w H E) ].
Qed.

Lemma tasks__cancel_movement (update_position : bool) (now : Q) :
  pres task_inv (_cancel_movement update_position now).
Proof.
  intros w H. apply task_inv_idle.
  apply (_cancel_movement_idle update_position now w H).
Qed.

(** [_start_movement] returns, leaves the committed position alone, records
    it as the start position, and leaves exactly its new task alive. *)
Lemma _start_movement_run (target : Z) (duration : Q) (opening : bool)
    (now : Q) (w : World) :
  task_inv w ->
  exists w',
    _start_movement target duration opening now w = (Ok tt, w')
    /\ _position (self w') = _position (self w)
    /\ _movement_start_position (self w') = inject_Z (_position (self w))
    /\ _movement_start (self w') = Some now
    /\ _movement_target (self w') = Some (inject_Z target)
    /\ _movement_expected_duration (self w') = Some duration
    /\ _movement_task (self w') = Some (next_task w)
    /\ loop_tasks w' = [(next_task w, Created)].
Proof.
  intros H. unfold _start_movement, bind, get_self, _set_motion, modify,
    task_cancel, create_task, async_write_ha_state, emit, ret. simpl.
  destruct (_movement_task (self w)) as [t |] eqn:E; simpl;
    (eexists; split; [reflexivity |]); simpl; repeat split.
  - rewrite (task_inv_drop_handle w t H E). reflexivity.
  - rewrite (task_inv_no_handle w H E). reflexivity.
Qed.

Lemma tasks__start_movement (target : Z) (duration : Q) (opening : bool)
    (now : Q) :
  pres task_inv (_start_movement target duration opening now).
Proof.
  intros w H.
  destruct (_start_movement_run target duration opening now w H)
    as (w' & E & _ & _ & _ & _ & _ & Ht & Hl).
  rewrite E. simpl. unfold task_inv. rewrite Hl. exact Ht.
Qed.

(** [_cancel_movement(update_position=True)] on a recorded movement commits
    the clamped interpolated position. *)
Lemma _cancel_movement_commits (now pA : Q) (w : World) :
  task_inv w ->
  movement_active (self w) ->
  _interpolated_position (self w) now = Ok pA ->
  exists w',
    _cancel_movement true now w = (Ok tt, w')
    /\ _position (self w') = _clamp_position pA
    /\ settings (self w') = settings (self w)
    /\ loop_tasks w' = []
    /\ next_task w' = next_task w.
Proof.
  intros H Hact Hp.
  destruct (_cancel_movement_idle true now w H) as (Hl & _ & Hn).
  revert Hl Hn.
  unfold _cancel_movement, bind, get_self, _set_motion, modify,
    task_cancel, lift, ret. simpl.
  unfold movement_active in Hact.
  destruct (_movement_task (self w)) as [t |]; simpl;
    rewrite (bool_decide_eq_true_2 _ Hact);
    rewrite ?interpolated_without_handle, Hp; simpl;
    intros Hl Hn; eexists; (split; [reflexivity |]); simpl;
    repeat split; assumption.
Qed.

Section Tasks.

Variable service_ok : list Event -> bool.

(** A service call changes the bus only. *)
Lemma _fire_direction_switch_frame (opening : bool) (w : World) :
  self (snd (_fire_direction_switch service_ok opening w)) = self w
  /\ loop_tasks (snd (_fire_direction_switch service_ok opening w))
     = loop_tasks w
  /\ next_task (snd (_fire_direction_switch service_ok opening w))
     = next_task w.
Proof.
  unfold _fire_direction_switch, async_call, bind, get_self, emit. simpl.
  destruct (service_ok _); simpl; repeat split.
Qed.

Lemma tasks_async_write_ha_state : pres task_inv async_write_ha_state.
Proof. unfold async_write_ha_state. repeat tasks_step. Qed.

Lemma tasks__set_motion (opening closing : bool) :
  pres task_inv (_set_motion opening closing).
Proof. unfold _set_motion. repeat tasks_step. Qed.

Lemma tasks__fire_direction_switch (opening : bool) :
  pres task_inv (_fire_direction_switch service_ok opening).
Proof. unfold _fire_direction_switch. repeat tasks_step. Qed.

Lemma tasks_run_stop_steps (sequence : list StopStep) :
  pres task_inv (run_stop_steps service_ok sequence).
Proof.
  induction sequence as [| step rest IH]; simpl.
  - apply pres_ret.
  - apply pres_bind; [| intros _; exact IH].
    unfold run_stop_step, asyncio_sleep. repeat tasks_step.
Qed.

Lemma tasks__execute_stop_sequence (opening : option bool) :
  pres task_inv (_execute_stop_sequence service_ok opening).
Proof.
  unfold _execute_stop_sequence. apply pres_bind; [apply pres_get_self |].
  intros s. destruct (stop_sequence_for s opening) eqn:E.
  - apply tasks_async_call.
  - apply tasks_run_stop_steps.
Qed.

Lemma tasks_async_stop_cover (now : Q) :
  pres task_inv (async_stop_cover service_ok now).
Proof.
  unfold async_stop_cover.
  repeat (simple apply tasks__set_motion
          || simple apply tasks_async_write_ha_state
          || simple apply tasks__cancel_movement
          || simple apply tasks__execute_stop_sequence || tasks_step).
Qed.

Lemma tasks_async_set_cover_position (target : option Q) (t1 t2 : Q) :
  pres task_inv (async_set_cover_position service_ok target t1 t2).
Proof.
  unfold async_set_cover_position.
  repeat (simple apply tasks_async_stop_cover
          || simple apply tasks__cancel_movement
          || simple apply tasks__fire_direction_switch
          || simple apply tasks__start_movement || tasks_step).
Qed.

Lemma tasks__handle_motion_sensor (entity new_state : option string)
    (t1 t2 : Q) :
  pres task_inv (_handle_motion_sensor entity new_state t1 t2).
Proof.
  unfold _handle_motion_sensor. cbv zeta.
  repeat (simple apply tasks_async_write_ha_state
          || simple apply tasks__cancel_movement
          || simple apply tasks__start_movement || tasks_step).
Qed.

Lemma tasks__run_movement_task_turn (t1 t2 : Q) :
  pres task_inv (_run_movement_task_turn t1 t2).
Proof.
  unfold _run_movement_task_turn.
  repeat (simple apply tasks_async_write_ha_state || tasks_step).
Qed.

Lemma frame_async_write_ha_state (T : list (nat * phase) -> Prop) :
  pres (on_tasks T) async_write_ha_state.
Proof. unfold async_write_ha_state. repeat frame_step. Qed.

Lemma frame__run_movement_task_turn (T : list (nat * phase) -> Prop)
    (t1 t2 : Q) :
  pres (on_tasks T) (_run_movement_task_turn t1 t2).
Proof.
  unfold _run_movement_task_turn.
  repeat (simple apply frame_async_write_ha_state || frame_step).
Qed.

Lemma frame__run_movement_task_exit (T : list (nat * phase) -> Prop) :
  pres (on_tasks T) _run_movement_task_exit.
Proof.
  unfold _run_movement_task_exit, _set_motion.
  repeat (simple apply frame_async_write_ha_state || frame_step).
Qed.

Lemma tasks_run_task (tid : nat) (t1 t2 : Q) :
  pres task_inv (run_task tid t1 t2).
Proof.
  intros w H. unfold run_task.
  destruct (task_phase tid w) as [ph |] eqn:Ep; [| exact H].
  pose proof (task_inv_phase w tid ph H Ep) as Hl.
  assert (Hdrop : drop_task tid [(tid, ph)] = []).
  { unfold drop_task. simpl. rewrite Nat.eqb_refl. reflexivity. }
  destruct ph.
  - unfold _run_movement_task_asserts, bind, get_self, ret, raise.
    destruct (_movement_target (self w)),
      (_movement_expected_duration (self w)); simpl;
      rewrite Hl, Hdrop; simpl;
      solve [ apply task_inv_idle; reflexivity
            | unfold task_inv in *; simpl; rewrite Hl in H; exact H ].
  - pose proof (tasks__run_movement_task_turn t1 t2 w H) as Ht.
    pose proof (frame__run_movement_task_turn (eq [(tid, Sleeping)]) t1 t2 w
                  (eq_sym Hl)) as Hf.
    destruct (_run_movement_task_turn t1 t2 w) as [[[|] | e] w']; simpl in *.
    + pose proof (frame__run_movement_task_exit (eq [(tid, Sleeping)]) w' Hf)
        as Hx.
      destruct (_run_movement_task_exit w') as [r w'']. simpl in *.
      apply task_inv_idle. simpl. unfold on_tasks in Hx. rewrite <- Hx.
      exact Hdrop.
    + exact Ht.
    + apply task_inv_idle. simpl. unfold on_tasks in Hf. rewrite <- Hf.
      exact Hdrop.
Qed.

Lemma tasks_run (c : command) : pres task_inv (run service_ok c).
Proof.
  destruct c; simpl.
  - unfold async_added_to_hass. repeat tasks_step.
  - apply tasks__cancel_movement.
  - apply tasks_async_set_cover_position.
  - apply tasks_async_set_cover_position.
  - apply tasks_async_set_cover_position.
  - apply tasks_async_stop_cover.
  - unfold async_set_shade. apply pres_bind; [apply pres_get_self | intros s].
    apply tasks_async_set_cover_position.
  - apply tasks__handle_motion_sensor.
  - apply tasks_run_task.
Qed.

End Tasks.

Lemma reachable_task_inv safe_load float_of_str service_ok data (w : World) :
  reachable safe_load float_of_str service_ok data w -> task_inv w.
Proof.
  induction 1 as [s Hs | c w _ IH].
  - exact I.
  - apply (tasks_run service_ok c w IH).
Qed.

Lemma task_inv_at_most_one (w : World) :
  task_inv w -> (length (loop_tasks w) <= 1)%nat.
Proof.
  unfold task_inv.
  destruct (loop_tasks w) as [| [tid ph] [| x rest]]; simpl; intros H;
    [lia | lia | destruct H].
Qed.

(** ** Superseding a movement *)

Section Supersede.

Variable service_ok : list Event -> bool.

Lemma set_position_supersedes (target pA t1 t2 : Q) (w : World) :
  task_inv w ->
  movement_active (self w) ->
  _interpolated_position (self w) t1 = Ok pA ->
  _clamp_position target <> _position (self w) ->
  fst (run service_ok (SetCoverPosition (Some target) t1 t2) w) = Ok tt ->
  superseded_by_new pA t2 w
    (after service_ok (SetCoverPosition (Some target) t1 t2) w).
Proof.
  intros H Hact Hp Hne.
  apply Z.eqb_neq in Hne.
  destruct (_cancel_movement_commits t1 pA w H Hact Hp)
    as (w1 & E1 & Hpos1 & _ & Hl1 & Hn1).
  unfold after, run, async_set_cover_position, bind, get_self.
  rewrite Hne, E1.
  set (dir := (_position (self w1) <? _clamp_position target)%Z).
  destruct (_fire_direction_switch_frame service_ok dir w1) as (Hs2 & Hl2 & Hn2).
  destruct (_fire_direction_switch service_ok dir w1) as [[u | e] w2];
    simpl in Hs2, Hl2, Hn2; [| discriminate].
  intros _.
  assert (H2 : task_inv w2) by (apply task_inv_idle; congruence).
  match goal with
  | |- context [_start_movement ?tg ?du ?op t2 w2] =>
      destruct (_start_movement_run tg du op t2 w2 H2)
        as (w3 & E3 & Hpos3 & Hsp3 & Hst3 & _ & _ & Ht3 & Hl3);
      rewrite E3
  end.
  unfold superseded_by_new. simpl.
  rewrite Hpos3, Hsp3, Hst3, Ht3, Hl3, Hs2, Hpos1, Hn2, Hn1.
  repeat split.
Qed.

Lemma sensor_activation_supersedes (entity : option string) (pA t1 t2 : Q)
    (w : World) :
  task_inv w ->
  movement_active (self w) ->
  _interpolated_position (self w) t1 = Ok pA ->
  entity = _moving_up_sensor (settings (self w))
  \/ entity = _moving_down_sensor (settings (self w)) ->
  superseded_by_new pA t2 w
    (after service_ok (MotionSensor entity (Some "on") t1 t2) w).
Proof.
  intros H Hact Hp Hent.
  assert (Hin : bool_decide (entity = _moving_up_sensor (settings (self w)))
                || bool_decide (entity = _moving_down_sensor (settings (self w)))
                = true).
  { destruct Hent as [He | He]; rewrite (bool_decide_eq_true_2 _ He);
      [reflexivity | apply orb_true_r]. }
  unfold after, run, _handle_motion_sensor, bind, get_self.
  rewrite Hin. change (String.eqb "on" "on") with true.
  change (negb true) with false. cbv beta iota zeta.
  set (opening := bool_decide (entity = _moving_up_sensor (settings (self w)))).
  assert (Hflag : exists s0,
             (if opening then modify (set_sensor_up_active true)
              else modify (set_sensor_down_active true)) w
             = (Ok tt, with_self s0 w)
             /\ _movement_task s0 = _movement_task (self w)
             /\ _movement_start s0 = _movement_start (self w)
             /\ _interpolated_position s0 t1 = _interpolated_position (self w) t1).
  { destruct opening; eexists; (split; [reflexivity |]); repeat split. }
  destruct Hflag as (s0 & E0 & Ht0 & Hst0 & Hi0).
  rewrite E0.
  set (w0 := with_self s0 w).
  assert (H0 : task_inv w0).
  { unfold task_inv in *. simpl. rewrite Ht0. exact H. }
  assert (Hact0 : movement_active (self w0)).
  { unfold movement_active in *. simpl. rewrite Hst0. exact Hact. }
  assert (Hp0 : _interpolated_position (self w0) t1 = Ok pA).
  { simpl. rewrite Hi0. exact Hp. }
  destruct (_cancel_movement_commits t1 pA w0 H0 Hact0 Hp0)
    as (w1 & E1 & Hpos1 & _ & Hl1 & Hn1).
  rewrite E1.
  assert (H1 : task_inv w1) by (apply task_inv_idle; exact Hl1).
  match goal with
  | |- context [_start_movement ?tg ?du ?op t2 w1] =>
      destruct (_start_movement_run tg du op t2 w1 H1)
        as (w3 & E3 & Hpos3 & Hsp3 & Hst3 & _ & _ & Ht3 & Hl3);
      rewrite E3
  end.
  unfold async_write_ha_state, bind, get_self, emit. simpl.
  unfold superseded_by_new. simpl.
  rewrite Hpos3, Hsp3, Hst3, Ht3, Hl3, Hpos1, Hn1.
  repeat split.
Qed.
End Supersede.

(** C1 (amended).  In every world the entity can be in at most one movement
    task is alive.  When a movement A is recorded and a new movement B is
    started by a position command (for a target other than the committed
    position, the switch call completing) or by the activation of a
    configured motion sensor, A's task is cancelled and A's interpolated
    position is committed, rounded and clamped to an integer of 0..100;
    B's recorded start position is that committed integer, and B's task is
    the only task alive afterwards. *)
Theorem new_movement_starts_from_committed_position
    (safe_load : string -> option PyObj) (float_of_str : string -> option Q)
    (service_ok : list Event -> bool) (data : EntryData) (w : World)
    (pA t1 t2 : Q) :
  reachable safe_load float_of_str service_ok data w ->
  movement_active (self w) ->
  _interpolated_position (self w) t1 = Ok pA ->
  (length (loop_tasks w) <= 1)%nat
  /\ (forall target,
        _clamp_position target <> _position (self w) ->
        fst (run service_ok (SetCoverPosition (Some target) t1 t2) w) = Ok tt ->
        superseded_by_new pA t2 w
          (after service_ok (SetCoverPosition (Some target) t1 t2) w))
  /\ (forall entity,
        entity = _moving_up_sensor (settings (self w))
        \/ entity = _moving_down_sensor (settings (self w)) ->
        superseded_by_new pA t2 w
          (after service_ok (MotionSensor entity (Some "on") t1 t2) w)).
Proof.
  intros Hr Hact Hp.
  pose proof (reachable_task_inv _ _ _ _ _ Hr) as H.
  split; [apply task_inv_at_most_one, H |].
  split.
  - intros target. apply set_position_supersedes; assumption.
  - intros entity. apply sensor_activation_supersedes; assumption.
Qed.

Lemma world_opening_reachable :
  reachable demo_safe_load demo_float_of_str calls_complete demo_data
    world_opening.
Proof.
  unfold world_opening. apply reach_after, reach_new. vm_compute. reflexivity.
Defined.

Lemma new_movement_starts_from_committed_position_witness :
  (length (loop_tasks world_opening) <= 1)%nat
  /\ (forall target,
        _clamp_position target <> _position (self world_opening) ->
        fst (run calls_complete
               (SetCoverPosition (Some target) (41 # 4) (41 # 4))
               world_opening) = Ok tt ->
        superseded_by_new (100 # 80) (41 # 4) world_opening
          (after calls_complete
             (SetCoverPosition (Some target) (41 # 4) (41 # 4))
             world_opening))
  /\ (forall entity,
        entity = _moving_up_sensor (settings (self world_opening))
        \/ entity = _moving_down_sensor (settings (self world_opening)) ->
        superseded_by_new (100 # 80) (41 # 4) world_opening
          (after calls_complete
             (MotionSensor entity (Some "on") (41 # 4) (41 # 4))
             world_opening)).
Proof.
  apply (new_movement_starts_from_committed_position
           demo_safe_load demo_float_of_str calls_complete demo_data
           world_opening (100 # 80) (41 # 4) (41 # 4)).
  - apply world_opening_reachable.
  - vm_compute. eexists. reflexivity.
  - vm_compute. reflexivity.
Defined.

(** C1, as stated, fails: movement A runs from 0 towards 100 over 20 s; a
    position command 0.25 s later finds A at the interpolated position
    1.25, and movement B records the start position 1 (the committed,
    rounded position), not 1.25. *)
Lemma start_position_is_rounded :
  movement_active (self world_opening)
  /\ exists pA,
       _interpolated_position (self world_opening) (41 # 4) = Ok pA
       /\ (pA == 5 # 4)%Q
       /\ (_movement_start_position (self world_superseded) == 1)%Q
       /\ ~ (_movement_start_position (self world_superseded) == pA)%Q.
Proof.
  split; [vm_compute; eexists; reflexivity |].
  eexists. split; [vm_compute; reflexivity |].
  split; [reflexivity |].
  split; [reflexivity |].
  intros H. vm_compute in H. discriminate.
Qed.

(** ** Stopping *)

Section Stopping.

Variable service_ok : list Event -> bool.

Lemma establish_bind {A B} (P : World -> Prop) (m : M A) (k : A -> M B) :
  (forall w, P (snd (m w))) -> (forall a, pres P (k a)) ->
  forall w, P (snd (bind m k w)).
Proof.
  intros Hm Hk w. unfold bind. specialize (Hm w).
  destruct (m w) as [[a | e] w']; simpl in *.
  - apply Hk, Hm.
  - exact Hm.
Qed.

Lemma rest_emit (n : nat) (e : Event) : pres (at_rest n) (emit e).
Proof. intros w H. exact H. Qed.

Lemma rest_async_call (n : nat) dom srv data :
  pres (at_rest n) (async_call service_ok dom srv data).
Proof.
  unfold async_call. apply pres_bind; [apply rest_emit | intros _].
  intros w H. destruct (service_ok (bus w)); exact H.
Qed.

Lemma rest__set_motion_off (n : nat) :
  pres (at_rest n) (_set_motion false false).
Proof.
  intros w (_ & _ & Ht & Hs & Hn). unfold at_rest. simpl. auto.
Qed.

Lemma rest_async_write_ha_state (n : nat) :
  pres (at_rest n) async_write_ha_state.
Proof.
  unfold async_write_ha_state.
  apply pres_bind; [apply pres_get_self | intros s; apply rest_emit].
Qed.

Lemma rest_run_stop_steps (n : nat) (sequence : list StopStep) :
  pres (at_rest n) (run_stop_steps service_ok sequence).
Proof.
  induction sequence as [| step rest IH]; simpl.
  - apply pres_ret.
  - apply pres_bind; [| intros _; exact IH].
    unfold run_stop_step, asyncio_sleep.
    apply pres_bind; [apply rest_async_call | intros _].
    destruct (Qlt_le_dec 0 (delay step)); [apply rest_emit | apply pres_ret].
Qed.

Lemma rest__execute_stop_sequence (n : nat) (opening : option bool) :
  pres (at_rest n) (_execute_stop_sequence service_ok opening).
Proof.
  unfold _execute_stop_sequence. apply pres_bind; [apply pres_get_self |].
  intros s. destruct (stop_sequence_for s opening) eqn:E.
  - apply rest_async_call.
  - apply rest_run_stop_steps.
Qed.

(** When [_cancel_movement] returns, the entity is at rest and no task was
    created. *)
Lemma _cancel_movement_at_rest (update_position : bool) (now : Q)
    (w w1 : World) :
  _cancel_movement update_position now w = (Ok tt, w1) ->
  at_rest (next_task w) w1.
Proof.
  unfold _cancel_movement, bind, get_self, _set_motion, modify,
    task_cancel, lift, ret, at_rest. simpl.
  destruct (_movement_task (self w)) as [t |] eqn:E; simpl;
    destruct (update_position
              && bool_decide (is_Some (_movement_start (self w)))); simpl;
    try destruct (_interpolated_position _ now); simpl;
    intros [= <-]; simpl; repeat split; exact E.
Qed.

Lemma bind_returns {A B} (m : M A) (k : A -> M B) (w : World) (b : B) :
  fst (bind m k w) = Ok b ->
  exists a w1, m w = (Ok a, w1) /\ bind m k w = k a w1.
Proof.
  unfold bind. destruct (m w) as [[a | e] w1]; simpl.
  - intros _. exists a, w1. split; reflexivity.
  - discriminate.
Qed.

(** When [async_stop_cover] returns, the entity is at rest and no task was
    created. *)
Lemma async_stop_cover_at_rest (now : Q) (w : World) :
  fst (async_stop_cover service_ok now w) = Ok tt ->
  at_rest (next_task w) (snd (async_stop_cover service_ok now w)).
Proof.
  assert (E : async_stop_cover service_ok now w
              = bind (_cancel_movement true now)
                  (fun _ =>
                     bind (_execute_stop_sequence service_ok
                             (_active_or_last_direction (self w)))
                       (fun _ => bind (_set_motion false false)
                                   (fun _ => async_write_ha_state))) w)
    by reflexivity.
  rewrite E. clear E.
  intros Hret. destruct (bind_returns _ _ _ _ Hret) as (a & w1 & E1 & ->).
  destruct a. apply _cancel_movement_at_rest in E1.
  revert E1. generalize (next_task w). intros n E1.
  assert (Hrest : pres (at_rest n)
            (bind (_execute_stop_sequence service_ok
                     (_active_or_last_direction (self w)))
               (fun _ => bind (_set_motion false false)
                           (fun _ => async_write_ha_state)))).
  { apply pres_bind; [apply rest__execute_stop_sequence | intros _].
    apply pres_bind; [apply rest__set_motion_off | intros _].
    apply rest_async_write_ha_state. }
  apply (Hrest w1 E1).
Qed.

End Stopping.

(** C4 (amended).  [stop()] resolves the direction of the stop sequence in
    the state it is called in, before the movement is cancelled: opening
    when the up sensor is active or the opening flag is set; otherwise
    closing when the down sensor is active or the closing flag is set;
    otherwise the last movement direction, unknown when there is none. *)
Theorem stop_direction_resolution
    (service_ok : list Event -> bool) (now : Q) (w : World) :
  async_stop_cover service_ok now w
  = bind (_cancel_movement true now)
      (fun _ =>
         bind (_execute_stop_sequence service_ok
                 (_active_or_last_direction (self w)))
           (fun _ => bind (_set_motion false false)
                       (fun _ => async_write_ha_state))) w
  /\ (_sensor_up_active (self w) = true \/ _is_opening (self w) = true ->
      _active_or_last_direction (self w) = Some true)
  /\ (_sensor_up_active (self w) = false -> _is_opening (self w) = false ->
      _sensor_down_active (self w) = true \/ _is_closing (self w) = true ->
      _active_or_last_direction (self w) = Some false)
  /\ (_sensor_up_active (self w) = false -> _is_opening (self w) = false ->
      _sensor_down_active (self w) = false -> _is_closing (self w) = false ->
      _active_or_last_direction (self w) = _last_direction_opening (self w)).
Proof.
  split; [reflexivity |].
  unfold _active_or_last_direction.
  split; [| split].
  - intros [-> | ->]; [reflexivity | rewrite orb_true_r; reflexivity].
  - intros -> -> [-> | ->]; [reflexivity | rewrite orb_true_r; reflexivity].
  - intros -> -> -> ->. reflexivity.
Qed.

Lemma world_down_sensor_then_open_reachable :
  reachable demo_safe_load demo_float_of_str calls_complete demo_data
    world_down_sensor_then_open.
Proof.
  unfold world_down_sensor_then_open.
  apply reach_after, reach_after, reach_new. vm_compute. reflexivity.
Qed.

(** C4, as stated, fails: after the down sensor has reported motion and the
    user has asked for position 100, the down sensor is active, the up
    sensor is not, and the opening flag is set; the code resolves opening,
    where the priority of the claim gives closing. *)
Lemma opening_flag_beats_down_sensor :
  _sensor_down_active (self world_down_sensor_then_open) = true
  /\ _sensor_up_active (self world_down_sensor_then_open) = false
  /\ _is_opening (self world_down_sensor_then_open) = true
  /\ _active_or_last_direction (self world_down_sensor_then_open) = Some true
  /\ stop_direction_spec (self world_down_sensor_then_open) = Some false.
Proof. repeat split; vm_compute; reflexivity. Qed.

(** C7.  When the clamped target equals the committed position,
    [set_position] is [stop()]: the two commands have the same result and
    leave the same world (same motion flags, same calls of the stop sequence
    for the same resolved direction); when the command returns, both motion
    flags are false, no movement is recorded and no task was created. *)
Theorem set_position_at_current_is_stop
    (service_ok : list Event -> bool) (p t1 t2 : Q) (w : World) :
  _clamp_position p = _position (self w) ->
  run service_ok (SetCoverPosition (Some p) t1 t2) w
  = run service_ok (StopCover t1) w
  /\ (fst (run service_ok (SetCoverPosition (Some p) t1 t2) w) = Ok tt ->
      at_rest (next_task w)
        (after service_ok (SetCoverPosition (Some p) t1 t2) w)).
Proof.
  intros Heq.
  assert (E : run service_ok (SetCoverPosition (Some p) t1 t2) w
              = run service_ok (StopCover t1) w).
  { simpl. unfold async_set_cover_position, bind at 1, get_self at 1.
    rewrite Heq, Z.eqb_refl. reflexivity. }
  split; [exact E |].
  unfold after. rewrite E. simpl. apply async_stop_cover_at_rest.
Qed.

Lemma set_position_at_current_is_stop_witness :
  run calls_complete (SetCoverPosition (Some 1%Q) 11 11) world_superseded
  = run calls_complete (StopCover 11) world_superseded
  /\ (fst (run calls_complete (SetCoverPosition (Some 1%Q) 11 11)
             world_superseded) = Ok tt ->
      at_rest (next_task world_superseded)
        (after calls_complete (SetCoverPosition (Some 1%Q) 11 11)
           world_superseded)).
Proof.
  apply (set_position_at_current_is_stop calls_complete 1 11 11
           world_superseded).
  vm_compute. reflexivity.
Defined.

(** C8.  When the direction is unknown, or the stop sequence selected for
    it is empty, [_execute_stop_sequence] changes nothing but the bus, on
    which it puts exactly one event: the call of [switch.turn_off] on the
    open switch and the close switch together. *)
Theorem fallback_turns_off_both_switches
    (service_ok : list Event -> bool) (opening : option bool) (w : World) :
  opening = None \/ stop_sequence_for (self w) opening = [] ->
  snd (_execute_stop_sequence service_ok opening w)
  = with_bus (bus w ++ [turn_off_both (self w)]) w.
Proof.
  intros H.
  assert (E : stop_sequence_for (self w) opening = []).
  { destruct H as [-> | H]; [reflexivity | exact H]. }
  unfold _execute_stop_sequence, bind at 1, get_self at 1. rewrite E.
  unfold async_call, bind, emit. simpl.
  destruct (service_ok _); reflexivity.
Qed.

Lemma fallback_turns_off_both_switches_witness :
  snd (_execute_stop_sequence calls_complete (Some true) world_opening)
  = with_bus (bus world_opening ++ [turn_off_both (self world_opening)])
      world_opening.
Proof.
  apply (fallback_turns_off_both_switches calls_complete (Some true)
           world_opening).
  right. vm_compute. reflexivity.
Defined.

(** C10.  [set_position] without a position returns at once: it returns
    normally and the world (entity, tasks, bus) is the one it was called
    in. *)
Theorem set_position_without_target_is_noop
    (service_ok : list Event -> bool) (t1 t2 : Q) (w : World) :
  run service_ok (SetCoverPosition None t1 t2) w = (Ok tt, w).
Proof. reflexivity. Qed.

(** * Further properties *)

(** ** Rounding and clamping *)

Section Rounding.
#[local] Open Scope Q_scope.

(** [round] is within one half of its argument. *)
Lemma py_round_bounds (x : Q) :
  inject_Z (py_round x) - (1 # 2) <= x <= inject_Z (py_round x) + (1 # 2).
Proof.
  unfold py_round.
  pose proof (Qfloor_le x) as Hlo. pose proof (Qlt_floor x) as Hhi.
  rewrite inject_Z_plus in Hhi. change (inject_Z 1) with 1 in Hhi.
  destruct (Qcompare (x - inject_Z (Qfloor x)) (1 # 2)) eqn:E.
  - apply Qeq_alt in E.
    destruct (Z.even (Qfloor x));
      [| rewrite inject_Z_plus; change (inject_Z 1) with 1]; lra.
  - apply Qlt_alt in E. lra.
  - apply Qgt_alt in E. rewrite inject_Z_plus. change (inject_Z 1) with 1.
    lra.
Qed.

(** [round] does not tell equal rationals apart. *)
Lemma py_round_comp (x y : Q) : x == y -> py_round x = py_round y.
Proof.
  intros H. unfold py_round. rewrite (Qfloor_comp x y H).
  assert (Hc : Qcompare (x - inject_Z (Qfloor y)) (1 # 2)
               = Qcompare (y - inject_Z (Qfloor y)) (1 # 2)).
  { apply Qcompare_comp; [rewrite H |]; reflexivity. }
  rewrite Hc. reflexivity.
Qed.

Lemma py_round_inject_Z (z : Z) : py_round (inject_Z z) = z.
Proof.
  unfold py_round. rewrite Qfloor_Z.
  assert (E : Qcompare (inject_Z z - inject_Z z) (1 # 2) = Lt).
  { rewrite <- Qlt_alt. lra. }
  rewrite E. reflexivity.
Qed.

(** A tie is rounded to the even neighbour. *)
Lemma py_round_tie (z : Z) :
  py_round (inject_Z z + (1 # 2)) = if Z.even z then z else (z + 1)%Z.
Proof.
  assert (Hf : Qfloor (inject_Z z + (1 # 2)) = z).
  { pose proof (Qfloor_le (inject_Z z + (1 # 2))) as Hlo.
    pose proof (Qlt_floor (inject_Z z + (1 # 2))) as Hhi.
    rewrite inject_Z_plus in Hhi. change (inject_Z 1) with 1 in Hhi.
    assert (H1 : (Qfloor (inject_Z z + (1 # 2)) <= z)%Z).
    { apply Z.lt_succ_r. rewrite <- Z.add_1_r.
      rewrite Zlt_Qlt, inject_Z_plus. change (inject_Z 1) with 1. lra. }
    assert (H2 : (z <= Qfloor (inject_Z z + (1 # 2)))%Z).
    { apply Z.lt_succ_r. rewrite <- Z.add_1_r.
      rewrite Zlt_Qlt, inject_Z_plus. change (inject_Z 1) with 1. lra. }
    lia. }
  unfold py_round. rewrite Hf.
  assert (E : Qcompare (inject_Z z + (1 # 2) - inject_Z z) (1 # 2) = Eq).
  { rewrite <- Qeq_alt. lra. }
  rewrite E. reflexivity.
Qed.

Lemma py_round_mono (x y : Q) : x <= y -> (py_round x <= py_round y)%Z.
Proof.
  intros Hxy.
  destruct (Z_le_gt_dec (py_round x) (py_round y)) as [H | H]; [exact H |].
  exfalso.
  pose proof (py_round_bounds x) as [Hx _].
  pose proof (py_round_bounds y) as [_ Hy].
  assert (H1 : (py_round y + 1 <= py_round x)%Z) by lia.
  rewrite Zle_Qle, inject_Z_plus in H1. change (inject_Z 1) with 1 in H1.
  assert (E : x == y) by lra.
  apply py_round_comp in E. lia.
Qed.

End Rounding.

Lemma _clamp_position_comp (x y : Q) :
  (x == y)%Q -> _clamp_position x = _clamp_position y.
Proof. intros H. unfold _clamp_position. rewrite (py_round_comp x y H). reflexivity. Qed.

Lemma _clamp_position_inject_Z (z : Z) :
  _clamp_position (inject_Z z) = Z.max 0 (Z.min 100 z).
Proof. unfold _clamp_position. rewrite py_round_inject_Z. reflexivity. Qed.

(** X1.  [_clamp_position] gives back every committed position: the float
    of an integer of 0..100 is clamped to that integer, so clamping is
    idempotent; values at or below 0 give 0, values at or above 100 give
    100. *)
Theorem _clamp_position_fixes_positions :
  (forall z, 0 <= z <= 100 -> _clamp_position (inject_Z z) = z)
  /\ (forall x,
        _clamp_position (inject_Z (_clamp_position x)) = _clamp_position x)
  /\ (forall x, (x <= 0)%Q -> _clamp_position x = 0)
  /\ (forall x, (100 <= x)%Q -> _clamp_position x = 100).
Proof.
  split; [| split; [| split]].
  - intros z Hz. rewrite _clamp_position_inject_Z. lia.
  - intros x. rewrite _clamp_position_inject_Z.
    pose proof (_clamp_position_range x). lia.
  - intros x Hx. unfold _clamp_position.
    pose proof (py_round_mono x 0 Hx) as H.
    change 0%Q with (inject_Z 0) in H. rewrite py_round_inject_Z in H. lia.
  - intros x Hx. unfold _clamp_position.
    pose proof (py_round_mono 100 x Hx) as H.
    change 100%Q with (inject_Z 100) in H. rewrite py_round_inject_Z in H.
    lia.
Qed.

Lemma _clamp_position_mono (x y : Q) :
  (x <= y)%Q -> _clamp_position x <= _clamp_position y.
Proof.
  intros H. unfold _clamp_position.
  pose proof (py_round_mono x y H). lia.
Qed.

(** X2.  [_clamp_position] is monotone: a larger value is never committed
    as a smaller position; and it does not tell equal values apart. *)
Theorem _clamp_position_monotone (x y : Q) :
  (x <= y)%Q ->
  _clamp_position x <= _clamp_position y
  /\ ((y <= x)%Q -> _clamp_position x = _clamp_position y).
Proof.
  intros H. split; [apply _clamp_position_mono, H |].
  intros H'. apply _clamp_position_comp. lra.
Qed.

Lemma _clamp_position_monotone_witness :
  _clamp_position (5 # 2) <= _clamp_position (7 # 2)
  /\ ((7 # 2 <= 5 # 2)%Q -> _clamp_position (5 # 2) = _clamp_position (7 # 2)).
Proof.
  apply (_clamp_position_monotone (5 # 2) (7 # 2)).
  unfold Qle. simpl. lia.
Defined.

(** X3.  A position the configuration schema admits (a float of 0..100) is
    only rounded by [_clamp_position], never cut: the committed integer is
    within one half of the configured value. *)
Theorem schema_position_is_only_rounded (v x : Q) :
  schema_position v = Some x ->
  _clamp_position x = py_round x
  /\ (inject_Z (_clamp_position x) - (1 # 2) <= x
      <= inject_Z (_clamp_position x) + (1 # 2))%Q.
Proof.
  unfold schema_position, vol_Range.
  destruct (Qle_bool 0 v) eqn:E0; [| discriminate].
  destruct (Qle_bool v 100) eqn:E1; [| discriminate].
  simpl. intros [= <-].
  apply Qle_bool_iff in E0. apply Qle_bool_iff in E1.
  assert (H : _clamp_position v = py_round v).
  { unfold _clamp_position.
    pose proof (py_round_mono 0 v E0) as H0.
    pose proof (py_round_mono v 100 E1) as H1.
    change 0%Q with (inject_Z 0) in H0. rewrite py_round_inject_Z in H0.
    change 100%Q with (inject_Z 100) in H1. rewrite py_round_inject_Z in H1.
    lia. }
  split; [exact H |]. rewrite H. apply py_round_bounds.
Qed.

Lemma schema_position_is_only_rounded_witness :
  _clamp_position (85 # 2) = py_round (85 # 2)
  /\ (inject_Z (_clamp_position (85 # 2)) - (1 # 2) <= 85 # 2
      <= inject_Z (_clamp_position (85 # 2)) + (1 # 2))%Q.
Proof.
  apply (schema_position_is_only_rounded (85 # 2) (85 # 2)).
  vm_compute. reflexivity.
Defined.

(** ** More on the parser *)

Lemma split_dot_spec (s : string) :
  has_dot s = true ->
  exists a b, split_dot s = (a, Some b)
              /\ s = (a ++ "." ++ b)%string
              /\ has_dot a = false.
Proof.
  induction s as [| c s IH]; simpl; [discriminate |].
  destruct (Ascii.eqb c ".") eqn:E.
  - intros _. apply Ascii.eqb_eq in E. subst c.
    exists EmptyString, s. repeat split.
  - simpl. intros H. destruct (IH H) as (a & b & Es & -> & Ha).
    rewrite Es. exists (String c a), b. simpl. rewrite E, Ha.
    repeat split.
Qed.

(** X4.  The parser returns the empty sequence, and does not raise, on an
    empty or blank text (without calling the loader), on a text the loader
    rejects, and on a text that loads to anything but a list. *)
Theorem degenerate_text_gives_empty_sequence
    (safe_load : string -> option PyObj) (float_of_str : string -> option Q)
    (raw : string) :
  is_blank raw = true
  \/ safe_load raw = None
  \/ (exists v, safe_load raw = Some v /\ forall l, v <> PyList l) ->
  _parse_stop_sequence safe_load float_of_str raw = Ok [].
Proof.
  unfold _parse_stop_sequence.
  intros [H | [H | (v & H & Hv)]].
  - rewrite H, orb_true_r. reflexivity.
  - rewrite H. destruct (String.eqb raw "" || is_blank raw); reflexivity.
  - rewrite H. destruct (String.eqb raw "" || is_blank raw); [reflexivity |].
    destruct v; try reflexivity. destruct (Hv l). reflexivity.
Qed.

Lemma degenerate_text_gives_empty_sequence_witness :
  _parse_stop_sequence demo_safe_load demo_float_of_str "  " = Ok [].
Proof.
  apply (degenerate_text_gives_empty_sequence demo_safe_load
           demo_float_of_str "  ").
  left. reflexivity.
Defined.

(** X5.  A step the loop body parses comes from a mapping whose action
    identifier is a text with a dot; the identifier is the step's domain, a
    dot and the step's service, the domain being the text before the first
    dot; the step carries the mapping's [entity_id] as it is. *)
Theorem parsed_step_splits_service (float_of_str : string -> option Q)
    (x : PyObj) (st : StopStep) :
  parse_step float_of_str x = Parsed st ->
  exists m s,
    x = PyDict m
    /\ m !! "service" = Some (PyStr s)
    /\ s = (domain st ++ "." ++ service st)%string
    /\ has_dot (domain st) = false
    /\ entity_id st = default PyNone (m !! "entity_id").
Proof.
  destruct x as [ | b | z | q | s | l | m]; simpl; try discriminate.
  unfold dict_get.
  destruct (m !! "service") as [v |] eqn:Ev; simpl; [| discriminate].
  destruct (negb (truthy v)); [discriminate |].
  destruct (not_contains_dot v) as [[|] | e] eqn:En; try discriminate.
  destruct v as [ | b | z | q | s | l | m']; try discriminate.
  simpl in En. injection En as En. apply negb_false_iff in En.
  destruct (split_dot_spec s En) as (a & b & Es & Hs & Ha).
  rewrite Es.
  destruct (step_delay float_of_str m) as [d | e]; [| discriminate].
  intros [= <-]. simpl.
  exists m, s. repeat split; assumption.
Qed.

Lemma parsed_step_splits_service_witness :
  exists m s,
    PyDict {[ "service" := PyStr "cover.stop_cover.now" ]} = PyDict m
    /\ m !! "service" = Some (PyStr s)
    /\ s = ("cover" ++ "." ++ "stop_cover.now")%string
    /\ has_dot "cover" = false
    /\ PyNone = default PyNone (m !! "entity_id").
Proof.
  apply (parsed_step_splits_service demo_float_of_str
           (PyDict {[ "service" := PyStr "cover.stop_cover.now" ]})
           {| domain := "cover"; service := "stop_cover.now";
              entity_id := PyNone; service_data := ∅; delay := 0 |}).
  vm_compute. reflexivity.
Defined.

Lemma omap_length_le {A B} (f : A -> option B) (l : list A) :
  (length (omap f l) <= length l)%nat.
Proof.
  induction l as [| x l IH]; csimpl; [lia |].
  destruct (f x); csimpl; lia.
Qed.

Lemma parsed_of_skipped (float_of_str : string -> option Q) (x : PyObj) :
  service_is_text x -> delay_in_float_range x ->
  parsed_of float_of_str x = None <-> skipped x = true.
Proof.
  unfold parsed_of.
  destruct x as [ | b | z | q | s | l | m]; try (simpl; intros _ _; tauto).
  intros Hs Hd. destruct (step_delay_in_range float_of_str m Hd) as [d Ed].
  revert Hs. simpl.
  destruct (dict_get m "service") as [ | b | z | q | s | l | m'] eqn:E;
    simpl; try (intros ->; simpl; tauto); try (intros _; tauto).
  intros _. destruct (String.eqb s "") eqn:Es; simpl.
  - apply String.eqb_eq in Es. subst s. simpl. tauto.
  - destruct (has_dot s); simpl; [| tauto].
    destruct (split_dot s). rewrite Ed. split; intros H; discriminate H.
Qed.

(** X6.  On a text that is not blank and loads to a list whose action
    identifiers are texts (or missing, or falsy) and whose delays are no
    ints beyond the range of a float, the parser returns the steps of the
    elements it does not skip, in the order of the list; it skips exactly
    the elements that are no mapping or whose identifier is missing, falsy
    or without a dot. *)
Theorem textual_sequence_is_filtered_in_order
    (safe_load : string -> option PyObj) (float_of_str : string -> option Q)
    (raw : string) (loaded : list PyObj) :
  is_blank raw = false ->
  safe_load raw = Some (PyList loaded) ->
  Forall service_is_text loaded ->
  Forall delay_in_float_range loaded ->
  _parse_stop_sequence safe_load float_of_str raw
  = Ok (omap (parsed_of float_of_str) loaded)
  /\ (length (omap (parsed_of float_of_str) loaded) <= length loaded)%nat
  /\ Forall (fun x => parsed_of float_of_str x = None <-> skipped x = true)
       loaded.
Proof.
  intros Hb Hl Ht Hd. split; [| split].
  - unfold _parse_stop_sequence. rewrite Hb, Hl.
    assert (E : String.eqb raw "" = false).
    { destruct raw; [discriminate | reflexivity]. }
    rewrite E. simpl. apply parse_steps_text_total; assumption.
  - apply omap_length_le.
  - apply Forall_forall. intros x Hx. apply parsed_of_skipped.
    + apply (proj1 (Forall_forall _ _) Ht x Hx).
    + apply (proj1 (Forall_forall _ _) Hd x Hx).
Qed.

(** The five elements of [raw_mixed]: the first and the last are parsed,
    the three between them are skipped. *)
Lemma mixed_sequence_parsed :
  omap (parsed_of demo_float_of_str) mixed_loaded
  = [pause_step; plain_turn_off_step].
Proof. vm_compute. reflexivity. Qed.

Lemma textual_sequence_is_filtered_in_order_witness :
  _parse_stop_sequence mixed_safe_load demo_float_of_str raw_mixed
  = Ok (omap (parsed_of demo_float_of_str) mixed_loaded)
  /\ (length (omap (parsed_of demo_float_of_str) mixed_loaded)
      <= length mixed_loaded)%nat
  /\ Forall (fun x => parsed_of demo_float_of_str x = None
                      <-> skipped x = true)
       mixed_loaded.
Proof.
  apply (textual_sequence_is_filtered_in_order mixed_safe_load
           demo_float_of_str raw_mixed mixed_loaded).
  - vm_compute. reflexivity.
  - vm_compute. reflexivity.
  - repeat constructor.
  - repeat constructor.
Defined.

(** ** More on the executor *)

(** X7.  The call of a stop step carries the step's [service_data]; the
    step's [entity_id] is added under the key [entity_id] only when it is
    truthy and the data has no such key, so a target given in the data is
    never replaced; no other key is touched.  After the call the step waits
    only for a delay greater than 0. *)
Theorem step_call_keeps_explicit_target
    (service_ok : list Event -> bool) (step : StopStep) (w : World) :
  exists data rest,
    bus (snd (run_stop_step service_ok step w))
    = (bus w ++ ServiceCall (domain step) (service step) data :: rest)%list
    /\ (forall k, k <> "entity_id" -> data !! k = service_data step !! k)
    /\ data !! "entity_id"
       = match service_data step !! "entity_id" with
         | Some v => Some v
         | None => if truthy (entity_id step) then Some (entity_id step)
                   else None
         end
    /\ (rest = [] \/ rest = [Sleep (delay step)] /\ (0 < delay step)%Q).
Proof.
  unfold run_stop_step, async_call, asyncio_sleep, bind, emit, ret,
    ATTR_ENTITY_ID.
  destruct (service_data step !! "entity_id") as [v |] eqn:E.
  - rewrite andb_comm. simpl.
    exists (service_data step).
    destruct (service_ok _); simpl;
      [destruct (Qlt_le_dec 0 (delay step)) as [Hd | Hd]; simpl |];
      eexists; (split; [rewrite <- ?app_assoc; reflexivity |]);
      repeat split; auto.
  - destruct (truthy (entity_id step)) eqn:Et; simpl.
    + exists (<[ "entity_id" := entity_id step ]> (service_data step)).
      destruct (service_ok _); simpl;
        [destruct (Qlt_le_dec 0 (delay step)) as [Hd | Hd]; simpl |];
        eexists; (split; [rewrite <- ?app_assoc; reflexivity |]);
        (split; [intros k Hk; apply lookup_insert_ne; congruence |]);
        (split; [apply lookup_insert_eq |]); auto.
    + exists (service_data step).
      destruct (service_ok _); simpl;
        [destruct (Qlt_le_dec 0 (delay step)) as [Hd | Hd]; simpl |];
        eexists; (split; [rewrite <- ?app_assoc; reflexivity |]);
        repeat split; auto.
Qed.

(** X8.  When every call completes, a stop sequence runs from first to
    last step: the executor returns, changes nothing but the bus, makes one
    call per step in the order of the sequence, and waits exactly for the
    delays that are greater than 0, in that order. *)
Theorem stop_steps_run_in_order
    (service_ok : list Event -> bool) (sequence : list StopStep) (w : World) :
  (forall b, service_ok b = true) ->
  exists evs,
    run_stop_steps service_ok sequence w
    = (Ok tt, with_bus (bus w ++ evs) w)
    /\ calls_of evs = map (fun st => (domain st, service st)) sequence
    /\ sleeps_of evs = positive_delays sequence.
Proof.
  intros Hok. revert w.
  induction sequence as [| step rest IH]; intros w.
  - exists []. simpl. unfold ret, with_bus. rewrite app_nil_r.
    destruct w; repeat split.
  - simpl. unfold bind at 1.
    unfold run_stop_step, async_call, asyncio_sleep, bind, emit, ret.
    simpl. rewrite Hok.
    match goal with
    | |- context [ServiceCall ?d ?s ?data] => set (call := ServiceCall d s data)
    end.
    unfold positive_delays. simpl.
    destruct (Qlt_le_dec 0 (delay step)) as [Hd | Hd]; simpl.
    + destruct (IH (with_bus ((bus w ++ [call]) ++ [Sleep (delay step)]) w))
        as (evs & E & Hc & Hs).
      exists (call :: Sleep (delay step) :: evs).
      split; [| split].
      * unfold with_bus in *. simpl in *. rewrite E.
        rewrite <- !app_assoc. reflexivity.
      * unfold calls_of in *. csimpl. rewrite Hc. reflexivity.
      * unfold sleeps_of in *. csimpl. rewrite Hs. reflexivity.
    + destruct (IH (with_bus (bus w ++ [call]) w)) as (evs & E & Hc & Hs).
      exists (call :: evs).
      split; [| split].
      * unfold with_bus in *. simpl in *. rewrite E.
        rewrite <- !app_assoc. reflexivity.
      * unfold calls_of in *. csimpl. rewrite Hc. reflexivity.
      * unfold sleeps_of in *. csimpl. rewrite Hs. reflexivity.
Qed.

Lemma stop_steps_run_in_order_witness :
  exists evs,
    run_stop_steps calls_complete
      [pause_step; negative_delay_step; plain_turn_off_step]
      (new_world demo_cover)
    = (Ok tt, with_bus (bus (new_world demo_cover) ++ evs)
                (new_world demo_cover))
    /\ calls_of evs
       = map (fun st => (domain st, service st))
           [pause_step; negative_delay_step; plain_turn_off_step]
    /\ sleeps_of evs
       = positive_delays
           [pause_step; negative_delay_step; plain_turn_off_step].
Proof.
  apply (stop_steps_run_in_order calls_complete
           [pause_step; negative_delay_step; plain_turn_off_step]
           (new_world demo_cover)).
  intros b. reflexivity.
Defined.

(** The three steps above make three calls in their order and one wait, of
    2 s, after the first. *)
Lemma three_steps_on_the_bus :
  bus (snd (run_stop_steps calls_complete
              [pause_step; negative_delay_step; plain_turn_off_step]
              (new_world demo_cover)))
  = [ServiceCall "cover" "stop_cover" ∅;
     Sleep (inject_Z 2);
     ServiceCall "switch" "turn_off"
       {[ "entity_id" := PyStr "switch.shutter_up" ]};
     ServiceCall "switch" "turn_off" ∅].
Proof. vm_compute. reflexivity. Qed.

Lemma run_stop_step_cases (service_ok : list Event -> bool)
    (step : StopStep) (w : World) :
  exists d s data,
    (run_stop_step service_ok step w
     = (Raise ServiceError, with_bus (bus w ++ [ServiceCall d s data])%list w)
     /\ service_ok (bus w ++ [ServiceCall d s data])%list = false)
    \/ (exists evs,
          run_stop_step service_ok step w
          = (Ok tt, with_bus (bus w ++ ServiceCall d s data :: evs)%list w)).
Proof.
  unfold run_stop_step, async_call, asyncio_sleep, bind, emit, ret. simpl.
  do 3 eexists.
  destruct (service_ok (bus w ++ [_])%list) eqn:Ec; simpl.
  - right. destruct (Qlt_le_dec 0 (delay step)); simpl; eexists;
      unfold with_bus; simpl; rewrite <- ?app_assoc; reflexivity.
  - left. split; [reflexivity | exact Ec].
Qed.

(** X9.  A stop sequence raises only when one of its calls fails, and it
    stops there: the exception is the one of the failed call and the failed
    call is the last event on the bus (no later step is run, no wait is
    made). *)
Theorem stop_steps_stop_at_failed_call
    (service_ok : list Event -> bool) (sequence : list StopStep) (w : World)
    (e : exn) :
  fst (run_stop_steps service_ok sequence w) = Raise e ->
  e = ServiceError
  /\ service_ok (bus (snd (run_stop_steps service_ok sequence w))) = false
  /\ exists pre d s data,
       bus (snd (run_stop_steps service_ok sequence w))
       = (bus w ++ pre ++ [ServiceCall d s data])%list.
Proof.
  revert w. induction sequence as [| step rest IH]; intros w.
  - simpl. discriminate.
  - simpl. unfold bind.
    destruct (run_stop_step_cases service_ok step w)
      as (d & s & data & [[E Ec] | [evs E]]); rewrite E; simpl.
    + intros [= <-]. split; [reflexivity |]. split; [exact Ec |].
      exists [], d, s, data. reflexivity.
    + intros H. destruct (IH _ H) as (He & Hf & pre & d' & s' & data' & Hb).
      split; [exact He |]. split; [exact Hf |].
      exists (ServiceCall d s data :: evs ++ pre), d', s', data'.
      rewrite Hb. simpl. rewrite <- !app_assoc. reflexivity.
Qed.

Lemma stop_steps_stop_at_failed_call_witness :
  ServiceError = ServiceError
  /\ calls_fail
       (bus (snd (run_stop_steps calls_fail
                    [negative_delay_step; negative_delay_step]
                    (new_world demo_cover)))) = false
  /\ exists pre d s data,
       bus (snd (run_stop_steps calls_fail
                   [negative_delay_step; negative_delay_step]
                   (new_world demo_cover)))
       = (bus (new_world demo_cover) ++ pre ++ [ServiceCall d s data])%list.
Proof.
  apply (stop_steps_stop_at_failed_call calls_fail
           [negative_delay_step; negative_delay_step] (new_world demo_cover)
           ServiceError).
  vm_compute. reflexivity.
Defined.

(** ** Cancelling and starting, field by field *)

(** When the estimator returns, [_cancel_movement(update_position=True)]
    returns; it brings the entity to a standstill at the frozen position,
    leaves no task alive and puts nothing on the bus. *)
Lemma _cancel_movement_result (now pA : Q) (w : World) :
  task_inv w ->
  _interpolated_position (self w) now = Ok pA ->
  exists w1,
    _cancel_movement true now w = (Ok tt, w1)
    /\ stationary_at (frozen_position (self w) pA) (self w) (self w1)
    /\ _movement_start_position (self w1) = _movement_start_position (self w)
    /\ loop_tasks w1 = []
    /\ next_task w1 = next_task w
    /\ bus w1 = bus w.
Proof.
  intros H Hp.
  destruct (_cancel_movement_idle true now w H) as (Hl & _ & _).
  revert Hl.
  unfold _cancel_movement, bind, get_self, _set_motion, modify,
    task_cancel, lift, ret, frozen_position, stationary_at. simpl.
  destruct (_movement_task (self w)) as [t |] eqn:Et; simpl;
    rewrite ?interpolated_without_handle, Hp;
    destruct (bool_decide (is_Some (_movement_start (self w)))); simpl;
    intros Hl; eexists; (split; [reflexivity |]); simpl;
    repeat split; assumption.
Qed.

(** [_cancel_movement(update_position=False)] does not read the clock: it
    always returns and leaves the committed position alone. *)
Lemma _cancel_movement_keep_result (now : Q) (w : World) :
  task_inv w ->
  exists w1,
    _cancel_movement false now w = (Ok tt, w1)
    /\ stationary_at (_position (self w)) (self w) (self w1)
    /\ loop_tasks w1 = []
    /\ next_task w1 = next_task w
    /\ bus w1 = bus w.
Proof.
  intros H.
  destruct (_cancel_movement_idle false now w H) as (Hl & _ & _).
  revert Hl.
  unfold _cancel_movement, bind, get_self, _set_motion, modify,
    task_cancel, lift, ret, stationary_at. simpl.
  destruct (_movement_task (self w)) as [t |] eqn:Et; simpl;
    intros Hl; eexists; (split; [reflexivity |]); simpl;
    repeat split; assumption.
Qed.

Lemma _start_movement_result (target : Z) (duration : Q) (opening : bool)
    (now : Q) (w : World) :
  task_inv w ->
  exists w',
    _start_movement target duration opening now w = (Ok tt, w')
    /\ moving_toward target duration opening now (next_task w)
         (self w) (self w')
    /\ loop_tasks w' = [(next_task w, Created)]
    /\ next_task w' = S (next_task w)
    /\ bus w' = (bus w ++ [published (self w')])%list.
Proof.
  intros H. unfold _start_movement, bind, get_self, _set_motion, modify,
    task_cancel, create_task, async_write_ha_state, emit, ret,
    moving_toward, published. simpl.
  destruct (_movement_task (self w)) as [t |] eqn:E; simpl;
    (eexists; split; [reflexivity |]); simpl; repeat split.
  - rewrite (task_inv_drop_handle w t H E). reflexivity.
  - rewrite (task_inv_no_handle w H E). reflexivity.
Qed.

Lemma _fire_direction_switch_result (service_ok : list Event -> bool)
    (opening : bool) (w : World) :
  _fire_direction_switch service_ok opening w
  = (if service_ok (bus w ++ [turn_on_switch (self w) opening])%list
     then Ok tt else Raise ServiceError,
     with_bus (bus w ++ [turn_on_switch (self w) opening])%list w).
Proof.
  unfold _fire_direction_switch, async_call, bind, get_self, emit,
    turn_on_switch. simpl.
  destruct (service_ok _); reflexivity.
Qed.

(** ** Position commands *)

Lemma turn_on_switch_settings (s s' : LogoCover) (opening : bool) :
  settings s' = settings s ->
  turn_on_switch s' opening = turn_on_switch s opening.
Proof. intros H. unfold turn_on_switch. rewrite H. reflexivity. Qed.

(** X10.  A position command for a target other than the committed
    position, whose switch call completes: the direction is opening exactly
    when the target lies above the position frozen by the cancellation;
    the switch of that direction is turned on (one call), the flags are
    (opening, not opening), the target is the clamped one, the duration is
    the configured time of that direction, the state is published once,
    and the new task is the only one alive. *)
Theorem set_position_moves_toward_target
    (safe_load : string -> option PyObj) (float_of_str : string -> option Q)
    (service_ok : list Event -> bool) (data : EntryData) (w : World)
    (target pA t1 t2 : Q) :
  reachable safe_load float_of_str service_ok data w ->
  _interpolated_position (self w) t1 = Ok pA ->
  _clamp_position target <> _position (self w) ->
  service_ok
    (bus w ++ [turn_on_switch (self w)
                 (frozen_position (self w) pA <? _clamp_position target)%Z])%list
  = true ->
  exists w',
    run service_ok (SetCoverPosition (Some target) t1 t2) w = (Ok tt, w')
    /\ _position (self w') = frozen_position (self w) pA
    /\ _is_opening (self w')
       = (frozen_position (self w) pA <? _clamp_position target)%Z
    /\ _is_closing (self w')
       = negb (frozen_position (self w) pA <? _clamp_position target)%Z
    /\ _last_direction_opening (self w')
       = Some (frozen_position (self w) pA <? _clamp_position target)%Z
    /\ _movement_target (self w') = Some (inject_Z (_clamp_position target))
    /\ _movement_expected_duration (self w')
       = Some (if (frozen_position (self w) pA <? _clamp_position target)%Z
               then _open_time (settings (self w))
               else _close_time (settings (self w)))
    /\ bus w'
       = (bus w
          ++ [turn_on_switch (self w)
                (frozen_position (self w) pA <? _clamp_position target)%Z;
              WriteHaState (frozen_position (self w) pA)
                (frozen_position (self w) pA <? _clamp_position target)%Z
                (negb (frozen_position (self w) pA
                       <? _clamp_position target)%Z)])%list
    /\ loop_tasks w' = [(next_task w, Created)].
Proof.
  intros Hr Hp Hne Hok.
  pose proof (reachable_task_inv _ _ _ _ _ Hr) as H.
  apply Z.eqb_neq in Hne.
  destruct (_cancel_movement_result t1 pA w H Hp)
    as (w1 & E1 & Hst & _ & Hl1 & Hn1 & Hb1).
  destruct Hst as (Hpos1 & _ & _ & _ & _ & _ & _ & Hset1 & _).
  unfold run, async_set_cover_position, bind, get_self.
  rewrite Hne, E1, _fire_direction_switch_result.
  rewrite Hpos1, Hb1, (turn_on_switch_settings _ _ _ Hset1), Hok, Hset1.
  set (dir := (frozen_position (self w) pA <? _clamp_position target)%Z).
  set (w2 := with_bus _ w1).
  assert (H2 : task_inv w2) by (apply task_inv_idle; exact Hl1).
  match goal with
  | |- context [_start_movement ?tg ?du ?op t2 w2] =>
      destruct (_start_movement_result tg du op t2 w2 H2)
        as (w3 & E3 & Hmv & Hl3 & _ & Hb3)
  end.
  rewrite E3. exists w3. split; [reflexivity |].
  destruct Hmv as (P1 & _ & _ & P4 & P5 & P6 & P7 & P8 & _).
  simpl in P1, Hl3, Hb3. unfold published in Hb3.
  rewrite P1, P7, P8, Hpos1 in Hb3.
  rewrite P1, P4, P5, P6, P7, P8, Hpos1, Hl3, Hb3, Hn1, <- app_assoc.
  repeat split.
Qed.

Lemma set_position_moves_toward_target_witness :
  exists w',
    run calls_complete (SetCoverPosition (Some 50%Q) (41 # 4) (41 # 4))
      world_opening = (Ok tt, w')
    /\ _position (self w') = frozen_position (self world_opening) (100 # 80)
    /\ _is_opening (self w')
       = (frozen_position (self world_opening) (100 # 80)
          <? _clamp_position 50)%Z
    /\ _is_closing (self w')
       = negb (frozen_position (self world_opening) (100 # 80)
               <? _clamp_position 50)%Z
    /\ _last_direction_opening (self w')
       = Some (frozen_position (self world_opening) (100 # 80)
               <? _clamp_position 50)%Z
    /\ _movement_target (self w') = Some (inject_Z (_clamp_position 50))
    /\ _movement_expected_duration (self w')
       = Some (if (frozen_position (self world_opening) (100 # 80)
                   <? _clamp_position 50)%Z
               then _open_time (settings (self world_opening))
               else _close_time (settings (self world_opening)))
    /\ bus w'
       = (bus world_opening
          ++ [turn_on_switch (self world_opening)
                (frozen_position (self world_opening) (100 # 80)
                 <? _clamp_position 50)%Z;
              WriteHaState (frozen_position (self world_opening) (100 # 80))
                (frozen_position (self world_opening) (100 # 80)
                 <? _clamp_position 50)%Z
                (negb (frozen_position (self world_opening) (100 # 80)
                       <? _clamp_position 50)%Z)])%list
    /\ loop_tasks w' = [(next_task world_opening, Created)].
Proof.
  apply (set_position_moves_toward_target demo_safe_load demo_float_of_str
           calls_complete demo_data world_opening 50 (100 # 80)
           (41 # 4) (41 # 4)).
  - apply world_opening_reachable.
  - vm_compute. reflexivity.
  - vm_compute. discriminate.
  - reflexivity.
Defined.

(** X11.  A position command whose switch call fails raises the failure of
    the call after the cancellation has taken place: the entity stands
    still at the frozen position (flags false, nothing recorded of a
    movement), no task is alive, and the failed call is the only event put
    on the bus; no movement is started and no state is published. *)
Theorem set_position_failed_call_leaves_standstill
    (safe_load : string -> option PyObj) (float_of_str : string -> option Q)
    (service_ok : list Event -> bool) (data : EntryData) (w : World)
    (target pA t1 t2 : Q) :
  reachable safe_load float_of_str service_ok data w ->
  _interpolated_position (self w) t1 = Ok pA ->
  _clamp_position target <> _position (self w) ->
  service_ok
    (bus w ++ [turn_on_switch (self w)
                 (frozen_position (self w) pA <? _clamp_position target)%Z])%list
  = false ->
  exists w',
    run service_ok (SetCoverPosition (Some target) t1 t2) w
    = (Raise ServiceError, w')
    /\ stationary_at (frozen_position (self w) pA) (self w) (self w')
    /\ loop_tasks w' = []
    /\ next_task w' = next_task w
    /\ bus w'
       = (bus w
          ++ [turn_on_switch (self w)
                (frozen_position (self w) pA
                 <? _clamp_position target)%Z])%list.
Proof.
  intros Hr Hp Hne Hok.
  pose proof (reachable_task_inv _ _ _ _ _ Hr) as H.
  apply Z.eqb_neq in Hne.
  destruct (_cancel_movement_result t1 pA w H Hp)
    as (w1 & E1 & Hst & _ & Hl1 & Hn1 & Hb1).
  pose proof Hst as (Hpos1 & _ & _ & _ & _ & _ & _ & Hset1 & _).
  unfold run, async_set_cover_position, bind, get_self.
  rewrite Hne, E1, _fire_direction_switch_result.
  rewrite Hpos1, Hb1, (turn_on_switch_settings _ _ _ Hset1), Hok.
  eexists. split; [reflexivity |]. simpl.
  repeat split; try assumption; apply Hst.
Qed.

(** The movement the up sensor starts needs no service call: the world is
    reached also when every call fails. *)
Lemma world_up_tracking_reachable_failing :
  reachable demo_safe_load demo_float_of_str calls_fail demo_data
    world_up_tracking.
Proof.
  assert (E : world_up_tracking
              = after calls_fail
                  (MotionSensor (Some "binary_sensor.moving_up") (Some "on")
                     0 0)
                  (new_world demo_cover)) by (vm_compute; reflexivity).
  rewrite E. apply reach_after, reach_new. vm_compute. reflexivity.
Defined.

(** Five seconds into the movement the up sensor started (0 towards 100 over
    20 s) the estimate is 25, and a movement is recorded and its task
    alive. *)
Lemma world_up_tracking_at_5 :
  frozen_position (self world_up_tracking) (500 # 20) = 25
  /\ _movement_start (self world_up_tracking) = Some 0%Q
  /\ _is_opening (self world_up_tracking) = true
  /\ loop_tasks world_up_tracking = [(0%nat, Created)].
Proof. vm_compute. repeat split. Qed.

Lemma set_position_failed_call_leaves_standstill_witness :
  exists w',
    run calls_fail (SetCoverPosition (Some 50%Q) 5 5) world_up_tracking
    = (Raise ServiceError, w')
    /\ stationary_at (frozen_position (self world_up_tracking) (500 # 20))
         (self world_up_tracking) (self w')
    /\ loop_tasks w' = []
    /\ next_task w' = next_task world_up_tracking
    /\ bus w'
       = (bus world_up_tracking
          ++ [turn_on_switch (self world_up_tracking)
                (frozen_position (self world_up_tracking) (500 # 20)
                 <? _clamp_position 50)%Z])%list.
Proof.
  apply (set_position_failed_call_leaves_standstill demo_safe_load
           demo_float_of_str calls_fail demo_data world_up_tracking
           50 (500 # 20) 5 5).
  - apply world_up_tracking_reachable_failing.
  - vm_compute. reflexivity.
  - vm_compute. discriminate.
  - reflexivity.
Defined.

(** ** Sensor events *)

Lemma recognised_entity (s : LogoCover) (entity : option string) :
  entity = _moving_up_sensor (settings s)
  \/ entity = _moving_down_sensor (settings s) ->
  negb (bool_decide (entity = _moving_up_sensor (settings s))
        || bool_decide (entity = _moving_down_sensor (settings s))) = false.
Proof.
  intros [He | He]; rewrite (bool_decide_eq_true_2 _ He);
    [reflexivity | rewrite orb_true_r; reflexivity].
Qed.

Lemma is_on_false (new_state : option string) :
  new_state <> Some "on" ->
  match new_state with
  | Some state => String.eqb state "on"
  | None => false
  end = false.
Proof.
  destruct new_state as [st |]; [| reflexivity].
  intros H. destruct (String.eqb st "on") eqn:E; [| reflexivity].
  apply String.eqb_eq in E. subst st. destruct H. reflexivity.
Qed.

(** X12.  A configured motion sensor turning on (up when the event names
    the up sensor, down otherwise): the sensor is recorded active, the
    running movement is frozen, and a movement towards 100 (up) or 0 (down)
    is tracked over the configured time of that direction, with flags
    (up, not up); no service is called, the state is published twice (by
    [_start_movement] and by the handler), and the new task is the only
    one alive. *)
Theorem sensor_activation_tracks_to_the_end
    (safe_load : string -> option PyObj) (float_of_str : string -> option Q)
    (service_ok : list Event -> bool) (data : EntryData) (w : World)
    (entity : option string) (pA t1 t2 : Q) :
  reachable safe_load float_of_str service_ok data w ->
  _interpolated_position (self w) t1 = Ok pA ->
  entity = _moving_up_sensor (settings (self w))
  \/ entity = _moving_down_sensor (settings (self w)) ->
  exists w',
    run service_ok (MotionSensor entity (Some "on") t1 t2) w = (Ok tt, w')
    /\ _position (self w') = frozen_position (self w) pA
    /\ _movement_target (self w')
       = Some (if bool_decide (entity = _moving_up_sensor (settings (self w)))
               then 100%Q else 0%Q)
    /\ _movement_expected_duration (self w')
       = Some (if bool_decide (entity = _moving_up_sensor (settings (self w)))
               then _open_time (settings (self w))
               else _close_time (settings (self w)))
    /\ _is_opening (self w')
       = bool_decide (entity = _moving_up_sensor (settings (self w)))
    /\ _is_closing (self w')
       = negb (bool_decide (entity = _moving_up_sensor (settings (self w))))
    /\ _last_direction_opening (self w')
       = Some (bool_decide (entity = _moving_up_sensor (settings (self w))))
    /\ _sensor_up_active (self w')
       = (bool_decide (entity = _moving_up_sensor (settings (self w)))
          || _sensor_up_active (self w))
    /\ _sensor_down_active (self w')
       = (negb (bool_decide (entity = _moving_up_sensor (settings (self w))))
          || _sensor_down_active (self w))
    /\ bus w' = (bus w ++ [published (self w'); published (self w')])%list
    /\ loop_tasks w' = [(next_task w, Created)].
Proof.
  intros Hr Hp Hent.
  pose proof (reachable_task_inv _ _ _ _ _ Hr) as H.
  unfold run, _handle_motion_sensor, bind, get_self.
  rewrite (recognised_entity _ _ Hent).
  change (String.eqb "on" "on") with true. cbv beta iota zeta.
  set (opening := bool_decide (entity = _moving_up_sensor (settings (self w)))).
  set (s0 := if opening then set_sensor_up_active true (self w)
             else set_sensor_down_active true (self w)).
  assert (E0 : (if opening then modify (set_sensor_up_active true)
                else modify (set_sensor_down_active true)) w
               = (Ok tt, with_self s0 w)).
  { unfold s0. destruct opening; reflexivity. }
  rewrite E0. set (w0 := with_self s0 w).
  assert (F0 : _movement_task s0 = _movement_task (self w)
               /\ _movement_start s0 = _movement_start (self w)
               /\ _interpolated_position s0 t1
                  = _interpolated_position (self w) t1
               /\ settings s0 = settings (self w)
               /\ _position s0 = _position (self w)
               /\ _sensor_up_active s0 = (opening || _sensor_up_active (self w))
               /\ _sensor_down_active s0
                  = (negb opening || _sensor_down_active (self w))).
  { unfold s0. destruct opening; repeat split. }
  destruct F0 as (Ft & Fs & Fi & Fset & Fpos & Fup & Fdown).
  assert (H0 : task_inv w0).
  { unfold task_inv in *. simpl. rewrite Ft. exact H. }
  assert (Hp0 : _interpolated_position (self w0) t1 = Ok pA).
  { simpl. rewrite Fi. exact Hp. }
  destruct (_cancel_movement_result t1 pA w0 H0 Hp0)
    as (w1 & E1 & Hst & _ & Hl1 & Hn1 & Hb1).
  rewrite E1.
  destruct Hst as (Hpos1 & _ & _ & _ & _ & _ & _ & Hset1 & Hup1 & Hdown1 & _).
  assert (H1 : task_inv w1) by (apply task_inv_idle; exact Hl1).
  match goal with
  | |- context [_start_movement ?tg ?du ?op t2 w1] =>
      destruct (_start_movement_result tg du op t2 w1 H1)
        as (w3 & E3 & Hmv & Hl3 & _ & Hb3)
  end.
  rewrite E3.
  unfold async_write_ha_state, bind, get_self, emit.
  eexists. split; [reflexivity |]. simpl.
  destruct Hmv as (P1 & _ & _ & P4 & P5 & P6 & P7 & P8 & _ & P10 & P11 & P12).
  assert (Efrozen : frozen_position (self w0) pA = frozen_position (self w) pA).
  { unfold frozen_position. simpl. rewrite Fs, Fpos. reflexivity. }
  simpl in Hn1, Hb1, Hset1, Hup1, Hdown1.
  rewrite P1, P4, P5, P6, P7, P8, P11, P12, Hpos1, Hset1, Fset, Hup1, Hdown1,
    Fup, Fdown, Efrozen, Hl3, Hb3, Hb1, Hn1, <- app_assoc.
  unfold published. rewrite P1, P7, P8, Hpos1, Efrozen.
  repeat split; destruct opening; reflexivity.
Qed.

Lemma sensor_activation_tracks_to_the_end_witness :
  exists w',
    run calls_complete
      (MotionSensor (Some "binary_sensor.moving_down") (Some "on")
         (41 # 4) (41 # 4)) world_opening = (Ok tt, w')
    /\ _position (self w') = frozen_position (self world_opening) (100 # 80)
    /\ _movement_target (self w')
       = Some (if bool_decide (Some "binary_sensor.moving_down"
                               = _moving_up_sensor
                                   (settings (self world_opening)))
               then 100%Q else 0%Q)
    /\ _movement_expected_duration (self w')
       = Some (if bool_decide (Some "binary_sensor.moving_down"
                               = _moving_up_sensor
                                   (settings (self world_opening)))
               then _open_time (settings (self world_opening))
               else _close_time (settings (self world_opening)))
    /\ _is_opening (self w')
       = bool_decide (Some "binary_sensor.moving_down"
                      = _moving_up_sensor (settings (self world_opening)))
    /\ _is_closing (self w')
       = negb (bool_decide (Some "binary_sensor.moving_down"
                            = _moving_up_sensor
                                (settings (self world_opening))))
    /\ _last_direction_opening (self w')
       = Some (bool_decide (Some "binary_sensor.moving_down"
                            = _moving_up_sensor
                                (settings (self world_opening))))
    /\ _sensor_up_active (self w')
       = (bool_decide (Some "binary_sensor.moving_down"
                       = _moving_up_sensor (settings (self world_opening)))
          || _sensor_up_active (self world_opening))
    /\ _sensor_down_active (self w')
       = (negb (bool_decide (Some "binary_sensor.moving_down"
                             = _moving_up_sensor
                                 (settings (self world_opening))))
          || _sensor_down_active (self world_opening))
    /\ bus w'
       = (bus world_opening ++ [published (self w'); published (self w')])%list
    /\ loop_tasks w' = [(next_task world_opening, Created)].
Proof.
  apply (sensor_activation_tracks_to_the_end demo_safe_load
           demo_float_of_str calls_complete demo_data world_opening
           (Some "binary_sensor.moving_down") (100 # 80) (41 # 4) (41 # 4)).
  - apply world_opening_reachable.
  - vm_compute. reflexivity.
  - right. vm_compute. reflexivity.
Defined.

(** X13.  A configured motion sensor turning off while the other sensor is
    not active: the sensor is recorded inactive and the movement is
    cancelled with the position frozen at the interpolated value (not
    forced to the target); the flags are false, no task is alive, no
    service is called and the state is published once. *)
Theorem last_sensor_off_freezes_position
    (safe_load : string -> option PyObj) (float_of_str : string -> option Q)
    (service_ok : list Event -> bool) (data : EntryData) (w : World)
    (entity new_state : option string) (pA t1 t2 : Q) :
  reachable safe_load float_of_str service_ok data w ->
  _interpolated_position (self w) t1 = Ok pA ->
  entity = _moving_up_sensor (settings (self w))
  \/ entity = _moving_down_sensor (settings (self w)) ->
  new_state <> Some "on" ->
  (if bool_decide (entity = _moving_up_sensor (settings (self w)))
   then _sensor_down_active (self w) else _sensor_up_active (self w))
  = false ->
  exists w',
    run service_ok (MotionSensor entity new_state t1 t2) w = (Ok tt, w')
    /\ _position (self w') = frozen_position (self w) pA
    /\ _is_opening (self w') = false
    /\ _is_closing (self w') = false
    /\ _sensor_up_active (self w') = false
    /\ _sensor_down_active (self w') = false
    /\ _movement_start (self w') = None
    /\ _movement_task (self w') = None
    /\ _last_direction_opening (self w') = _last_direction_opening (self w)
    /\ loop_tasks w' = []
    /\ bus w'
       = (bus w ++ [WriteHaState (frozen_position (self w) pA) false false])%list.
Proof.
  intros Hr Hp Hent Hoff Hother.
  pose proof (reachable_task_inv _ _ _ _ _ Hr) as H.
  unfold run, _handle_motion_sensor, bind, get_self.
  rewrite (recognised_entity _ _ Hent), (is_on_false _ Hoff).
  cbv beta iota zeta.
  set (opening := bool_decide (entity = _moving_up_sensor (settings (self w))))
    in *.
  set (s0 := if opening then set_sensor_up_active false (self w)
             else set_sensor_down_active false (self w)).
  assert (E0 : (if opening then modify (set_sensor_up_active false)
                else modify (set_sensor_down_active false)) w
               = (Ok tt, with_self s0 w)).
  { unfold s0. destruct opening; reflexivity. }
  rewrite E0. set (w0 := with_self s0 w).
  assert (F0 : _movement_task s0 = _movement_task (self w)
               /\ _movement_start s0 = _movement_start (self w)
               /\ _interpolated_position s0 t1
                  = _interpolated_position (self w) t1
               /\ _position s0 = _position (self w)
               /\ _last_direction_opening s0
                  = _last_direction_opening (self w)
               /\ _sensor_up_active s0 = false
               /\ _sensor_down_active s0 = false).
  { unfold s0. destruct opening; repeat split; exact Hother. }
  destruct F0 as (Ft & Fs & Fi & Fpos & Flast & Fup & Fdown).
  cbv beta iota. change (self w0) with s0. rewrite Fup, Fdown.
  change (negb false && negb false) with true. cbv iota.
  assert (H0 : task_inv w0).
  { unfold task_inv in *. simpl. rewrite Ft. exact H. }
  assert (Hp0 : _interpolated_position (self w0) t1 = Ok pA).
  { simpl. rewrite Fi. exact Hp. }
  destruct (_cancel_movement_result t1 pA w0 H0 Hp0)
    as (w1 & E1 & Hst & _ & Hl1 & Hn1 & Hb1).
  rewrite E1.
  unfold async_write_ha_state, bind, get_self, emit.
  eexists. split; [reflexivity |]. simpl.
  destruct Hst as (Q1 & Q2 & Q3 & Q4 & Q5 & _ & _ & _ & Q9 & Q10 & Q11).
  assert (Efrozen : frozen_position (self w0) pA = frozen_position (self w) pA).
  { unfold frozen_position. simpl. rewrite Fs, Fpos. reflexivity. }
  simpl in Q9, Q10, Q11, Hb1.
  rewrite Q1, Q2, Q3, Q4, Q5, Q9, Q10, Q11, Fup, Fdown, Flast, Efrozen, Hl1,
    Hb1.
  repeat split.
Qed.

Lemma world_up_tracking_reachable :
  reachable demo_safe_load demo_float_of_str calls_complete demo_data
    world_up_tracking.
Proof.
  unfold world_up_tracking. apply reach_after, reach_new.
  vm_compute. reflexivity.
Defined.

Lemma last_sensor_off_freezes_position_witness :
  exists w',
    run calls_complete
      (MotionSensor (Some "binary_sensor.moving_up") (Some "off") 5 5)
      world_up_tracking = (Ok tt, w')
    /\ _position (self w') = frozen_position (self world_up_tracking) (500 # 20)
    /\ _is_opening (self w') = false
    /\ _is_closing (self w') = false
    /\ _sensor_up_active (self w') = false
    /\ _sensor_down_active (self w') = false
    /\ _movement_start (self w') = None
    /\ _movement_task (self w') = None
    /\ _last_direction_opening (self w')
       = _last_direction_opening (self world_up_tracking)
    /\ loop_tasks w' = []
    /\ bus w'
       = (bus world_up_tracking
          ++ [WriteHaState (frozen_position (self world_up_tracking) (500 # 20))
                false false])%list.
Proof.
  apply (last_sensor_off_freezes_position demo_safe_load demo_float_of_str
           calls_complete demo_data world_up_tracking
           (Some "binary_sensor.moving_up") (Some "off") (500 # 20) 5 5).
  - apply world_up_tracking_reachable.
  - vm_compute. reflexivity.
  - left. vm_compute. reflexivity.
  - discriminate.
  - vm_compute. reflexivity.
Defined.

(** X14.  A configured motion sensor turning off while the other sensor is
    still active changes nothing but its own recorded state: the movement,
    its task, the committed position and the motion flags are left alone,
    and the state is published once. *)
Theorem sensor_off_with_other_active_leaves_movement
    (service_ok : list Event -> bool) (w : World)
    (entity new_state : option string) (t1 t2 : Q) :
  entity = _moving_up_sensor (settings (self w))
  \/ entity = _moving_down_sensor (settings (self w)) ->
  new_state <> Some "on" ->
  (if bool_decide (entity = _moving_up_sensor (settings (self w)))
   then _sensor_down_active (self w) else _sensor_up_active (self w))
  = true ->
  run service_ok (MotionSensor entity new_state t1 t2) w
  = (Ok tt,
     with_bus (bus w ++ [published (self w)])
       (with_self
          (if bool_decide (entity = _moving_up_sensor (settings (self w)))
           then set_sensor_up_active false (self w)
           else set_sensor_down_active false (self w)) w)).
Proof.
  intros Hent Hoff Hother.
  unfold run, _handle_motion_sensor, bind, get_self.
  rewrite (recognised_entity _ _ Hent), (is_on_false _ Hoff).
  cbv beta iota zeta.
  destruct (bool_decide (entity = _moving_up_sensor (settings (self w))));
    unfold modify, async_write_ha_state, bind, get_self, emit, ret; simpl;
    rewrite Hother; simpl; reflexivity.
Qed.

Lemma sensor_off_with_other_active_leaves_movement_witness :
  run calls_complete
    (MotionSensor (Some "binary_sensor.moving_up") None 2 2)
    world_down_sensor_then_open
  = (Ok tt,
     with_bus (bus world_down_sensor_then_open
               ++ [published (self world_down_sensor_then_open)])
       (with_self
          (if bool_decide (Some "binary_sensor.moving_up"
                           = _moving_up_sensor
                               (settings (self world_down_sensor_then_open)))
           then set_sensor_up_active false (self world_down_sensor_then_open)
           else set_sensor_down_active false
                  (self world_down_sensor_then_open))
          world_down_sensor_then_open)).
Proof.
  apply (sensor_off_with_other_active_leaves_movement calls_complete
           world_down_sensor_then_open (Some "binary_sensor.moving_up") None
           2 2).
  - left. vm_compute. reflexivity.
  - discriminate.
  - vm_compute. reflexivity.
Defined.

(** X15.  An event for an entity that is neither of the two sensor
    attributes is ignored: the handler returns and the world is the one it
    was called in, whatever the new state. *)
Theorem foreign_sensor_event_is_ignored
    (service_ok : list Event -> bool) (w : World)
    (entity new_state : option string) (t1 t2 : Q) :
  entity <> _moving_up_sensor (settings (self w)) ->
  entity <> _moving_down_sensor (settings (self w)) ->
  run service_ok (MotionSensor entity new_state t1 t2) w = (Ok tt, w).
Proof.
  intros Hup Hdown.
  unfold run, _handle_motion_sensor, bind, get_self.
  rewrite (bool_decide_eq_false_2 _ Hup), (bool_decide_eq_false_2 _ Hdown).
  reflexivity.
Qed.

Lemma foreign_sensor_event_is_ignored_witness :
  run calls_complete
    (MotionSensor (Some "binary_sensor.door") (Some "on") 3 3) world_opening
  = (Ok tt, world_opening).
Proof.
  apply (foreign_sensor_event_is_ignored calls_complete world_opening
           (Some "binary_sensor.door") (Some "on") 3 3);
    vm_compute; discriminate.
Defined.

(** ** The movement task *)

(** X16.  The task waking once the expected duration has elapsed: it first
    publishes the rounded interpolated position, then commits exactly the
    clamped target, reports the motion the sensors still report (none when
    neither is active), drops its handle, publishes again and leaves the
    loop.  The start stamp, target and duration stay recorded. *)
Theorem task_completes_at_target
    (safe_load : string -> option PyObj) (float_of_str : string -> option Q)
    (service_ok : list Event -> bool) (data : EntryData) (w : World)
    (tid : nat) (b t d p t_interp t_elapsed : Q) :
  reachable safe_load float_of_str service_ok data w ->
  task_phase tid w = Some Sleeping ->
  _movement_start (self w) = Some b ->
  _movement_target (self w) = Some t ->
  _movement_expected_duration (self w) = Some d ->
  _interpolated_position (self w) t_interp = Ok p ->
  (d <= t_elapsed - b)%Q ->
  exists w',
    run service_ok (Tick tid t_interp t_elapsed) w = (Ok tt, w')
    /\ _position (self w') = _clamp_position t
    /\ _is_opening (self w') = _sensor_up_active (self w)
    /\ _is_closing (self w') = _sensor_down_active (self w)
    /\ _movement_task (self w') = None
    /\ loop_tasks w' = []
    /\ _movement_start (self w') = Some b
    /\ _movement_target (self w') = Some t
    /\ _movement_expected_duration (self w') = Some d
    /\ bus w'
       = (bus w
          ++ [WriteHaState (_clamp_position p) (_is_opening (self w))
                (_is_closing (self w));
              WriteHaState (_clamp_position t) (_sensor_up_active (self w))
                (_sensor_down_active (self w))])%list.
Proof.
  intros Hr Hph Hb Ht Hd Hp Hel.
  pose proof (reachable_task_inv _ _ _ _ _ Hr) as H.
  pose proof (task_inv_phase w tid Sleeping H Hph) as Hl.
  apply Qle_bool_iff in Hel.
  unfold run, run_task. rewrite Hph.
  unfold _run_movement_task_turn, _run_movement_task_exit,
    async_write_ha_state, _set_motion, bind, get_self, lift, modify, emit,
    ret.
  rewrite Hp. simpl. rewrite Hb, Hd, Hel. simpl. rewrite Ht. simpl.
  assert (Hdrop : drop_task tid (loop_tasks w) = []).
  { rewrite Hl. unfold drop_task. simpl. rewrite Nat.eqb_refl. reflexivity. }
  destruct (_sensor_up_active (self w)) eqn:Eu,
    (_sensor_down_active (self w)) eqn:Ed; simpl;
    (eexists; split; [reflexivity |]); simpl;
    rewrite Hdrop, <- app_assoc; repeat split; assumption.
Qed.

(** X17.  The task waking before the expected duration has elapsed (clock
    not before the start stamp, duration positive): it commits the rounded
    interpolated position, which lies between the clamped start position
    and the clamped target, publishes it, and goes back to sleep; the flags,
    the movement and the tasks are left alone. *)
Theorem task_tick_commits_between_endpoints
    (service_ok : list Event -> bool) (w : World)
    (tid : nat) (b t d p t_interp t_elapsed : Q) :
  task_phase tid w = Some Sleeping ->
  _movement_start (self w) = Some b ->
  _movement_target (self w) = Some t ->
  _movement_expected_duration (self w) = Some d ->
  (0 < d)%Q ->
  (b <= t_interp)%Q ->
  _interpolated_position (self w) t_interp = Ok p ->
  (t_elapsed - b < d)%Q ->
  run service_ok (Tick tid t_interp t_elapsed) w
  = (Ok tt,
     with_bus (bus w ++ [WriteHaState (_clamp_position p)
                           (_is_opening (self w)) (_is_closing (self w))])
       (with_self (set_position (_clamp_position p) (self w)) w))
  /\ Z.min (_clamp_position (_movement_start_position (self w)))
       (_clamp_position t)
     <= _clamp_position p
     <= Z.max (_clamp_position (_movement_start_position (self w)))
          (_clamp_position t).
Proof.
  intros Hph Hb Ht Hd Hpos Hnow Hp Hel.
  split.
  - assert (E : Qle_bool d (t_elapsed - b) = false).
    { destruct (Qle_bool d (t_elapsed - b)) eqn:E; [| reflexivity].
      apply Qle_bool_iff in E. lra. }
    unfold run, run_task. rewrite Hph.
    unfold _run_movement_task_turn, async_write_ha_state, bind, get_self,
      lift, modify, emit, ret.
    rewrite Hp. simpl. rewrite Hb, Hd, E. reflexivity.
  - assert (Hnz : ~ (d == 0)%Q) by lra.
    rewrite (interpolated_value (self w) b t d t_interp Hb Ht Hd Hnz) in Hp.
    injection Hp as <-.
    set (s := _movement_start_position (self w)) in *.
    assert (Hr : (0 <= (t_interp - b) / d)%Q) by (apply ratio_nonneg; lra).
    destruct (scale_between s t _ (progress_range _ Hr)) as [Hlo Hhi].
    destruct (Qlt_le_dec s t) as [Hst | Hst].
    + rewrite (Q.min_l s t) in Hlo by lra.
      rewrite (Q.max_r s t) in Hhi by lra.
      pose proof (_clamp_position_mono _ _ Hlo).
      pose proof (_clamp_position_mono _ _ Hhi). lia.
    + rewrite (Q.min_r s t) in Hlo by lra.
      rewrite (Q.max_l s t) in Hhi by lra.
      pose proof (_clamp_position_mono _ _ Hlo).
      pose proof (_clamp_position_mono _ _ Hhi). lia.
Qed.

Lemma world_opening_sleeping_reachable :
  reachable demo_safe_load demo_float_of_str calls_complete demo_data
    world_opening_sleeping.
Proof.
  unfold world_opening_sleeping. apply reach_after, world_opening_reachable.
Defined.

Lemma task_completes_at_target_witness :
  exists w',
    run calls_complete (Tick 0 30 30) world_opening_sleeping = (Ok tt, w')
    /\ _position (self w') = _clamp_position 100
    /\ _is_opening (self w') = _sensor_up_active (self world_opening_sleeping)
    /\ _is_closing (self w')
       = _sensor_down_active (self world_opening_sleeping)
    /\ _movement_task (self w') = None
    /\ loop_tasks w' = []
    /\ _movement_start (self w') = Some 10%Q
    /\ _movement_target (self w') = Some 100%Q
    /\ _movement_expected_duration (self w') = Some 20%Q
    /\ bus w'
       = (bus world_opening_sleeping
          ++ [WriteHaState (_clamp_position 100)
                (_is_opening (self world_opening_sleeping))
                (_is_closing (self world_opening_sleeping));
              WriteHaState (_clamp_position 100)
                (_sensor_up_active (self world_opening_sleeping))
                (_sensor_down_active (self world_opening_sleeping))])%list.
Proof.
  apply (task_completes_at_target demo_safe_load demo_float_of_str
           calls_complete demo_data world_opening_sleeping 0%nat
           10 100 20 100 30 30).
  - apply world_opening_sleeping_reachable.
  - vm_compute. reflexivity.
  - vm_compute. reflexivity.
  - vm_compute. reflexivity.
  - vm_compute. reflexivity.
  - vm_compute. reflexivity.
  - unfold Qle. simpl. lia.
Defined.

Lemma task_tick_commits_between_endpoints_witness :
  run calls_complete (Tick 0 15 15) world_opening_sleeping
  = (Ok tt,
     with_bus (bus world_opening_sleeping
               ++ [WriteHaState (_clamp_position (500 # 20))
                     (_is_opening (self world_opening_sleeping))
                     (_is_closing (self world_opening_sleeping))])
       (with_self (set_position (_clamp_position (500 # 20))
                     (self world_opening_sleeping))
          world_opening_sleeping))
  /\ Z.min (_clamp_position
              (_movement_start_position (self world_opening_sleeping)))
       (_clamp_position 100)
     <= _clamp_position (500 # 20)
     <= Z.max (_clamp_position
                 (_movement_start_position (self world_opening_sleeping)))
          (_clamp_position 100).
Proof.
  apply (task_tick_commits_between_endpoints calls_complete
           world_opening_sleeping 0%nat 10 100 20 (500 # 20) 15 15).
  - vm_compute. reflexivity.
  - vm_compute. reflexivity.
  - vm_compute. reflexivity.
  - vm_compute. reflexivity.
  - reflexivity.
  - unfold Qle. simpl. lia.
  - vm_compute. reflexivity.
  - reflexivity.
Defined.

(** ** Stopping and removal *)

Section StopMore.

Variable service_ok : list Event -> bool.

Lemma run_stop_steps_frame (sequence : list StopStep) (w : World) :
  self (snd (run_stop_steps service_ok sequence w)) = self w
  /\ loop_tasks (snd (run_stop_steps service_ok sequence w)) = loop_tasks w
  /\ next_task (snd (run_stop_steps service_ok sequence w)) = next_task w.
Proof.
  revert w. induction sequence as [| step rest IH]; intros w.
  - repeat split.
  - simpl. unfold bind.
    destruct (run_stop_step_cases service_ok step w)
      as (d & s & data & [[E _] | [evs E]]); rewrite E; simpl.
    + repeat split.
    + destruct (IH (with_bus (bus w ++ ServiceCall d s data :: evs) w))
        as (H1 & H2 & H3).
      rewrite H1, H2, H3. repeat split.
Qed.

Lemma _execute_stop_sequence_frame (opening : option bool) (w : World) :
  self (snd (_execute_stop_sequence service_ok opening w)) = self w
  /\ loop_tasks (snd (_execute_stop_sequence service_ok opening w))
     = loop_tasks w
  /\ next_task (snd (_execute_stop_sequence service_ok opening w))
     = next_task w.
Proof.
  assert (E : _execute_stop_sequence service_ok opening w
              = match stop_sequence_for (self w) opening with
                | [] =>
                    async_call service_ok "switch" SERVICE_TURN_OFF
                      {[ ATTR_ENTITY_ID :=
                           PyList [PyStr (_open_switch (settings (self w)));
                                   PyStr (_close_switch (settings (self w)))] ]}
                      w
                | _ =>
                    run_stop_steps service_ok
                      (stop_sequence_for (self w) opening) w
                end).
  { unfold _execute_stop_sequence, bind, get_self.
    destruct (stop_sequence_for (self w) opening); reflexivity. }
  rewrite E. clear E.
  destruct (stop_sequence_for (self w) opening) as [| step rest].
  - unfold async_call, bind, emit. simpl.
    destruct (service_ok _); repeat split.
  - apply run_stop_steps_frame.
Qed.

(** [stop()] from a state in which the estimator returns: whatever the
    stop sequence does, the entity ends at a standstill at the frozen
    position and no task is alive. *)
Lemma async_stop_cover_freezes (now pA : Q) (w : World) :
  task_inv w ->
  _interpolated_position (self w) now = Ok pA ->
  stationary_at (frozen_position (self w) pA) (self w)
    (self (snd (async_stop_cover service_ok now w)))
  /\ loop_tasks (snd (async_stop_cover service_ok now w)) = []
  /\ next_task (snd (async_stop_cover service_ok now w)) = next_task w.
Proof.
  intros H Hp.
  destruct (_cancel_movement_result now pA w H Hp)
    as (w1 & E1 & Hst & _ & Hl1 & Hn1 & _).
  assert (E : async_stop_cover service_ok now w
              = match _execute_stop_sequence service_ok
                        (_active_or_last_direction (self w)) w1 with
                | (Ok _, w2) =>
                    (Ok tt,
                     with_bus (bus w2 ++ [WriteHaState (_position (self w2))
                                            false false])
                       (with_self (set_motion_flags false false (self w2))
                          w2))
                | (Raise e, w2) => (Raise e, w2)
                end).
  { unfold async_stop_cover, bind, get_self. rewrite E1.
    destruct (_execute_stop_sequence service_ok
                (_active_or_last_direction (self w)) w1) as [[u | e] w2];
      reflexivity. }
  rewrite E. clear E.
  destruct (_execute_stop_sequence_frame
              (_active_or_last_direction (self w)) w1) as (F1 & F2 & F3).
  destruct (_execute_stop_sequence service_ok
              (_active_or_last_direction (self w)) w1) as [[u | e] w2];
    simpl in F1, F2, F3; simpl; rewrite ?F1, F2, F3, Hl1, Hn1.
  - unfold stationary_at in *. simpl. intuition.
  - auto.
Qed.

End StopMore.

(** X18.  [stop()] always freezes: from a state in which the estimator
    returns, whether the stop sequence completes or one of its calls fails,
    the entity ends at a standstill at the frozen position (flags false,
    no movement recorded, sensor states and remembered direction kept), no
    task is alive and none was created. *)
Theorem stop_freezes_even_when_a_call_fails
    (safe_load : string -> option PyObj) (float_of_str : string -> option Q)
    (service_ok : list Event -> bool) (data : EntryData) (w : World)
    (now pA : Q) :
  reachable safe_load float_of_str service_ok data w ->
  _interpolated_position (self w) now = Ok pA ->
  stationary_at (frozen_position (self w) pA) (self w)
    (self (after service_ok (StopCover now) w))
  /\ loop_tasks (after service_ok (StopCover now) w) = []
  /\ next_task (after service_ok (StopCover now) w) = next_task w.
Proof.
  intros Hr Hp. apply async_stop_cover_freezes; [| exact Hp].
  apply (reachable_task_inv _ _ _ _ _ Hr).
Qed.

Lemma stop_freezes_even_when_a_call_fails_witness :
  stationary_at (frozen_position (self world_opening) (100 # 80))
    (self world_opening)
    (self (after calls_complete (StopCover (41 # 4)) world_opening))
  /\ loop_tasks (after calls_complete (StopCover (41 # 4)) world_opening) = []
  /\ next_task (after calls_complete (StopCover (41 # 4)) world_opening)
     = next_task world_opening.
Proof.
  apply (stop_freezes_even_when_a_call_fails demo_safe_load
           demo_float_of_str calls_complete demo_data world_opening
           (41 # 4) (100 # 80)).
  - apply world_opening_reachable.
  - vm_compute. reflexivity.
Defined.

(** X19.  A cancelled task never writes again: after [stop()] or after the
    removal of the entity no task is alive, and running any task identifier
    at any clock reading returns and leaves the world as it is. *)
Theorem no_task_runs_after_stop_or_removal
    (safe_load : string -> option PyObj) (float_of_str : string -> option Q)
    (service_ok : list Event -> bool) (data : EntryData) (w : World)
    (c : command) (tid : nat) (t1 t2 : Q) :
  reachable safe_load float_of_str service_ok data w ->
  (exists now, c = StopCover now) \/ c = WillRemoveFromHass ->
  loop_tasks (after service_ok c w) = []
  /\ run service_ok (Tick tid t1 t2) (after service_ok c w)
     = (Ok tt, after service_ok c w).
Proof.
  intros Hr Hc.
  pose proof (reachable_task_inv _ _ _ _ _ Hr) as H.
  assert (Hl : loop_tasks (after service_ok c w) = []).
  { destruct Hc as [[now ->] | ->]; unfold after, run.
    - destruct (_cancel_movement_idle true now w H) as (Hl1 & _ & _).
      unfold async_stop_cover, bind, get_self.
      destruct (_cancel_movement true now w) as [[u | e] w1];
        simpl in Hl1; [| exact Hl1].
      destruct (_execute_stop_sequence_frame service_ok
                  (_active_or_last_direction (self w)) w1) as (_ & F2 & _).
      destruct (_execute_stop_sequence service_ok
                  (_active_or_last_direction (self w)) w1) as [[u' | e] w2];
        simpl in F2; simpl; rewrite F2; exact Hl1.
    - apply (_cancel_movement_idle false 0 w H). }
  split; [exact Hl |].
  unfold run, run_task, task_phase. rewrite Hl. reflexivity.
Qed.

Lemma no_task_runs_after_stop_or_removal_witness :
  loop_tasks (after calls_complete (StopCover 12) world_opening_sleeping) = []
  /\ run calls_complete (Tick 0 13 13)
       (after calls_complete (StopCover 12) world_opening_sleeping)
     = (Ok tt, after calls_complete (StopCover 12) world_opening_sleeping).
Proof.
  apply (no_task_runs_after_stop_or_removal demo_safe_load demo_float_of_str
           calls_complete demo_data world_opening_sleeping (StopCover 12)
           0%nat 13 13).
  - apply world_opening_sleeping_reachable.
  - left. exists 12%Q. reflexivity.
Defined.

(** X20.  The removal of the entity cancels the movement without reading
    the clock: it always returns, the committed position is left as it is,
    the entity ends at a standstill, no task is alive and nothing is put on
    the bus. *)
Theorem removal_cancels_without_moving
    (safe_load : string -> option PyObj) (float_of_str : string -> option Q)
    (service_ok : list Event -> bool) (data : EntryData) (w : World) :
  reachable safe_load float_of_str service_ok data w ->
  exists w',
    run service_ok WillRemoveFromHass w = (Ok tt, w')
    /\ stationary_at (_position (self w)) (self w) (self w')
    /\ loop_tasks w' = []
    /\ next_task w' = next_task w
    /\ bus w' = bus w.
Proof.
  intros Hr. apply _cancel_movement_keep_result.
  apply (reachable_task_inv _ _ _ _ _ Hr).
Qed.

Lemma removal_cancels_without_moving_witness :
  exists w',
    run calls_complete WillRemoveFromHass world_opening_sleeping = (Ok tt, w')
    /\ stationary_at (_position (self world_opening_sleeping))
         (self world_opening_sleeping) (self w')
    /\ loop_tasks w' = []
    /\ next_task w' = next_task world_opening_sleeping
    /\ bus w' = bus world_opening_sleeping.
Proof.
  apply (removal_cancels_without_moving demo_safe_load demo_float_of_str
           calls_complete demo_data world_opening_sleeping).
  apply world_opening_sleeping_reachable.
Defined.

Lemma LogoCover_ext (s s' : LogoCover) :
  settings s = settings s' -> _position s = _position s' ->
  _is_opening s = _is_opening s' -> _is_closing s = _is_closing s' ->
  _sensor_up_active s = _sensor_up_active s' ->
  _sensor_down_active s = _sensor_down_active s' ->
  _movement_task s = _movement_task s' ->
  _movement_start s = _movement_start s' ->
  _movement_start_position s = _movement_start_position s' ->
  _movement_target s = _movement_target s' ->
  _movement_expected_duration s = _movement_expected_duration s' ->
  _last_direction_opening s = _last_direction_opening s' ->
  s = s'.
Proof.
  destruct s, s'. simpl. intros. subst. reflexivity.
Qed.

(** When [_cancel_movement] returns, the entity is at a standstill. *)
Lemma _cancel_movement_returned (update_position : bool) (now : Q)
    (w w1 : World) :
  _cancel_movement update_position now w = (Ok tt, w1) ->
  stationary_at (_position (self w1)) (self w) (self w1).
Proof.
  unfold _cancel_movement, bind, get_self, _set_motion, modify,
    task_cancel, lift, ret, stationary_at. simpl.
  destruct (_movement_task (self w)) as [t |] eqn:E; simpl;
    destruct (update_position
              && bool_decide (is_Some (_movement_start (self w)))); simpl;
    try destruct (_interpolated_position _ now); simpl;
    intros [= <-]; simpl; repeat split; exact E.
Qed.

(** On an entity at a standstill [stop()] changes nothing of the entity. *)
Lemma async_stop_cover_at_standstill (service_ok : list Event -> bool)
    (now : Q) (p : Z) (s0 : LogoCover) (w : World) :
  stationary_at p s0 (self w) ->
  self (snd (async_stop_cover service_ok now w)) = self w.
Proof.
  intros (Q1 & Q2 & Q3 & Q4 & Q5 & Q6 & Q7 & _).
  assert (E1 : exists w1, _cancel_movement true now w = (Ok tt, w1)
                          /\ self w1 = self w).
  { unfold _cancel_movement, bind, get_self, _set_motion, modify, lift, ret.
    rewrite Q4. simpl. rewrite Q5. simpl.
    eexists. split; [reflexivity |]. simpl.
    apply LogoCover_ext; simpl; congruence. }
  destruct E1 as (w1 & E1 & Hs1).
  unfold async_stop_cover, bind, get_self. rewrite E1.
  destruct (_execute_stop_sequence_frame service_ok
              (_active_or_last_direction (self w)) w1) as (F1 & _ & _).
  destruct (_execute_stop_sequence service_ok
              (_active_or_last_direction (self w)) w1) as [[u | e] w2];
    simpl in F1; simpl.
  - unfold _set_motion, async_write_ha_state, bind, get_self, modify, emit.
    simpl. rewrite F1, Hs1. apply LogoCover_ext; simpl; congruence.
  - congruence.
Qed.

(** X21.  [stop()] is idempotent on the entity: once a [stop()] has
    returned, a second [stop()] at any clock reading, whether its calls
    complete or not, leaves every attribute of the entity as it is (it only
    runs the stop sequence again). *)
Theorem second_stop_changes_nothing_of_the_entity
    (service_ok : list Event -> bool) (now now' : Q) (w : World) :
  fst (run service_ok (StopCover now) w) = Ok tt ->
  self (after service_ok (StopCover now')
          (after service_ok (StopCover now) w))
  = self (after service_ok (StopCover now) w).
Proof.
  intros Hret. unfold after, run in *.
  assert (Hst : exists p,
             stationary_at p (self w)
               (self (snd (async_stop_cover service_ok now w)))).
  { revert Hret. unfold async_stop_cover, bind, get_self.
    destruct (_cancel_movement true now w) as [[[] | e] w1] eqn:E1;
      [| discriminate].
    apply _cancel_movement_returned in E1.
    destruct (_execute_stop_sequence_frame service_ok
                (_active_or_last_direction (self w)) w1) as (F1 & _ & _).
    destruct (_execute_stop_sequence service_ok
                (_active_or_last_direction (self w)) w1) as [[u | e] w2];
      simpl in F1; simpl; [| discriminate].
    intros _. exists (_position (self w1)).
    unfold _set_motion, async_write_ha_state, bind, get_self, modify, emit.
    simpl. rewrite F1. unfold stationary_at in *. simpl. intuition. }
  destruct Hst as (p & Hst).
  apply (async_stop_cover_at_standstill service_ok now' p (self w) _ Hst).
Qed.

Lemma second_stop_changes_nothing_of_the_entity_witness :
  self (after calls_complete (StopCover 13)
          (after calls_complete (StopCover 12) world_opening_sleeping))
  = self (after calls_complete (StopCover 12) world_opening_sleeping).
Proof.
  apply (second_stop_changes_nothing_of_the_entity calls_complete 12 13
           world_opening_sleeping).
  vm_compute. reflexivity.
Defined.

(** X22.  [stop()] once the expected duration has elapsed commits the
    target: for a recorded movement with a positive duration, a [stop()] at
    a clock reading at least the duration after the start stamp leaves the
    committed position at the clamped target, also when the task has not
    run or has already finished. *)
Theorem stop_after_duration_commits_target
    (safe_load : string -> option PyObj) (float_of_str : string -> option Q)
    (service_ok : list Event -> bool) (data : EntryData) (w : World)
    (b t d now : Q) :
  reachable safe_load float_of_str service_ok data w ->
  _movement_start (self w) = Some b ->
  _movement_target (self w) = Some t ->
  _movement_expected_duration (self w) = Some d ->
  (0 < d)%Q ->
  (d <= now - b)%Q ->
  _position (self (after service_ok (StopCover now) w)) = _clamp_position t.
Proof.
  intros Hr Hb Ht Hd Hpos Hel.
  pose proof (reachable_task_inv _ _ _ _ _ Hr) as H.
  assert (Hnz : ~ (d == 0)%Q) by lra.
  pose proof (interpolated_value (self w) b t d now Hb Ht Hd Hnz) as Hp.
  destruct (async_stop_cover_freezes service_ok now _ w H Hp)
    as ((Q1 & _) & _).
  unfold after, run. rewrite Q1. unfold frozen_position.
  rewrite Hb. simpl. apply _clamp_position_comp.
  rewrite Q.min_l by (apply ratio_ge_1; lra). ring.
Qed.

Lemma stop_after_duration_commits_target_witness :
  _position (self (after calls_complete (StopCover 31) world_opening))
  = _clamp_position 100.
Proof.
  apply (stop_after_duration_commits_target demo_safe_load demo_float_of_str
           calls_complete demo_data world_opening 10 100 20 31).
  - apply world_opening_reachable.
  - vm_compute. reflexivity.
  - vm_compute. reflexivity.
  - vm_compute. reflexivity.
  - reflexivity.
  - unfold Qle. simpl. lia.
Defined.

(** ** The settings of a running entity *)

Lemma reachable_settings safe_load float_of_str service_ok data (w : World) :
  reachable safe_load float_of_str service_ok data w ->
  exists s0,
    __init__ safe_load float_of_str data = Ok s0
    /\ durations_from (settings s0) (self w).
Proof.
  induction 1 as [s Hs | c w _ (s0 & Hs & H)].
  - exists s. split; [exact Hs |]. apply (durations___init__ _ _ _ _ Hs).
  - exists s0. split; [exact Hs |].
    apply (durations_run service_ok (settings s0) c w H).
Qed.

Lemma __init___settings safe_load float_of_str (data : EntryData)
    (s : LogoCover) :
  __init__ safe_load float_of_str data = Ok s ->
  _open_switch (settings s) = CONF_OPEN_SWITCH data
  /\ _close_switch (settings s) = CONF_CLOSE_SWITCH data
  /\ _moving_up_sensor (settings s) = or_None (CONF_MOVING_UP_SENSOR data)
  /\ _moving_down_sensor (settings s)
     = or_None (CONF_MOVING_DOWN_SENSOR data)
  /\ _open_time (settings s) = CONF_OPEN_TIME data
  /\ _close_time (settings s) = CONF_CLOSE_TIME data
  /\ _shade_position (settings s)
     = _clamp_position (default 40%Q (CONF_SHADE_POSITION data)).
Proof.
  unfold __init__.
  destruct (_parse_stop_sequence _ _ (default "" (CONF_STOP_SEQUENCE data)));
    [| discriminate].
  destruct (_parse_stop_sequence _ _
              (default "" (CONF_STOP_SEQUENCE_UP data)));
    [| discriminate].
  destruct (_parse_stop_sequence _ _
              (default "" (CONF_STOP_SEQUENCE_DOWN data)));
    [| discriminate].
  intros [= <-]. simpl. repeat split.
Qed.

(** X23.  The configuration is read once: in every world the entity can be
    in, the switches, the sensors, the two times and the shade position are
    the ones [__init__] took from the entry (an empty sensor name counting
    as no sensor, the shade position rounded and clamped, 40 by default),
    and a recorded duration is the open time or the close time. *)
Theorem settings_are_those_of_the_entry
    (safe_load : string -> option PyObj) (float_of_str : string -> option Q)
    (service_ok : list Event -> bool) (data : EntryData) (w : World) :
  reachable safe_load float_of_str service_ok data w ->
  _open_switch (settings (self w)) = CONF_OPEN_SWITCH data
  /\ _close_switch (settings (self w)) = CONF_CLOSE_SWITCH data
  /\ _moving_up_sensor (settings (self w))
     = or_None (CONF_MOVING_UP_SENSOR data)
  /\ _moving_down_sensor (settings (self w))
     = or_None (CONF_MOVING_DOWN_SENSOR data)
  /\ _open_time (settings (self w)) = CONF_OPEN_TIME data
  /\ _close_time (settings (self w)) = CONF_CLOSE_TIME data
  /\ _shade_position (settings (self w))
     = _clamp_position (default 40%Q (CONF_SHADE_POSITION data))
  /\ match _movement_expected_duration (self w) with
     | Some d => d = CONF_OPEN_TIME data \/ d = CONF_CLOSE_TIME data
     | None => True
     end.
Proof.
  intros Hr.
  destruct (reachable_settings _ _ _ _ _ Hr) as (s0 & Hs & [Hset _]).
  destruct (__init___settings _ _ _ _ Hs) as (A & B & C & D & E & F & G).
  rewrite Hset.
  repeat (split; [assumption |]).
  apply (reachable_durations _ _ _ _ _ Hr).
Qed.

Lemma settings_are_those_of_the_entry_witness :
  _open_switch (settings (self world_superseded)) = CONF_OPEN_SWITCH demo_data
  /\ _close_switch (settings (self world_superseded))
     = CONF_CLOSE_SWITCH demo_data
  /\ _moving_up_sensor (settings (self world_superseded))
     = or_None (CONF_MOVING_UP_SENSOR demo_data)
  /\ _moving_down_sensor (settings (self world_superseded))
     = or_None (CONF_MOVING_DOWN_SENSOR demo_data)
  /\ _open_time (settings (self world_superseded)) = CONF_OPEN_TIME demo_data
  /\ _close_time (settings (self world_superseded))
     = CONF_CLOSE_TIME demo_data
  /\ _shade_position (settings (self world_superseded))
     = _clamp_position (default 40%Q (CONF_SHADE_POSITION demo_data))
  /\ match _movement_expected_duration (self world_superseded) with
     | Some d => d = CONF_OPEN_TIME demo_data \/ d = CONF_CLOSE_TIME demo_data
     | None => True
     end.
Proof.
  apply (settings_are_those_of_the_entry demo_safe_load demo_float_of_str
           calls_complete demo_data world_superseded).
  apply world_superseded_reachable.
Defined.

Lemma __init___no_sequences safe_load float_of_str (data : EntryData)
    (s : LogoCover) :
  is_blank (default "" (CONF_STOP_SEQUENCE data)) = true ->
  is_blank (default "" (CONF_STOP_SEQUENCE_UP data)) = true ->
  is_blank (default "" (CONF_STOP_SEQUENCE_DOWN data)) = true ->
  __init__ safe_load float_of_str data = Ok s ->
  _stop_sequence_up (settings s) = []
  /\ _stop_sequence_down (settings s) = [].
Proof.
  intros Hc Hu Hd. unfold __init__, _parse_stop_sequence.
  rewrite Hc, Hu, Hd, !orb_true_r. intros [= <-]. split; reflexivity.
Qed.

Lemma _execute_stop_sequence_fallback (service_ok : list Event -> bool)
    (opening : option bool) (w : World) :
  stop_sequence_for (self w) opening = [] ->
  _execute_stop_sequence service_ok opening w
  = (if service_ok (bus w ++ [turn_off_both (self w)])%list
     then Ok tt else Raise ServiceError,
     with_bus (bus w ++ [turn_off_both (self w)])%list w).
Proof.
  intros E. unfold _execute_stop_sequence, bind, get_self. rewrite E.
  unfold async_call, bind, emit, turn_off_both. simpl.
  destruct (service_ok _); reflexivity.
Qed.

(** X24.  An entity built without stop sequences (the three texts empty or
    blank) stops with the fallback in every state: [stop()] puts on the bus
    exactly one call, [switch.turn_off] on the open and the close switch
    together, followed by one publication of the frozen position with both
    flags false when that call completes, and by nothing when it fails. *)
Theorem stop_without_sequences_turns_off_both
    (safe_load : string -> option PyObj) (float_of_str : string -> option Q)
    (service_ok : list Event -> bool) (data : EntryData) (w : World)
    (now pA : Q) :
  is_blank (default "" (CONF_STOP_SEQUENCE data)) = true ->
  is_blank (default "" (CONF_STOP_SEQUENCE_UP data)) = true ->
  is_blank (default "" (CONF_STOP_SEQUENCE_DOWN data)) = true ->
  reachable safe_load float_of_str service_ok data w ->
  _interpolated_position (self w) now = Ok pA ->
  bus (after service_ok (StopCover now) w)
  = (bus w
     ++ turn_off_both (self w)
        :: (if service_ok (bus w ++ [turn_off_both (self w)])
            then [WriteHaState (frozen_position (self w) pA) false false]
            else []))%list.
Proof.
  intros Hc Hu Hd Hr Hp.
  pose proof (reachable_task_inv _ _ _ _ _ Hr) as H.
  destruct (reachable_settings _ _ _ _ _ Hr) as (s0 & Hs & [Hset _]).
  destruct (__init___no_sequences _ _ _ _ Hc Hu Hd Hs) as [Hup Hdown].
  destruct (_cancel_movement_result now pA w H Hp)
    as (w1 & E1 & Hst & _ & _ & _ & Hb1).
  destruct Hst as (Hpos1 & _ & _ & _ & _ & _ & _ & Hset1 & _).
  assert (Hseq : forall dir, stop_sequence_for (self w1) dir = []).
  { intros [[|] |]; simpl; rewrite ?Hset1, ?Hset; auto. }
  unfold after, run, async_stop_cover, bind, get_self. rewrite E1.
  rewrite (_execute_stop_sequence_fallback service_ok _ w1 (Hseq _)).
  assert (Eoff : turn_off_both (self w1) = turn_off_both (self w)).
  { unfold turn_off_both. rewrite Hset1. reflexivity. }
  rewrite Eoff, Hb1.
  unfold _set_motion, async_write_ha_state, bind, get_self, modify, emit.
  destruct (service_ok (bus w ++ [turn_off_both (self w)])%list); simpl.
  - rewrite Hpos1, <- app_assoc. reflexivity.
  - reflexivity.
Qed.

Lemma stop_without_sequences_turns_off_both_witness :
  bus (after calls_complete (StopCover (41 # 4)) world_opening)
  = (bus world_opening
     ++ turn_off_both (self world_opening)
        :: (if calls_complete
                 (bus world_opening ++ [turn_off_both (self world_opening)])
            then [WriteHaState
                    (frozen_position (self world_opening) (100 # 80))
                    false false]
            else []))%list.
Proof.
  apply (stop_without_sequences_turns_off_both demo_safe_load
           demo_float_of_str calls_complete demo_data world_opening
           (41 # 4) (100 # 80)).
  - reflexivity.
  - reflexivity.
  - reflexivity.
  - apply world_opening_reachable.
  - vm_compute. reflexivity.
Defined.

(** X27.  [set_shade] is a position command for exactly the configured
    shade position: in every world the entity can be in that position is an
    integer of 0..100 which the clamping gives back unchanged, and when the
    shutter is committed at it, [set_shade] is a [stop()]. *)
Theorem set_shade_targets_the_shade_position
    (safe_load : string -> option PyObj) (float_of_str : string -> option Q)
    (service_ok : list Event -> bool) (data : EntryData) (w : World)
    (t1 t2 : Q) :
  reachable safe_load float_of_str service_ok data w ->
  0 <= _shade_position (settings (self w)) <= 100
  /\ _clamp_position (inject_Z (_shade_position (settings (self w))))
     = _shade_position (settings (self w))
  /\ run service_ok (SetShade t1 t2) w
     = run service_ok
         (SetCoverPosition
            (Some (inject_Z (_shade_position (settings (self w))))) t1 t2) w
  /\ (_shade_position (settings (self w)) = _position (self w) ->
      run service_ok (SetShade t1 t2) w = run service_ok (StopCover t1) w).
Proof.
  intros Hr.
  destruct (reachable_settings _ _ _ _ _ Hr) as (s0 & Hs & [Hset _]).
  destruct (__init___settings _ _ _ _ Hs) as (_ & _ & _ & _ & _ & _ & Hsh).
  assert (Hrange : 0 <= _shade_position (settings (self w)) <= 100).
  { rewrite Hset, Hsh. apply _clamp_position_range. }
  assert (Hfix : _clamp_position
                   (inject_Z (_shade_position (settings (self w))))
                 = _shade_position (settings (self w))).
  { rewrite _clamp_position_inject_Z. lia. }
  split; [exact Hrange |]. split; [exact Hfix |].
  split; [reflexivity |].
  intros Heq. simpl.
  unfold async_set_shade, async_set_cover_position, bind, get_self.
  cbv beta iota. rewrite Hfix, Heq, Z.eqb_refl. reflexivity.
Qed.

Lemma set_shade_targets_the_shade_position_witness :
  0 <= _shade_position (settings (self world_opening)) <= 100
  /\ _clamp_position (inject_Z (_shade_position (settings (self world_opening))))
     = _shade_position (settings (self world_opening))
  /\ run calls_complete (SetShade 11 11) world_opening
     = run calls_complete
         (SetCoverPosition
            (Some (inject_Z (_shade_position (settings (self world_opening)))))
            11 11) world_opening
  /\ (_shade_position (settings (self world_opening))
      = _position (self world_opening) ->
      run calls_complete (SetShade 11 11) world_opening
      = run calls_complete (StopCover 11) world_opening).
Proof.
  apply (set_shade_targets_the_shade_position demo_safe_load
           demo_float_of_str calls_complete demo_data world_opening 11 11).
  apply world_opening_reachable.
Defined.

Lemma __init___sequences safe_load float_of_str (data : EntryData)
    (s : LogoCover) (common up down : list StopStep) :
  __init__ safe_load float_of_str data = Ok s ->
  _parse_stop_sequence safe_load float_of_str
    (default "" (CONF_STOP_SEQUENCE data)) = Ok common ->
  _parse_stop_sequence safe_load float_of_str
    (default "" (CONF_STOP_SEQUENCE_UP data)) = Ok up ->
  _parse_stop_sequence safe_load float_of_str
    (default "" (CONF_STOP_SEQUENCE_DOWN data)) = Ok down ->
  _stop_sequence_up (settings s) = list_or up common
  /\ _stop_sequence_down (settings s) = list_or down common.
Proof.
  unfold __init__. intros H Hc Hu Hd. rewrite Hc, Hu, Hd in H.
  injection H as <-. split; reflexivity.
Qed.

(** X28.  The shared stop sequence serves a direction that has no sequence
    of its own, for the whole life of the entity.  In every world the entity
    can be in, the sequence the stop selects for opening is the one of the
    up text, or the one of the shared text when the up text gives no step,
    and likewise for closing with the down text; without a direction the
    selection is empty.  A selection that is not empty is what
    [_execute_stop_sequence] runs, step by step. *)
Theorem shared_stop_sequence_is_the_default
    (safe_load : string -> option PyObj) (float_of_str : string -> option Q)
    (service_ok : list Event -> bool) (data : EntryData) (w : World)
    (common up down : list StopStep) :
  reachable safe_load float_of_str service_ok data w ->
  _parse_stop_sequence safe_load float_of_str
    (default "" (CONF_STOP_SEQUENCE data)) = Ok common ->
  _parse_stop_sequence safe_load float_of_str
    (default "" (CONF_STOP_SEQUENCE_UP data)) = Ok up ->
  _parse_stop_sequence safe_load float_of_str
    (default "" (CONF_STOP_SEQUENCE_DOWN data)) = Ok down ->
  stop_sequence_for (self w) (Some true)
  = match up with [] => common | _ => up end
  /\ stop_sequence_for (self w) (Some false)
     = match down with [] => common | _ => down end
  /\ stop_sequence_for (self w) None = []
  /\ (forall opening,
        stop_sequence_for (self w) opening <> [] ->
        _execute_stop_sequence service_ok opening w
        = run_stop_steps service_ok (stop_sequence_for (self w) opening) w).
Proof.
  intros Hr Hc Hu Hd.
  destruct (reachable_settings _ _ _ _ _ Hr) as (s0 & Hs & [Hset _]).
  destruct (__init___sequences _ _ _ _ _ _ _ Hs Hc Hu Hd) as [Eu Ed].
  split; [simpl; rewrite Hset; exact Eu |].
  split; [simpl; rewrite Hset; exact Ed |].
  split; [reflexivity |].
  intros opening Hne.
  unfold _execute_stop_sequence, bind, get_self. cbv beta iota zeta.
  destruct (stop_sequence_for (self w) opening); [contradiction | reflexivity].
Qed.

Lemma world_shared_opening_reachable :
  reachable mixed_safe_load demo_float_of_str calls_complete
    shared_and_down_data world_shared_opening.
Proof.
  unfold world_shared_opening. apply reach_after, reach_new.
  vm_compute. reflexivity.
Defined.

Lemma shared_stop_sequence_is_the_default_witness :
  stop_sequence_for (self world_shared_opening) (Some true)
  = match @nil StopStep with [] => [negative_delay_step] | _ => [] end
  /\ stop_sequence_for (self world_shared_opening) (Some false)
     = match [pause_step; plain_turn_off_step] with
       | [] => [negative_delay_step]
       | _ => [pause_step; plain_turn_off_step]
       end
  /\ stop_sequence_for (self world_shared_opening) None = []
  /\ (forall opening,
        stop_sequence_for (self world_shared_opening) opening <> [] ->
        _execute_stop_sequence calls_complete opening world_shared_opening
        = run_stop_steps calls_complete
            (stop_sequence_for (self world_shared_opening) opening)
            world_shared_opening).
Proof.
  apply (shared_stop_sequence_is_the_default mixed_safe_load
           demo_float_of_str calls_complete shared_and_down_data
           world_shared_opening [negative_delay_step] []
           [pause_step; plain_turn_off_step]).
  - apply world_shared_opening_reachable.
  - vm_compute. reflexivity.
  - vm_compute. reflexivity.
  - vm_compute. reflexivity.
Defined.

(** Stopping that entity while it opens runs the shared sequence: the one
    call of its one step, then the publication of the frozen position. *)
Lemma stop_while_opening_runs_shared_sequence :
  bus (after calls_complete (StopCover 15) world_shared_opening)
  = (bus world_shared_opening
     ++ [ServiceCall "switch" "turn_off"
           {[ "entity_id" := PyStr "switch.shutter_up" ]};
         WriteHaState 25 false false])%list.
Proof. vm_compute. reflexivity. Qed.

(** ** What the host is told *)

Lemma wp_modify (f : LogoCover -> LogoCover) :
  (forall s, _position (f s) = _position s) ->
  pres well_published (modify f).
Proof.
  intros Hf w [Hp Hb]. split; [| exact Hb].
  unfold position_in_range. simpl. rewrite Hf. exact Hp.
Qed.

Lemma wp_commit (v : Q) :
  pres well_published (modify (set_position (_clamp_position v))).
Proof.
  intros w [_ Hb]. split; [apply _clamp_position_range | exact Hb].
Qed.

Lemma wp_emit (e : Event) :
  publishes_in_range e -> pres well_published (emit e).
Proof.
  intros He w [Hp Hb]. split; [exact Hp |].
  simpl. apply Forall_app. split; [exact Hb |].
  constructor; [exact He | constructor].
Qed.

Lemma wp_task_cancel (tid : nat) : pres well_published (task_cancel tid).
Proof. intros w H. exact H. Qed.

Lemma wp_create_task : pres well_published create_task.
Proof. intros w H. exact H. Qed.

Lemma wp_async_call service_ok dom srv data :
  pres well_published (async_call service_ok dom srv data).
Proof.
  unfold async_call. apply pres_bind; [apply wp_emit; exact I | intros _].
  intros w H. destruct (service_ok (bus w)); exact H.
Qed.

Lemma wp_async_write_ha_state : pres well_published async_write_ha_state.
Proof.
  unfold async_write_ha_state. apply pres_get_self_bind.
  intros w H. apply wp_emit; [apply H | exact H].
Qed.

Ltac wp_step :=
  first
    [ simple apply wp_commit
    | simple apply wp_modify; intros ?; reflexivity
    | simple apply wp_emit; exact I
    | simple apply wp_task_cancel | simple apply wp_create_task
    | simple apply wp_async_call
    | simple apply wp_async_write_ha_state
    | pres_step ].

Section Published.

Variable service_ok : list Event -> bool.

Lemma wp__set_motion (opening closing : bool) :
  pres well_published (_set_motion opening closing).
Proof. unfold _set_motion. repeat wp_step. Qed.

Lemma wp__fire_direction_switch (opening : bool) :
  pres well_published (_fire_direction_switch service_ok opening).
Proof. unfold _fire_direction_switch. repeat wp_step. Qed.

Lemma wp__cancel_movement (update_position : bool) (now : Q) :
  pres well_published (_cancel_movement update_position now).
Proof.
  unfold _cancel_movement. repeat (simple apply wp__set_motion || wp_step).
Qed.

Lemma wp__start_movement (target : Z) (duration : Q) (opening : bool)
    (now : Q) :
  pres well_published (_start_movement target duration opening now).
Proof.
  unfold _start_movement. repeat (simple apply wp__set_motion || wp_step).
Qed.

Lemma wp_run_stop_steps (sequence : list StopStep) :
  pres well_published (run_stop_steps service_ok sequence).
Proof.
  induction sequence as [| step rest IH]; simpl.
  - apply pres_ret.
  - apply pres_bind; [| intros _; exact IH].
    unfold run_stop_step, asyncio_sleep. repeat wp_step.
Qed.

Lemma wp__execute_stop_sequence (opening : option bool) :
  pres well_published (_execute_stop_sequence service_ok opening).
Proof.
  unfold _execute_stop_sequence. apply pres_bind; [apply pres_get_self |].
  intros s. destruct (stop_sequence_for s opening) eqn:E.
  - apply wp_async_call.
  - apply wp_run_stop_steps.
Qed.

Lemma wp_async_stop_cover (now : Q) :
  pres well_published (async_stop_cover service_ok now).
Proof.
  unfold async_stop_cover.
  repeat (simple apply wp__set_motion || simple apply wp__cancel_movement
          || simple apply wp__execute_stop_sequence || wp_step).
Qed.

Lemma wp_async_set_cover_position (target : option Q) (t1 t2 : Q) :
  pres well_published (async_set_cover_position service_ok target t1 t2).
Proof.
  unfold async_set_cover_position.
  repeat (simple apply wp_async_stop_cover
          || simple apply wp__cancel_movement
          || simple apply wp__fire_direction_switch
          || simple apply wp__start_movement || wp_step).
Qed.

Lemma wp__handle_motion_sensor (entity new_state : option string)
    (t1 t2 : Q) :
  pres well_published (_handle_motion_sensor entity new_state t1 t2).
Proof.
  unfold _handle_motion_sensor. cbv zeta.
  repeat (simple apply wp__cancel_movement
          || simple apply wp__start_movement || wp_step).
Qed.

Lemma wp__run_movement_task_turn (t1 t2 : Q) :
  pres well_published (_run_movement_task_turn t1 t2).
Proof. unfold _run_movement_task_turn. repeat wp_step. Qed.

Lemma wp__run_movement_task_exit :
  pres well_published _run_movement_task_exit.
Proof.
  unfold _run_movement_task_exit.
  repeat (simple apply wp__set_motion || wp_step).
Qed.

Lemma wp_run_task (tid : nat) (t1 t2 : Q) :
  pres well_published (run_task tid t1 t2).
Proof.
  intros w H. unfold run_task.
  destruct (task_phase tid w) as [[|] |]; [| | exact H].
  - destruct (_run_movement_task_asserts w) as [[u | e] w'] eqn:E;
      unfold _run_movement_task_asserts, bind, get_self in E;
      destruct (_movement_target (self w)),
        (_movement_expected_duration (self w));
      injection E as _ <-; exact H.
  - pose proof (wp__run_movement_task_turn t1 t2 w H) as Ht.
    destruct (_run_movement_task_turn t1 t2 w) as [[[|] | e] w']; simpl in *.
    + pose proof (wp__run_movement_task_exit w' Ht) as Hx.
      destruct (_run_movement_task_exit w') as [r w'']. exact Hx.
    + exact Ht.
    + exact Ht.
Qed.

Lemma wp_run (c : command) : pres well_published (run service_ok c).
Proof.
  destruct c; simpl.
  - unfold async_added_to_hass. repeat wp_step.
  - apply wp__cancel_movement.
  - apply wp_async_set_cover_position.
  - apply wp_async_set_cover_position.
  - apply wp_async_set_cover_position.
  - apply wp_async_stop_cover.
  - unfold async_set_shade. apply pres_bind; [apply pres_get_self | intros s].
    apply wp_async_set_cover_position.
  - apply wp__handle_motion_sensor.
  - apply wp_run_task.
Qed.

End Published.

(** X25.  Every state the entity publishes to its host carries a position
    of 0..100: no publication on the bus, from construction on, is out of
    range. *)
Theorem published_positions_in_range
    (safe_load : string -> option PyObj) (float_of_str : string -> option Q)
    (service_ok : list Event -> bool) (data : EntryData) (w : World) :
  reachable safe_load float_of_str service_ok data w ->
  Forall publishes_in_range (bus w).
Proof.
  intros Hr.
  assert (H : well_published w).
  { induction Hr as [s Hs | c w _ IH].
    - split; [apply (range___init__ _ _ _ _ Hs) | constructor].
    - apply (wp_run service_ok c w IH). }
  apply H.
Qed.

Lemma published_positions_in_range_witness :
  Forall publishes_in_range (bus world_superseded).
Proof.
  apply (published_positions_in_range demo_safe_load demo_float_of_str
           calls_complete demo_data world_superseded).
  apply world_superseded_reachable.
Defined.

(** ** What a command can raise *)

Lemma sm_refl (w : World) : same_movement w w.
Proof. repeat split. Qed.

Lemma sm_modify (w0 : World) (f : LogoCover -> LogoCover) :
  (forall s, _movement_task (f s) = _movement_task s
             /\ _movement_start (f s) = _movement_start s
             /\ _movement_target (f s) = _movement_target s
             /\ _movement_expected_duration (f s)
                = _movement_expected_duration s) ->
  pres (same_movement w0) (modify f).
Proof.
  intros Hf w (H1 & H2 & H3 & H4 & H5).
  destruct (Hf (self w)) as (F2 & F3 & F4 & F5).
  unfold same_movement. simpl. rewrite F2, F3, F4, F5. auto.
Qed.

Lemma sm_emit (w0 : World) (e : Event) : pres (same_movement w0) (emit e).
Proof. intros w H. exact H. Qed.

Lemma sm_async_call (w0 : World) service_ok dom srv data :
  pres (same_movement w0) (async_call service_ok dom srv data).
Proof.
  unfold async_call. apply pres_bind; [apply sm_emit | intros _].
  intros w H. destruct (service_ok (bus w)); exact H.
Qed.

Ltac sm_step :=
  first
    [ simple apply sm_emit | simple apply sm_async_call
    | simple apply sm_modify; intros ?; repeat split; reflexivity
    | pres_step ].

Lemma ltm_same_movement (w0 w : World) :
  live_task_has_movement w0 -> same_movement w0 w ->
  live_task_has_movement w.
Proof.
  intros [H K] (H1 & H2 & H3 & H4 & H5).
  unfold live_task_has_movement, task_inv, movement_recorded in *.
  rewrite H1, H2, H3, H4, H5. split; assumption.
Qed.

Lemma ltm_of_frame {A} (m : M A) :
  (forall w0, pres (same_movement w0) m) -> pres live_task_has_movement m.
Proof.
  intros Hm w H. apply (ltm_same_movement w); [exact H |].
  apply Hm, sm_refl.
Qed.

Section LiveTask.

Variable service_ok : list Event -> bool.

Lemma sm_async_write_ha_state (w0 : World) :
  pres (same_movement w0) async_write_ha_state.
Proof. unfold async_write_ha_state. repeat sm_step. Qed.

Lemma sm__set_motion (w0 : World) (opening closing : bool) :
  pres (same_movement w0) (_set_motion opening closing).
Proof. unfold _set_motion. repeat sm_step. Qed.

Lemma sm__fire_direction_switch (w0 : World) (opening : bool) :
  pres (same_movement w0) (_fire_direction_switch service_ok opening).
Proof. unfold _fire_direction_switch. repeat sm_step. Qed.

Lemma sm_run_stop_steps (w0 : World) (sequence : list StopStep) :
  pres (same_movement w0) (run_stop_steps service_ok sequence).
Proof.
  induction sequence as [| step rest IH]; simpl.
  - apply pres_ret.
  - apply pres_bind; [| intros _; exact IH].
    unfold run_stop_step, asyncio_sleep. repeat sm_step.
Qed.

Lemma sm__execute_stop_sequence (w0 : World) (opening : option bool) :
  pres (same_movement w0) (_execute_stop_sequence service_ok opening).
Proof.
  unfold _execute_stop_sequence. apply pres_bind; [apply pres_get_self |].
  intros s. destruct (stop_sequence_for s opening) eqn:E.
  - apply sm_async_call.
  - apply sm_run_stop_steps.
Qed.

Lemma sm__run_movement_task_turn (w0 : World) (t1 t2 : Q) :
  pres (same_movement w0) (_run_movement_task_turn t1 t2).
Proof.
  unfold _run_movement_task_turn.
  repeat (simple apply sm_async_write_ha_state || sm_step).
Qed.

Lemma ltm__cancel_movement (update_position : bool) (now : Q) :
  pres live_task_has_movement (_cancel_movement update_position now).
Proof.
  intros w [H _].
  destruct (_cancel_movement_idle update_position now w H) as (Hl & _ & _).
  split; [apply task_inv_idle, Hl |]. rewrite Hl. intros []. reflexivity.
Qed.

Lemma ltm__start_movement (target : Z) (duration : Q) (opening : bool)
    (now : Q) :
  pres live_task_has_movement (_start_movement target duration opening now).
Proof.
  intros w [H _].
  destruct (_start_movement_result target duration opening now w H)
    as (w' & E & Hmv & Hl & _).
  rewrite E. simpl.
  destruct Hmv as (_ & _ & P3 & P4 & P5 & _ & _ & _ & P9 & _).
  split.
  - unfold task_inv. rewrite Hl. exact P9.
  - intros _. unfold movement_recorded. rewrite P3, P4, P5.
    repeat split; eexists; reflexivity.
Qed.

Ltac ltm_step :=
  first
    [ simple apply ltm__cancel_movement | simple apply ltm__start_movement
    | (simple apply ltm_of_frame; intros ?;
       first [ simple apply sm__set_motion
             | simple apply sm_async_write_ha_state
             | simple apply sm__fire_direction_switch
             | simple apply sm__execute_stop_sequence
             | simple apply sm_modify; intros ?; repeat split; reflexivity ])
    | pres_step ].

Lemma ltm_async_stop_cover (now : Q) :
  pres live_task_has_movement (async_stop_cover service_ok now).
Proof. unfold async_stop_cover. repeat ltm_step. Qed.

Lemma ltm_async_set_cover_position (target : option Q) (t1 t2 : Q) :
  pres live_task_has_movement
    (async_set_cover_position service_ok target t1 t2).
Proof.
  unfold async_set_cover_position.
  repeat (simple apply ltm_async_stop_cover || ltm_step).
Qed.

Lemma ltm__handle_motion_sensor (entity new_state : option string)
    (t1 t2 : Q) :
  pres live_task_has_movement
    (_handle_motion_sensor entity new_state t1 t2).
Proof. unfold _handle_motion_sensor. cbv zeta. repeat ltm_step. Qed.

Lemma ltm_run_task (tid : nat) (t1 t2 : Q) :
  pres live_task_has_movement (run_task tid t1 t2).
Proof.
  intros w HK. pose proof HK as [H K]. unfold run_task.
  destruct (task_phase tid w) as [ph |] eqn:Ep; [| exact HK].
  pose proof (task_inv_phase w tid ph H Ep) as Hl.
  assert (Hdrop : drop_task tid [(tid, ph)] = []).
  { unfold drop_task. simpl. rewrite Nat.eqb_refl. reflexivity. }
  assert (Hidle : forall w', loop_tasks w' = [] -> live_task_has_movement w').
  { intros w' E. split; [apply task_inv_idle, E |].
    rewrite E. intros []. reflexivity. }
  assert (Hrec : movement_recorded (self w)).
  { apply K. rewrite Hl. discriminate. }
  destruct ph.
  - unfold _run_movement_task_asserts, bind, get_self, ret, raise.
    destruct (_movement_target (self w)),
      (_movement_expected_duration (self w)); simpl;
      try (apply Hidle; simpl; rewrite Hl; exact Hdrop).
    rewrite Hl, Hdrop. simpl. split.
    + unfold task_inv in *. simpl. rewrite Hl in H. exact H.
    + intros _. exact Hrec.
  - pose proof (sm__run_movement_task_turn w t1 t2 w (sm_refl w)) as Hf.
    destruct (_run_movement_task_turn t1 t2 w) as [[[|] | e] w'];
      simpl in Hf.
    + destruct (_run_movement_task_exit w') as [r w''] eqn:Ex.
      apply Hidle. simpl.
      assert (El : loop_tasks w'' = loop_tasks w').
      { revert Ex. unfold _run_movement_task_exit, _set_motion,
          async_write_ha_state, bind, get_self, modify, emit, raise.
        destruct (_movement_target (self w')); simpl;
          [| intros [= _ <-]; reflexivity].
        destruct (_sensor_up_active (self w') || _sensor_down_active (self w'));
          simpl; intros [= _ <-]; reflexivity. }
      destruct Hf as (F1 & _). rewrite El, F1, Hl. exact Hdrop.
    + apply (ltm_same_movement w); assumption.
    + apply Hidle. simpl. destruct Hf as (F1 & _). rewrite F1, Hl.
      exact Hdrop.
Qed.

Lemma ltm_run (c : command) :
  pres live_task_has_movement (run service_ok c).
Proof.
  destruct c; simpl.
  - unfold async_added_to_hass. repeat ltm_step.
  - apply ltm__cancel_movement.
  - apply ltm_async_set_cover_position.
  - apply ltm_async_set_cover_position.
  - apply ltm_async_set_cover_position.
  - apply ltm_async_stop_cover.
  - unfold async_set_shade. apply pres_bind; [apply pres_get_self | intros s].
    apply ltm_async_set_cover_position.
  - apply ltm__handle_motion_sensor.
  - apply ltm_run_task.
Qed.

End LiveTask.

Lemma reachable_live_task safe_load float_of_str service_ok data (w : World) :
  reachable safe_load float_of_str service_ok data w ->
  live_task_has_movement w.
Proof.
  induction 1 as [s Hs | c w _ IH].
  - split; [exact I |]. intros []. reflexivity.
  - apply (ltm_run service_ok c w IH).
Qed.

Section Outcomes.

Variable service_ok : list Event -> bool.
Variable st : Settings.
Hypothesis open_time_nonzero : ~ (_open_time st == 0)%Q.
Hypothesis close_time_nonzero : ~ (_close_time st == 0)%Q.

Lemma durations_interpolation_returns (s : LogoCover) (now : Q) :
  durations_from st s -> exists p, _interpolated_position s now = Ok p.
Proof.
  intros [_ Hd]. unfold _interpolated_position, py_div.
  destruct (_movement_start s); [| eexists; reflexivity].
  destruct (_movement_target s); [| eexists; reflexivity].
  destruct (_movement_expected_duration s) as [d |]; [| eexists; reflexivity].
  assert (Hnz : ~ (d == 0)%Q) by (destruct Hd as [-> | ->]; assumption).
  destruct (Qeq_bool d 0) eqn:E; [| eexists; reflexivity].
  apply Qeq_bool_iff in E. contradiction.
Qed.

Lemma run_stop_steps_outcome (sequence : list StopStep) (w : World) :
  only_service_failure service_ok
    (fst (run_stop_steps service_ok sequence w))
    (snd (run_stop_steps service_ok sequence w)).
Proof.
  revert w. induction sequence as [| step rest IH]; intros w.
  - left. reflexivity.
  - simpl. unfold bind.
    destruct (run_stop_step_cases service_ok step w)
      as (d & s & data & [[E Ec] | [evs E]]); rewrite E; simpl.
    + right. split; [reflexivity | exact Ec].
    + apply IH.
Qed.

Lemma _execute_stop_sequence_outcome (opening : option bool) (w : World) :
  only_service_failure service_ok
    (fst (_execute_stop_sequence service_ok opening w))
    (snd (_execute_stop_sequence service_ok opening w)).
Proof.
  destruct (stop_sequence_for (self w) opening) as [| step rest] eqn:E.
  - rewrite (_execute_stop_sequence_fallback service_ok opening w E). simpl.
    destruct (service_ok _) eqn:Ec; [left | right]; auto.
  - assert (Ex : _execute_stop_sequence service_ok opening w
                 = run_stop_steps service_ok (step :: rest) w).
    { unfold _execute_stop_sequence, bind, get_self. rewrite E. reflexivity. }
    rewrite Ex. apply run_stop_steps_outcome.
Qed.

Lemma async_stop_cover_outcome (now : Q) (w : World) :
  task_inv w -> durations_from st (self w) ->
  only_service_failure service_ok
    (fst (async_stop_cover service_ok now w))
    (snd (async_stop_cover service_ok now w)).
Proof.
  intros H Hd.
  destruct (durations_interpolation_returns (self w) now Hd) as (p & Hp).
  destruct (_cancel_movement_result now p w H Hp) as (w1 & E1 & _).
  unfold async_stop_cover, bind, get_self. rewrite E1.
  pose proof (_execute_stop_sequence_outcome
                (_active_or_last_direction (self w)) w1) as Ho.
  destruct (_execute_stop_sequence service_ok
              (_active_or_last_direction (self w)) w1) as [[[] | e] w2];
    simpl in Ho; simpl.
  - left. reflexivity.
  - exact Ho.
Qed.

Lemma async_set_cover_position_outcome (target : option Q) (t1 t2 : Q)
    (w : World) :
  task_inv w -> durations_from st (self w) ->
  only_service_failure service_ok
    (fst (async_set_cover_position service_ok target t1 t2 w))
    (snd (async_set_cover_position service_ok target t1 t2 w)).
Proof.
  intros H Hd. destruct target as [target |]; [| left; reflexivity].
  unfold async_set_cover_position, bind, get_self. cbv beta iota.
  destruct (_clamp_position target =? _position (self w))%Z;
    [apply async_stop_cover_outcome; assumption |].
  destruct (durations_interpolation_returns (self w) t1 Hd) as (p & Hp).
  destruct (_cancel_movement_result t1 p w H Hp)
    as (w1 & E1 & _ & _ & Hl1 & _).
  rewrite E1, _fire_direction_switch_result.
  destruct (service_ok _) eqn:Ec.
  - set (w2 := with_bus _ w1).
    assert (H2 : task_inv w2) by (apply task_inv_idle; exact Hl1).
    match goal with
    | |- context [_start_movement ?tg ?du ?op t2 w2] =>
        destruct (_start_movement_result tg du op t2 w2 H2) as (w3 & E3 & _)
    end.
    rewrite E3. left. reflexivity.
  - right. split; [reflexivity | exact Ec].
Qed.

Lemma _handle_motion_sensor_returns (entity new_state : option string)
    (t1 t2 : Q) (w : World) :
  task_inv w -> durations_from st (self w) ->
  fst (_handle_motion_sensor entity new_state t1 t2 w) = Ok tt.
Proof.
  intros H Hd.
  unfold _handle_motion_sensor, bind, get_self. cbv beta iota.
  destruct (negb _); [reflexivity |]. cbv zeta.
  set (is_on := match new_state with Some _ => _ | None => _ end).
  set (opening := bool_decide (entity = _moving_up_sensor (settings (self w)))).
  set (s0 := if opening then set_sensor_up_active is_on (self w)
             else set_sensor_down_active is_on (self w)).
  assert (E0 : (if opening then modify (set_sensor_up_active is_on)
                else modify (set_sensor_down_active is_on)) w
               = (Ok tt, with_self s0 w)).
  { unfold s0. destruct opening; reflexivity. }
  rewrite E0. set (w0 := with_self s0 w).
  assert (H0 : task_inv w0).
  { unfold task_inv, w0, s0 in *. destruct opening; exact H. }
  assert (Hd0 : durations_from st (self w0)).
  { unfold w0, s0. destruct opening; exact Hd. }
  destruct (durations_interpolation_returns (self w0) t1 Hd0) as (p & Hp).
  destruct (_cancel_movement_result t1 p w0 H0 Hp)
    as (w1 & E1 & _ & _ & Hl1 & _).
  destruct is_on.
  - rewrite E1.
    assert (H1 : task_inv w1) by (apply task_inv_idle; exact Hl1).
    match goal with
    | |- context [_start_movement ?tg ?du ?op t2 w1] =>
        destruct (_start_movement_result tg du op t2 w1 H1) as (w3 & E3 & _)
    end.
    rewrite E3. reflexivity.
  - destruct (negb (_sensor_up_active (self w0))
              && negb (_sensor_down_active (self w0)));
      [rewrite E1 |]; reflexivity.
Qed.

Lemma run_task_returns (tid : nat) (t1 t2 : Q) (w : World) :
  live_task_has_movement w -> durations_from st (self w) ->
  fst (run_task tid t1 t2 w) = Ok tt.
Proof.
  intros [H K] Hd. unfold run_task.
  destruct (task_phase tid w) as [ph |] eqn:Ep; [| reflexivity].
  pose proof (task_inv_phase w tid ph H Ep) as Hl.
  assert (Hrec : movement_recorded (self w)).
  { apply K. rewrite Hl. discriminate. }
  destruct Hrec as ([b Hb] & [t Ht] & [d Hdur]).
  destruct (durations_interpolation_returns (self w) t1 Hd) as (p & Hp).
  destruct ph.
  - unfold _run_movement_task_asserts, bind, get_self, ret.
    rewrite Ht, Hdur. reflexivity.
  - unfold _run_movement_task_turn, _run_movement_task_exit,
      async_write_ha_state, _set_motion, bind, get_self, lift, modify, emit,
      ret.
    rewrite Hp. simpl. rewrite Hb, Hdur.
    destruct (Qle_bool d (t2 - b)); simpl; [| reflexivity].
    rewrite Ht.
    destruct (_sensor_up_active (self w) || _sensor_down_active (self w));
      reflexivity.
Qed.

Lemma run_outcome (c : command) (w : World) :
  live_task_has_movement w -> durations_from st (self w) ->
  only_service_failure service_ok (fst (run service_ok c w))
    (snd (run service_ok c w)).
Proof.
  intros HK Hd. pose proof HK as [H _].
  destruct c; simpl.
  - left. destruct pos; reflexivity.
  - left. destruct (_cancel_movement_keep_result 0 w H) as (w1 & E & _).
    unfold async_will_remove_from_hass. rewrite E. reflexivity.
  - apply async_set_cover_position_outcome; assumption.
  - apply async_set_cover_position_outcome; assumption.
  - apply async_set_cover_position_outcome; assumption.
  - apply async_stop_cover_outcome; assumption.
  - unfold async_set_shade, bind, get_self. cbv beta iota.
    apply async_set_cover_position_outcome; assumption.
  - left. apply _handle_motion_sensor_returns; assumption.
  - left. apply run_task_returns; assumption.
Qed.

End Outcomes.

Lemma schema_time_nonzero (v x : Q) : schema_time v = Some x -> ~ (v == 0)%Q.
Proof.
  unfold schema_time, vol_Range_min.
  destruct (Qle_bool (1 # 10) v) eqn:E; [| discriminate].
  intros _. apply Qle_bool_iff in E. lra.
Qed.

(** X26.  With an open time and a close time that pass the configuration
    schema, nothing but a failed service call makes an operation of the
    entity raise: in every world the entity can be in, every command either
    returns or raises the failure of a service call, which is then the last
    event on the bus; sensor events, runs of the movement task, the state
    restore and the removal always return. *)
Theorem only_a_failed_call_makes_a_command_raise
    (safe_load : string -> option PyObj) (float_of_str : string -> option Q)
    (service_ok : list Event -> bool) (data : EntryData) (w : World)
    (c : command) (o cl : Q) :
  schema_time (CONF_OPEN_TIME data) = Some o ->
  schema_time (CONF_CLOSE_TIME data) = Some cl ->
  reachable safe_load float_of_str service_ok data w ->
  only_service_failure service_ok (fst (run service_ok c w))
    (after service_ok c w)
  /\ match c with
     | AddedToHass _ | WillRemoveFromHass | MotionSensor _ _ _ _
     | Tick _ _ _ => fst (run service_ok c w) = Ok tt
     | _ => True
     end.
Proof.
  intros Ho Hc Hr.
  pose proof (reachable_live_task _ _ _ _ _ Hr) as HK.
  destruct (reachable_settings _ _ _ _ _ Hr) as (s0 & Hs & Hd).
  destruct (__init___settings _ _ _ _ Hs) as (_ & _ & _ & _ & Eo & Ec & _).
  assert (Hon : ~ (_open_time (settings s0) == 0)%Q).
  { rewrite Eo. apply (schema_time_nonzero _ _ Ho). }
  assert (Hcn : ~ (_close_time (settings s0) == 0)%Q).
  { rewrite Ec. apply (schema_time_nonzero _ _ Hc). }
  split.
  - apply (run_outcome service_ok (settings s0) Hon Hcn c w HK Hd).
  - pose proof HK as [H _]. destruct c; try exact I; simpl.
    + destruct pos; reflexivity.
    + destruct (_cancel_movement_keep_result 0 w H) as (w1 & E & _).
      unfold async_will_remove_from_hass. rewrite E. reflexivity.
    + apply (_handle_motion_sensor_returns (settings s0) Hon Hcn); assumption.
    + apply (run_task_returns (settings s0) Hon Hcn); assumption.
Qed.

Lemma only_a_failed_call_makes_a_command_raise_witness :
  only_service_failure calls_complete
    (fst (run calls_complete (Tick 0 30 30) world_opening_sleeping))
    (after calls_complete (Tick 0 30 30) world_opening_sleeping)
  /\ fst (run calls_complete (Tick 0 30 30) world_opening_sleeping) = Ok tt.
Proof.
  apply (only_a_failed_call_makes_a_command_raise demo_safe_load
           demo_float_of_str calls_complete demo_data world_opening_sleeping
           (Tick 0 30 30) 20 20).
  - reflexivity.
  - reflexivity.
  - apply world_opening_sleeping_reachable.
Defined.
